(** * JOINUP-SERVER: the progress and gamification engine

    A shallow embedding of the completion recorder
    ([completeChallenge], [updateCompletionRate] in
    src/controllers/challengeController.ts), the badge engine
    ([checkAndAwardBadges] in the badge controller) and the two
    per-challenge ranking queries ([getChallengeRanking],
    [getMyChallengeRank] in the user-challenge controller), together with
    the Mongoose schemas they save through.

    Conventions of the embedding.
    - A [Date] is its [getTime()] value, an integer number of
      milliseconds ([Z]).  Object ids are strings.
    - Counters ([score], [totalCompletions], the streak counters) are
      integer-valued JavaScript numbers; they are kept in [Z], which is
      exact as long as they stay below 2^53.
    - [trustScore] takes the values 0, 1, 2, 2.5, 3, ... (multiples of
      one half, all exactly representable); it is kept in [Q].
    - The two places where the source divides and then calls
      [Math.round] go through [f64], a model of the rounding of IEEE-754
      binary64 arithmetic (quotient and product are each rounded to 53
      significant bits, ties to even).  The exponent range is not
      modelled: quotients of participant counts are far inside it.
    - A collection is the list of its documents; [save] replaces the
      document with the same [_id] after running the schema validators.
    - Ids in requests are well-formed ObjectIds where the source does
      not test them itself (a malformed id makes Mongoose throw while
      casting the query).
    - Logging, the removal of the uploaded file, and the response fields
      that only repeat stored fields or report floating-point
      statistics are left out. *)

From Stdlib Require Import ZArith QArith Qminmax Lia List Bool String Ascii.
From Stdlib Require Import Permutation Sorted.
From Stdlib Require Import PrimFloat SpecFloat FloatOps Uint63.
From stdpp Require Import gmap strings.
Import ListNotations.

Local Open Scope Z_scope.

(** ** JavaScript numbers *)

Module JsNumber.

(** The finite double [mant * 2 ^ expo]. *)
Record f64 := F64 { mant : Z; expo : Z }.

(** Nearest integer to [n / d] for [0 < d], ties to even. *)
Definition rne (n d : Z) : Z :=
  let q := n / d in
  let r := n mod d in
  if 2 * r <? d then q
  else if d <? 2 * r then q + 1
  else if Z.even q then q else q + 1.

(** The double nearest to the rational [n / d], [0 < d]: the exponent is
    chosen so that the scaled quotient lies in [2^52, 2^53), and the
    scaled quotient is rounded to an integer. *)
Definition nearest64 (n d : Z) : f64 :=
  if n =? 0 then F64 0 0 else
  let a := Z.abs n in
  let e0 := Z.log2 a - Z.log2 d - 52 in
  let e := if a * 2 ^ Z.max 0 (- e0) <? 2 ^ 52 * (d * 2 ^ Z.max 0 e0)
           then e0 - 1 else e0 in
  F64 (Z.sgn n * rne (a * 2 ^ Z.max 0 (- e)) (d * 2 ^ Z.max 0 e)) e.

(** [a / b] on two integer-valued numbers; [None] stands for the
    non-finite results of a division by zero ([NaN], [Infinity]). *)
Definition js_div (a b : Z) : option f64 :=
  if b =? 0 then None
  else if b <? 0 then Some (nearest64 (- a) (- b))
  else Some (nearest64 a b).

(** [x * c] for an integer-valued [c]. *)
Definition js_mul (x : f64) (c : Z) : f64 :=
  nearest64 (mant x * c * 2 ^ Z.max 0 (expo x)) (2 ^ Z.max 0 (- expo x)).

(** [Math.round]: the integer nearest to [x], halves towards +infinity,
    that is [floor (x + 1/2)] computed exactly. *)
Definition Math_round (x : f64) : Z :=
  (2 * mant x * 2 ^ Z.max 0 (expo x) + 2 ^ Z.max 0 (- expo x))
    / (2 * 2 ^ Z.max 0 (- expo x)).

(** [Math.round((a / b) * 100)]. *)
Definition round_percent (a b : Z) : option Z :=
  match js_div a b with
  | Some q => Some (Math_round (js_mul q 100))
  | None => None
  end.

(** The same expression on the kernel's primitive binary64 floats, used
    to check the model above by evaluation. *)
Definition prim_Math_round (x : float) : Z :=
  match Prim2SF x with
  | S754_finite s m e =>
      let v := if s then Z.neg m else Z.pos m in
      (2 * v * 2 ^ Z.max 0 e + 2 ^ Z.max 0 (- e)) / (2 * 2 ^ Z.max 0 (- e))
  | _ => 0
  end.

Definition prim_round_percent (a b : Z) : Z :=
  prim_Math_round
    (PrimFloat.mul
       (PrimFloat.div (of_uint63 (Uint63.of_Z a)) (of_uint63 (Uint63.of_Z b)))
       (of_uint63 (Uint63.of_Z 100))).

(** What the words "round(100 * a / b)" denote on exact rationals. *)
Definition exact_round_percent (a b : Z) : Z := (200 * a + b) / (2 * b).

End JsNumber.
Export JsNumber.

(** ** Dates *)

Definition msPerDay : Z := 1000 * 60 * 60 * 24.

(** [d.setUTCHours(0, 0, 0, 0)]. *)
Definition utcMidnight (now : Z) : Z := now - now mod msPerDay.

(** [d.setUTCDate(d.getUTCDate() - 1)]. *)
Definition dayBefore (d : Z) : Z := d - msPerDay.

(** [Math.floor((now - start) / (1000 * 60 * 60 * 24))]. *)
Definition daysSince (now start : Z) : Z := (now - start) / msPerDay.

(** ** Documents *)

Definition ObjectId := string.

Record CompletionPhoto := mkPhoto { photo_date : Z; photoUrl : string }.

Record UserChallenge := mkUserChallenge {
  uc_id : ObjectId;
  userId : ObjectId;
  challengeId : ObjectId;
  completedDates : list Z;
  completionPhotos : list CompletionPhoto;
  startDate : Z;
  score : Z;
  totalCompletions : Z;
  currentStreakCount : Z;
  maxStreakCount : Z;
  lastCompletionDate : option Z
}.

Inductive Grade := bronze | silver | gold | diamond.

Record RepresentativeBadge := mkRep { rep_badgeId : ObjectId; order : Z }.

Record User := mkUser {
  user_id : ObjectId;
  grade : Grade;
  trustScore : Q;
  representativeBadges : list RepresentativeBadge;
  earnedBadges : list ObjectId
}.

(** The six values of [condition.type] in the badge schema. *)
Inductive ConditionType :=
| cond_completions
| cond_streak
| cond_score
| cond_challenges
| cond_days
| cond_category_completions.

Record Badge := mkBadge {
  badge_id : ObjectId;
  cond_type : ConditionType;
  cond_value : Z;
  categoryTarget : option string
}.

Record Challenge := mkChallenge {
  ch_id : ObjectId;
  category : string;
  completionRate : Z
}.

Record DB := mkDB {
  userChallenges : list UserChallenge;
  users : list User;
  challenges : list Challenge;
  badges : list Badge
}.

Definition Grade_eqb (a b : Grade) : bool :=
  match a, b with
  | bronze, bronze | silver, silver | gold, gold | diamond, diamond => true
  | _, _ => false
  end.

(** ** Schema validators and the collections *)

(** models/User.ts: at most four representative badges, with distinct
    orders, each between 1 and 4. *)
Fixpoint distinct (l : list Z) : bool :=
  match l with
  | [] => true
  | x :: r => negb (existsb (Z.eqb x) r) && distinct r
  end.

Definition User_validate (u : User) : bool :=
  (Z.of_nat (List.length (representativeBadges u)) <=? 4)
  && distinct (map order (representativeBadges u))
  && forallb (fun r => (1 <=? order r) && (order r <=? 4)) (representativeBadges u).

(** models/Challenge.ts: [completionRate] has [min: 0] and [max: 100]. *)
Definition Challenge_validate (c : Challenge) : bool :=
  (0 <=? completionRate c) && (completionRate c <=? 100).

Definition UserChallenge_findOne (uid cid : ObjectId) (db : DB) : option UserChallenge :=
  find (fun uc => String.eqb (userId uc) uid && String.eqb (challengeId uc) cid)
       (userChallenges db).

Definition UserChallenge_find_challenge (cid : ObjectId) (db : DB) : list UserChallenge :=
  List.filter (fun uc => String.eqb (challengeId uc) cid) (userChallenges db).

Definition UserChallenge_find_user (uid : ObjectId) (db : DB) : list UserChallenge :=
  List.filter (fun uc => String.eqb (userId uc) uid) (userChallenges db).

Definition UserChallenge_save (uc : UserChallenge) (db : DB) : DB :=
  mkDB (map (fun x => if String.eqb (uc_id x) (uc_id uc) then uc else x) (userChallenges db))
       (users db) (challenges db) (badges db).

Definition User_findById (uid : ObjectId) (db : DB) : option User :=
  find (fun u => String.eqb (user_id u) uid) (users db).

(** [user.save()]: [None] is the rejection by a validator, which the
    caller sees as a thrown [ValidationError]. *)
Definition User_save (u : User) (db : DB) : option DB :=
  if User_validate u
  then Some (mkDB (userChallenges db)
                  (map (fun x => if String.eqb (user_id x) (user_id u) then u else x) (users db))
                  (challenges db) (badges db))
  else None.

Definition Challenge_findById (cid : ObjectId) (db : DB) : option Challenge :=
  find (fun c => String.eqb (ch_id c) cid) (challenges db).

Definition Challenge_save (c : Challenge) (db : DB) : option DB :=
  if Challenge_validate c
  then Some (mkDB (userChallenges db) (users db)
                  (map (fun x => if String.eqb (ch_id x) (ch_id c) then c else x) (challenges db))
                  (badges db))
  else None.

(** ** Completion-rate aggregator (updateCompletionRate) *)

(** [Math.max(1, Math.min(daysSinceStart + 1, 30))]. *)
Definition possibleDays (now : Z) (uc : UserChallenge) : Z :=
  Z.max 1 (Z.min (daysSince now (startDate uc) + 1) 30).

Definition totalPossibleCompletions (now : Z) (ucs : list UserChallenge) : Z :=
  fold_left (fun acc uc => acc + possibleDays now uc) ucs 0.

Definition totalActualCompletions (ucs : list UserChallenge) : Z :=
  fold_left (fun acc uc => acc + totalCompletions uc) ucs 0.

(** The value assigned to [challenge.completionRate] before the save. *)
Definition computedCompletionRate (now : Z) (ucs : list UserChallenge) : Z :=
  if (List.length ucs =? 0)%nat then 0
  else
    let possible := totalPossibleCompletions now ucs in
    let actual := totalActualCompletions ucs in
    if possible >? 0
    then match round_percent actual possible with Some r => r | None => 0 end
    else 0.

(** A rejected [challenge.save()] lands in the function's own [catch],
    which only logs: the stored challenge is then left as it was. *)
Definition updateCompletionRate (now : Z) (cid : ObjectId) (db : DB) : DB :=
  match Challenge_findById cid db with
  | None => db
  | Some challenge =>
      let rate := computedCompletionRate now (UserChallenge_find_challenge cid db) in
      match Challenge_save (mkChallenge (ch_id challenge) (category challenge) rate) db with
      | Some db' => db'
      | None => db
      end
  end.

(** ** Badge evaluation engine (checkAndAwardBadges) *)

Record UserStats := mkStats {
  st_totalCompletions : Z;
  st_maxStreak : Z;
  st_totalScore : Z;
  st_totalChallenges : Z;
  st_totalActiveDays : Z;
  st_categoryCompletions : gmap string Z
}.

(** [populate('challengeId', 'category')] followed by
    [category || 'other']; [None] when the challenge is gone. *)
Definition populatedCategory (db : DB) (uc : UserChallenge) : option string :=
  match Challenge_findById (challengeId uc) db with
  | Some c => Some (if String.eqb (category c) "" then "other"%string else category c)
  | None => None
  end.

Definition categoryCompletionsOf (db : DB) (ucs : list UserChallenge) : gmap string Z :=
  fold_left
    (fun (acc : gmap string Z) uc =>
       match populatedCategory db uc with
       | Some cat => <[cat := default 0 (acc !! cat) + totalCompletions uc]> acc
       | None => acc
       end)
    ucs ∅.

Definition userStats (db : DB) (ucs : list UserChallenge) : UserStats :=
  mkStats
    (fold_left (fun sum uc => sum + totalCompletions uc) ucs 0)
    (fold_left Z.max (map maxStreakCount ucs) 0)
    (fold_left (fun sum uc => sum + score uc) ucs 0)
    (Z.of_nat (List.length ucs))
    (fold_left (fun sum uc => sum + Z.of_nat (List.length (completedDates uc))) ucs 0)
    (categoryCompletionsOf db ucs).

(** The [switch] on [badge.condition.type]. *)
Definition conditionMet (s : UserStats) (b : Badge) : bool :=
  match cond_type b with
  | cond_completions => st_totalCompletions s >=? cond_value b
  | cond_streak => st_maxStreak s >=? cond_value b
  | cond_score => st_totalScore s >=? cond_value b
  | cond_challenges => st_totalChallenges s >=? cond_value b
  | cond_days => st_totalActiveDays s >=? cond_value b
  | cond_category_completions =>
      match categoryTarget b with
      | Some target =>
          if String.eqb target "" then false
          else default 0 (st_categoryCompletions s !! target) >=? cond_value b
      | None => false
      end
  end.

(** One iteration of [for (const badge of allBadges)]. *)
Definition awardBadge (s : UserStats) (user : User) (badge : Badge) : User :=
  if existsb (String.eqb (badge_id badge)) (earnedBadges user) then user
  else if conditionMet s badge then
    let reps := representativeBadges user in
    mkUser (user_id user) (grade user) (trustScore user)
      (if Z.of_nat (List.length reps) <? 4
       then reps ++ [mkRep (badge_id badge) (Z.of_nat (List.length reps) + 1)]
       else reps)
      (earnedBadges user ++ [badge_id badge])
  else user.

Definition awardBadges (s : UserStats) (user : User) (catalog : list Badge) : User :=
  fold_left (awardBadge s) catalog user.

(** The first argument as the function reads it: it evaluates
    [req.user!.id], which is the caller's id on an authenticated
    request and a [TypeError] on anything without a [user] property,
    such as a string. *)
Record AuthRequest := mkAuthRequest { auth_user : option ObjectId }.

Inductive JsArg :=
| ArgRequest (req : AuthRequest)
| ArgString (s : string).

(** Every exception ([TypeError], a rejected [user.save()]) is caught
    and logged by the function itself; the store is then unchanged. *)
Definition checkAndAwardBadges (arg : JsArg) (db : DB) : DB :=
  match arg with
  | ArgString _ => db
  | ArgRequest req =>
      match auth_user req with
      | None => db
      | Some uid =>
          match User_findById uid db with
          | None => db
          | Some user =>
              let ucs := UserChallenge_find_user uid db in
              let user' := awardBadges (userStats db ucs) user (badges db) in
              match User_save user' db with
              | Some db' => db'
              | None => db
              end
          end
      end
  end.

(** ** Completion recorder (completeChallenge) *)

Record UploadedFile := mkFile { filename : string }.

(** [req.params.id], [req.user.id] (the route is mounted behind the
    [auth] middleware) and [req.file]. *)
Record CompleteRequest := mkCompleteRequest {
  params_id : ObjectId;
  req_user_id : ObjectId;
  req_file : option UploadedFile
}.

Definition alreadyCompleted (today : Z) (uc : UserChallenge) : bool :=
  existsb (fun date => date =? today) (completedDates uc).

(** Lines 328-354: the pushes, the counters and the streak update. *)
Definition applyCompletion (today : Z) (url : string) (uc : UserChallenge) : UserChallenge :=
  let dates := completedDates uc ++ [today] in
  let completedYesterday := existsb (fun date => date =? dayBefore today) dates in
  let current := if completedYesterday then currentStreakCount uc + 1 else 1 in
  mkUserChallenge (uc_id uc) (userId uc) (challengeId uc)
    dates
    (completionPhotos uc ++ [mkPhoto today url])
    (startDate uc)
    (score uc + 10)
    (totalCompletions uc + 1)
    current
    (if current >? maxStreakCount uc then current else maxStreakCount uc)
    (Some today).

(** Lines 366-375: one base point plus the streak bonus. *)
Definition trustScoreIncreaseFor (currentStreak : Z) : Q :=
  if currentStreak >=? 10 then (1 + 2)%Q
  else if currentStreak >=? 7 then (1 + (3 # 2))%Q
  else if currentStreak >=? 3 then (1 + 1)%Q
  else 1%Q.

(** [Math.min(100, user.trustScore + trustScoreIncrease)]. *)
Definition cappedTrustScore (old increase : Q) : Q := Qmin 100 (old + increase).

(** Lines 393-404. *)
Definition gradeForBadgeCount (badgeCount : Z) : Grade :=
  if badgeCount >=? 40 then diamond
  else if badgeCount >=? 20 then gold
  else if badgeCount >=? 10 then silver
  else bronze.

(** Lines 390-412: the grade is assigned and saved only when it
    changed.  The boolean tells whether [save()] was called; [None] is
    a save rejected by the schema. *)
Definition updateGrade (uid : ObjectId) (db : DB) : option (DB * bool) :=
  match User_findById uid db with
  | None => Some (db, false)
  | Some updatedUser =>
      let newGrade := gradeForBadgeCount (Z.of_nat (List.length (earnedBadges updatedUser))) in
      if Grade_eqb (grade updatedUser) newGrade then Some (db, false)
      else
        match User_save (mkUser (user_id updatedUser) newGrade (trustScore updatedUser)
                           (representativeBadges updatedUser) (earnedBadges updatedUser)) db with
        | Some db' => Some (db', true)
        | None => None
        end
  end.

Record CompletionData := mkCompletionData {
  r_score : Z;
  r_totalCompletions : Z;
  r_currentStreakCount : Z;
  r_maxStreakCount : Z;
  r_completedDate : Z;
  r_photoUrl : string;
  r_trustScore : Q;
  r_trustScoreIncrease : Q;
  r_currentGrade : Grade;
  r_totalBadges : Z
}.

Inductive CompleteResponse :=
| PhotoRequired                      (* 400 *)
| UserChallengeNotFound              (* 404 *)
| AlreadyCompletedToday              (* 400 *)
| ServerError                        (* 500, the outer catch *)
| Completed (data : CompletionData). (* 200 *)

(** Lines 359-383: [None] is a rejected [user.save()]. *)
Definition applyTrustScore (uid : ObjectId) (currentStreak : Z) (db : DB) : option (DB * Q) :=
  match User_findById uid db with
  | None => Some (db, 0%Q)
  | Some user =>
      let trustScoreIncrease := trustScoreIncreaseFor currentStreak in
      match User_save (mkUser (user_id user) (grade user)
                         (cappedTrustScore (trustScore user) trustScoreIncrease)
                         (representativeBadges user) (earnedBadges user)) db with
      | Some db' => Some (db', trustScoreIncrease)
      | None => None
      end
  end.

(** Lines 417-434. *)
Definition completionData (uid : ObjectId) (uc : UserChallenge) (today : Z) (url : string)
    (increase : Q) (db : DB) : CompletionData :=
  let finalUser := User_findById uid db in
  mkCompletionData (score uc) (totalCompletions uc) (currentStreakCount uc)
    (maxStreakCount uc) today url
    (match finalUser with Some u => trustScore u | None => 0%Q end)
    increase
    (match finalUser with Some u => grade u | None => bronze end)
    (match finalUser with Some u => Z.of_nat (List.length (earnedBadges u)) | None => 0 end).

(** The handler.  [now] is the clock read at line 299 and [now'] the
    one read later inside [updateCompletionRate].  The badge engine is
    called with the user id itself (line 387). *)
Definition completeChallenge (now now' : Z) (req : CompleteRequest) (db : DB)
    : DB * CompleteResponse :=
  match req_file req with
  | None => (db, PhotoRequired)
  | Some file =>
      match UserChallenge_findOne (req_user_id req) (params_id req) db with
      | None => (db, UserChallengeNotFound)
      | Some userChallenge =>
          let today := utcMidnight now in
          if alreadyCompleted today userChallenge then (db, AlreadyCompletedToday)
          else
            let url := ("/uploads/completions/" ++ filename file)%string in
            let uc := applyCompletion today url userChallenge in
            let db1 := UserChallenge_save uc db in
            match applyTrustScore (req_user_id req) (currentStreakCount uc) db1 with
            | None => (db1, ServerError)
            | Some (db2, increase) =>
                let db3 := checkAndAwardBadges (ArgString (req_user_id req)) db2 in
                match updateGrade (req_user_id req) db3 with
                | None => (db3, ServerError)
                | Some (db4, _) =>
                    let db5 := updateCompletionRate now' (params_id req) db4 in
                    (db5, Completed (completionData (req_user_id req) uc today url increase db5))
                end
            end
      end
  end.

(** Successive requests of one user on one challenge, one per pair of
    clock readings; the second component counts the requests that were
    answered 200. *)
Fixpoint completeMany (clocks : list (Z * Z)) (req : CompleteRequest) (db : DB) : DB * Z :=
  match clocks with
  | [] => (db, 0)
  | (now, now') :: rest =>
      let (db1, resp) := completeChallenge now now' req db in
      let (db2, n) := completeMany rest req db1 in
      (db2, match resp with Completed _ => n + 1 | _ => n end)
  end.

(** Every stored user passes the validators of its schema, as every
    document written through [save] does. *)
Definition usersValid (db : DB) : Prop :=
  Forall (fun u => User_validate u = true) (users db).

(** ** Ranking service (getChallengeRanking, getMyChallengeRank) *)

Inductive RankingType := ByScore | ByCompletions | ByStreak.

(** [req.query.type || 'score'] followed by the [switch], whose
    [default] branch is the score ranking. *)
Definition rankingTypeOf (query_type : option string) : RankingType :=
  match query_type with
  | Some t =>
      if String.eqb t "completions" then ByCompletions
      else if String.eqb t "streak" then ByStreak
      else ByScore
  | None => ByScore
  end.

(** [parseInt(req.query.x) || dflt]: [None] is [NaN]. *)
Definition queryNumber (q : option Z) (dflt : Z) : Z :=
  match q with
  | Some n => if n =? 0 then dflt else n
  | None => dflt
  end.

(** The keys of [sortField], most significant first, all descending. *)
Definition sortField (t : RankingType) (uc : UserChallenge) : list Z :=
  match t with
  | ByCompletions => [totalCompletions uc; score uc]
  | ByStreak => [maxStreakCount uc; currentStreakCount uc; score uc]
  | ByScore => [score uc; totalCompletions uc]
  end.

Fixpoint compareKeys (a b : list Z) : comparison :=
  match a, b with
  | x :: a', y :: b' =>
      match x ?= y with
      | Eq => compareKeys a' b'
      | c => c
      end
  | _, _ => Eq
  end.

(** [a] may stand before [b] in the descending sort. *)
Definition sortsBefore (t : RankingType) (a b : UserChallenge * User) : bool :=
  match compareKeys (sortField t (fst a)) (sortField t (fst b)) with
  | Lt => false
  | _ => true
  end.

(** [$sort]: documents that tie on every key keep their stored order
    here; MongoDB itself leaves the order of such documents open. *)
Fixpoint sortInsert (t : RankingType) (x : UserChallenge * User)
    (l : list (UserChallenge * User)) : list (UserChallenge * User) :=
  match l with
  | [] => [x]
  | y :: r => if sortsBefore t x y then x :: y :: r else y :: sortInsert t x r
  end.

Definition mongoSort (t : RankingType) (l : list (UserChallenge * User))
    : list (UserChallenge * User) :=
  fold_right (sortInsert t) [] l.

(** [$match] on the challenge, [$lookup] of the user, [$unwind]. *)
Definition joinedRecords (cid : ObjectId) (db : DB) : list (UserChallenge * User) :=
  flat_map
    (fun uc => map (pair uc) (List.filter (fun u => String.eqb (user_id u) (userId uc)) (users db)))
    (UserChallenge_find_challenge cid db).

Record RankedResult := mkRanked {
  rank : Z;
  ranked_userChallenge : UserChallenge;
  ranked_user : User;
  ranked_daysSinceStart : Z
}.

(** [rankings.map((userChallenge, index) => ...)], [index] from [i]. *)
Fixpoint rankResults (now page limit : Z) (i : Z) (l : list (UserChallenge * User))
    : list RankedResult :=
  match l with
  | [] => []
  | x :: r =>
      mkRanked ((page - 1) * limit + i + 1) (fst x) (snd x)
               (daysSince now (startDate (fst x)))
        :: rankResults now page limit (i + 1) r
  end.

Record RankingRequest := mkRankingRequest {
  rk_challengeId : ObjectId;
  rk_page : option Z;
  rk_limit : option Z;
  rk_type : option string
}.

Record RankingData := mkRankingData {
  rankings : list RankedResult;
  rk_totalParticipants : Z
}.

Inductive RankingResponse :=
| RankingInvalidId                   (* 400 *)
| RankingChallengeNotFound           (* 404 *)
| RankingServerError                 (* 500 *)
| RankingOk (data : RankingData).    (* 200 *)

Record MyRankRequest := mkMyRankRequest {
  my_challengeId : ObjectId;
  my_user_id : ObjectId;
  my_type : option string
}.

Record MyRankData := mkMyRankData {
  my_rank : Z;
  my_totalParticipants : Z;
  my_userChallenge : UserChallenge;
  my_percentile : option Z;
  my_value : Z
}.

Inductive MyRankResponse :=
| MyRankInvalidId                    (* 400 *)
| MyRankNotFound                     (* 404 *)
| MyRankOk (data : MyRankData).      (* 200 *)

(** The [$or] of [matchCondition], on a record of the challenge. *)
Definition matchCondition (t : RankingType) (my uc : UserChallenge) : bool :=
  match t with
  | ByCompletions =>
      (totalCompletions uc >? totalCompletions my)
      || ((totalCompletions uc =? totalCompletions my) && (score uc >? score my))
  | ByStreak =>
      (maxStreakCount uc >? maxStreakCount my)
      || ((maxStreakCount uc =? maxStreakCount my)
          && (currentStreakCount uc >? currentStreakCount my))
      || ((maxStreakCount uc =? maxStreakCount my)
          && (currentStreakCount uc =? currentStreakCount my)
          && (score uc >? score my))
  | ByScore =>
      (score uc >? score my)
      || ((score uc =? score my) && (totalCompletions uc >? totalCompletions my))
  end.

Definition myValue (t : RankingType) (my : UserChallenge) : Z :=
  match t with
  | ByCompletions => totalCompletions my
  | ByStreak => maxStreakCount my
  | ByScore => score my
  end.

Section Ranking.

(** [mongoose.Types.ObjectId.isValid], a function of the driver. *)
Variable ObjectId_isValid : string -> bool.

(** A [$skip] below zero or a [$limit] that is not positive is refused
    by the database; the handler's [catch] answers 500. *)
Definition getChallengeRanking (now : Z) (req : RankingRequest) (db : DB) : RankingResponse :=
  let page := queryNumber (rk_page req) 1 in
  let limit := queryNumber (rk_limit req) 20 in
  let rankingType := rankingTypeOf (rk_type req) in
  if negb (ObjectId_isValid (rk_challengeId req)) then RankingInvalidId
  else
    match Challenge_findById (rk_challengeId req) db with
    | None => RankingChallengeNotFound
    | Some _ =>
        if ((page - 1) * limit <? 0) || (limit <=? 0) then RankingServerError
        else
          let sorted := mongoSort rankingType (joinedRecords (rk_challengeId req) db) in
          let page_docs := firstn (Z.to_nat limit) (skipn (Z.to_nat ((page - 1) * limit)) sorted) in
          RankingOk
            (mkRankingData
               (rankResults now page limit 0 page_docs)
               (Z.of_nat (List.length (UserChallenge_find_challenge (rk_challengeId req) db))))
    end.

Definition getMyChallengeRank (req : MyRankRequest) (db : DB) : MyRankResponse :=
  let rankingType := rankingTypeOf (my_type req) in
  if negb (ObjectId_isValid (my_challengeId req)) then MyRankInvalidId
  else
    match UserChallenge_findOne (my_user_id req) (my_challengeId req) db with
    | None => MyRankNotFound
    | Some myUserChallenge =>
        let higherRankCount :=
          Z.of_nat (List.length
            (List.filter (matchCondition rankingType myUserChallenge)
                         (UserChallenge_find_challenge (my_challengeId req) db))) in
        let myRank := higherRankCount + 1 in
        let totalParticipants :=
          Z.of_nat (List.length (UserChallenge_find_challenge (my_challengeId req) db)) in
        MyRankOk
          (mkMyRankData myRank totalParticipants myUserChallenge
             (round_percent (totalParticipants - myRank + 1) totalParticipants)
             (myValue rankingType myUserChallenge))
    end.

End Ranking.

(** ** The claims' own words, for comparison with the code *)

(** The three keys of a metric: primary, first tie-break and, for the
    streak metric only, a second tie-break. *)
Definition primaryKey (t : RankingType) (uc : UserChallenge) : Z :=
  match t with
  | ByScore => score uc
  | ByCompletions => totalCompletions uc
  | ByStreak => maxStreakCount uc
  end.

Definition firstTieBreak (t : RankingType) (uc : UserChallenge) : Z :=
  match t with
  | ByScore => totalCompletions uc
  | ByCompletions => score uc
  | ByStreak => currentStreakCount uc
  end.

Definition secondTieBreak (t : RankingType) (uc : UserChallenge) : option Z :=
  match t with
  | ByStreak => Some (score uc)
  | _ => None
  end.

(** "Strictly greater on the primary key, or equal on the primary and
    strictly greater on the first tie-break, or equal on both and
    strictly greater on the second tie-break." *)
Definition strictlyPrecedes (t : RankingType) (uc my : UserChallenge) : Prop :=
  primaryKey t uc > primaryKey t my
  \/ (primaryKey t uc = primaryKey t my /\ firstTieBreak t uc > firstTieBreak t my)
  \/ (primaryKey t uc = primaryKey t my /\ firstTieBreak t uc = firstTieBreak t my
      /\ exists k k', secondTieBreak t uc = Some k /\ secondTieBreak t my = Some k' /\ k > k').

(** "The sum over the records of ...". *)
Definition sumOver {A} (f : A -> Z) (l : list A) : Z := fold_right Z.add 0 (map f l).

(** A descending sort by the metric's keys admits [a] before [b] when
    [b] does not strictly precede [a]. *)
Definition orderedBefore (t : RankingType) (a b : UserChallenge * User) : Prop :=
  ~ strictlyPrecedes t (fst b) (fst a).

(** The aggregate a badge condition is compared with. *)
Definition matchingAggregate (s : UserStats) (b : Badge) : Z :=
  match cond_type b with
  | cond_completions => st_totalCompletions s
  | cond_streak => st_maxStreak s
  | cond_score => st_totalScore s
  | cond_challenges => st_totalChallenges s
  | cond_days => st_totalActiveDays s
  | cond_category_completions =>
      match categoryTarget b with
      | Some target => default 0 (st_categoryCompletions s !! target)
      | None => 0
      end
  end.

(** ** Concrete stores used by the examples *)

Module Examples.

Definition day (n : Z) : Z := n * msPerDay.
Definition hour (n : Z) : Z := n * (1000 * 60 * 60).

Definition photo : UploadedFile := mkFile "completion_1-1.jpg".
Definition request : CompleteRequest := mkCompleteRequest "c1" "u1" (Some photo).

Definition newUser : User := mkUser "u1" bronze 0 [] [].
Definition health : Challenge := mkChallenge "c1" "health" 0.

(** A record as [joinChallenge] creates it. *)
Definition joined (start : Z) : UserChallenge :=
  mkUserChallenge "uc1" "u1" "c1" [] [] start 0 0 0 0 None.

(** Four completions on four consecutive days, and a catalog with the
    badge "five completions". *)
Definition fourDone : UserChallenge :=
  mkUserChallenge "uc1" "u1" "c1"
    [day 20000; day 20001; day 20002; day 20003]
    [mkPhoto (day 20000) "/uploads/completions/a.jpg";
     mkPhoto (day 20001) "/uploads/completions/b.jpg";
     mkPhoto (day 20002) "/uploads/completions/c.jpg";
     mkPhoto (day 20003) "/uploads/completions/d.jpg"]
    (day 20000 + hour 9) 40 4 4 4 (Some (day 20003)).

Definition fiveCompletions : Badge := mkBadge "b5" cond_completions 5 None.

Definition storeBeforeFifth : DB :=
  mkDB [fourDone] [newUser] [health] [fiveCompletions].


(** A user who earned one badge and shows it in slot 2, as
    [updateRepresentativeBadges] accepts, and a second badge whose
    condition the user meets. *)
Definition firstCompletion : Badge := mkBadge "b1" cond_completions 1 None.
Definition secondCompletion : Badge := mkBadge "b2" cond_completions 2 None.

Definition slotTwoUser : User := mkUser "u1" bronze 2 [mkRep "b1" 2] ["b1"%string].

Definition twoDone : UserChallenge :=
  mkUserChallenge "uc1" "u1" "c1"
    [day 20000; day 20001]
    [mkPhoto (day 20000) "/uploads/completions/a.jpg";
     mkPhoto (day 20001) "/uploads/completions/b.jpg"]
    (day 20000 + hour 9) 20 2 2 2 (Some (day 20001)).

Definition storeSlotTwo : DB :=
  mkDB [twoDone] [slotTwoUser] [health] [firstCompletion; secondCompletion].

(** [n] participants of challenge "c1"; participant [i] (from 1) has
    score [10 * (n + 1 - i)], so exactly [i - 1] records stand above. *)
Definition participantId (i : nat) : ObjectId :=
  String "u" (String (ascii_of_nat i) EmptyString).

Definition participant (n i : nat) : UserChallenge :=
  mkUserChallenge (participantId i) (participantId i) "c1" [] [] (day 20000)
    (10 * (Z.of_nat n + 1 - Z.of_nat i)) 0 0 0 None.

Definition participants (n : nat) : DB :=
  mkDB (map (participant n) (seq 1 n)) [] [health] [].

(** Two participants with the same score and different numbers of
    completions. *)
Definition leaderboard : DB :=
  mkDB [mkUserChallenge "ra" "ua" "c1" [] [] (day 20000) 30 2 1 1 None;
        mkUserChallenge "rb" "ub" "c1" [] [] (day 20000) 30 3 1 2 None]
       [mkUser "ua" bronze 0 [] []; mkUser "ub" silver 0 [] []]
       [health] [].

Definition anyId (_ : string) : bool := true.

(** The pairs [(a, b)] with [1 <= b <= n] and [1 <= a <= 3 * b]. *)
Definition ratioGrid (n : nat) : list (Z * Z) :=
  flat_map (fun b => map (fun a => (Z.of_nat a, Z.of_nat b)) (seq 1 (3 * b))) (seq 1 n).

End Examples.
Import Examples.

(** * Further operations of the controllers *)

(** ** Well-formed progress records *)

(** The newest entry of [completedDates]. *)
Definition lastDate (dates : list Z) : option Z := List.last (map Some dates) None.

(** The number of entries at the head of a newest-first history that
    step back one day at a time from [d]. *)
Fixpoint runFrom (d : Z) (newestFirst : list Z) : Z :=
  match newestFirst with
  | x :: older => if x =? d then 1 + runFrom (d - msPerDay) older else 0
  | [] => 0
  end.

(** The length of the trailing run of consecutive days of a history. *)
Definition trailingRun (dates : list Z) : Z :=
  match rev dates with
  | [] => 0
  | newest :: older => runFrom newest (newest :: older)
  end.

(** The relations between the fields of a record that [joinChallenge]
    establishes and the completion recorder maintains. *)
Definition recordConsistent (uc : UserChallenge) : Prop :=
  totalCompletions uc = Z.of_nat (List.length (completedDates uc))
  /\ map photo_date (completionPhotos uc) = completedDates uc
  /\ score uc = 10 * totalCompletions uc
  /\ 0 <= currentStreakCount uc <= maxStreakCount uc
  /\ maxStreakCount uc <= totalCompletions uc
  /\ Forall (fun d => d mod msPerDay = 0) (completedDates uc)
  /\ List.NoDup (completedDates uc)
  /\ lastCompletionDate uc = lastDate (completedDates uc).

(** A history in strictly increasing order whose streak counter is the
    length of its trailing run of consecutive days. *)
Definition streakExact (uc : UserChallenge) : Prop :=
  StronglySorted Z.lt (completedDates uc)
  /\ Forall (fun d => d mod msPerDay = 0) (completedDates uc)
  /\ currentStreakCount uc = trailingRun (completedDates uc).

(** Two states of a collection that differ at most in the documents
    with the given id. *)
Definition sameExcept {A} (key : A -> ObjectId) (id : ObjectId) (l l' : list A) : Prop :=
  Forall2 (fun x y => x = y \/ (key x = id /\ key y = id)) l l'.

(** ** getTodayCompletableChallenges *)

(** The date part of [toISOString()], as the number of the UTC day: two
    instants have the same date part exactly when they fall on the same
    UTC day. *)
Definition isoDate (t : Z) : Z := t / msPerDay.

(** The records of the caller that hold no completion dated today. *)
Definition getTodayCompletableChallenges (now : Z) (uid : ObjectId) (db : DB)
    : list UserChallenge :=
  List.filter
    (fun uc => negb (existsb (fun date => isoDate date =? isoDate now) (completedDates uc)))
    (UserChallenge_find_user uid db).

(** ** getUserStats *)

(** The integer fields of the statistics; the two averages are
    floating-point quotients and are left out. *)
Record StatsData := mkStatsData {
  stats_totalChallenges : Z;
  stats_totalScore : Z;
  stats_totalCompletions : Z;
  stats_maxStreakCount : Z;
  stats_currentActiveStreaks : Z
}.

(** [Math.max(...xs)] without a floor, for a list that is not empty. *)
Definition maxOf (xs : list Z) : Z :=
  match xs with
  | [] => 0
  | x :: r => fold_left Z.max r x
  end.

Definition getUserStats (uid : ObjectId) (db : DB) : StatsData :=
  let userChallenges := UserChallenge_find_user uid db in
  if (List.length userChallenges =? 0)%nat then mkStatsData 0 0 0 0 0
  else
    mkStatsData
      (Z.of_nat (List.length userChallenges))
      (fold_left (fun sum uc => sum + score uc) userChallenges 0)
      (fold_left (fun sum uc => sum + totalCompletions uc) userChallenges 0)
      (maxOf (map maxStreakCount userChallenges))
      (fold_left (fun sum uc => sum + currentStreakCount uc) userChallenges 0).

(** ** Representative badges (updateRepresentativeBadges, getUserBadges) *)

(** One entry of [req.body.badges], with a string id and a whole
    number as order. *)
Record BadgeInput := mkBadgeInput { in_badgeId : string; in_order : Z }.

(** A representative badge after [populate('representativeBadges.badgeId')]:
    the badge document, or [null] when the catalogue has none. *)
Record BadgeSlot := mkSlot { slot_badge : option Badge; slot_order : Z }.

Inductive RepresentativeResponse :=
| RepInvalidArray                          (* 400 *)
| RepInvalidOrder                          (* 400 *)
| RepInvalidId                             (* 400 *)
| RepUserNotFound                          (* 404 *)
| RepNotEarned (ids : list string)         (* 400 *)
| RepServerError                           (* 500 *)
| RepUpdated (slots : list BadgeSlot).     (* 200 *)

Definition Badge_findById (id : ObjectId) (db : DB) : option Badge :=
  find (fun b => String.eqb (badge_id b) id) (badges db).

(** [sort((a, b) => a.order - b.order)], which is stable. *)
Fixpoint insertByOrder (r : RepresentativeBadge) (l : list RepresentativeBadge)
    : list RepresentativeBadge :=
  match l with
  | [] => [r]
  | x :: rest => if order r <=? order x then r :: x :: rest else x :: insertByOrder r rest
  end.

Definition sortByOrder (l : list RepresentativeBadge) : list RepresentativeBadge :=
  fold_right insertByOrder [] l.

Definition populateSlot (db : DB) (r : RepresentativeBadge) : BadgeSlot :=
  mkSlot (Badge_findById (rep_badgeId r) db) (order r).

(** [populate('earnedBadges')]: the documents in the order of the ids;
    an id without a document is dropped from the array. *)
Definition populateEarned (db : DB) (ids : list ObjectId) : list Badge :=
  flat_map (fun id => match Badge_findById id db with Some b => [b] | None => [] end) ids.

Section BadgeApi.

Variable ObjectId_isValid : string -> bool.

(** [body] is [None] when [req.body.badges] is not an array. *)
Definition updateRepresentativeBadges (uid : ObjectId) (body : option (list BadgeInput))
    (db : DB) : DB * RepresentativeResponse :=
  match body with
  | None => (db, RepInvalidArray)
  | Some badges =>
      if Z.of_nat (List.length badges) >? 4 then (db, RepInvalidArray)
      else
        let orders := map in_order badges in
        if negb (distinct orders) || existsb (fun o => (o <? 1) || (o >? 4)) orders
        then (db, RepInvalidOrder)
        else
          let invalidBadgeIds :=
            List.filter (fun b => negb (ObjectId_isValid (in_badgeId b))) badges in
          if Z.of_nat (List.length invalidBadgeIds) >? 0 then (db, RepInvalidId)
          else
            match User_findById uid db with
            | None => (db, RepUserNotFound)
            | Some user =>
                let notEarnedBadges :=
                  List.filter
                    (fun badge => negb (existsb (String.eqb (in_badgeId badge)) (earnedBadges user)))
                    badges in
                if Z.of_nat (List.length notEarnedBadges) >? 0
                then (db, RepNotEarned (map in_badgeId notEarnedBadges))
                else
                  let user' :=
                    mkUser (user_id user) (grade user) (trustScore user)
                      (map (fun b => mkRep (in_badgeId b) (in_order b)) badges)
                      (earnedBadges user) in
                  match User_save user' db with
                  | None => (db, RepServerError)
                  | Some db' =>
                      match User_findById uid db' with
                      | None => (db', RepServerError)
                      | Some updatedUser =>
                          (db', RepUpdated
                                  (map (populateSlot db')
                                     (sortByOrder (representativeBadges updatedUser))))
                      end
                  end
            end
  end.

End BadgeApi.

Record UserBadgesData := mkUserBadges {
  ub_representativeBadges : list BadgeSlot;
  ub_earnedBadges : list Badge;
  ub_totalEarned : Z;
  ub_representativeCount : Z
}.

(** [None] is the answer 404. *)
Definition getUserBadges (uid : ObjectId) (db : DB) : option UserBadgesData :=
  match User_findById uid db with
  | None => None
  | Some user =>
      let earned := populateEarned db (earnedBadges user) in
      Some (mkUserBadges
              (map (populateSlot db) (sortByOrder (representativeBadges user)))
              earned
              (Z.of_nat (List.length earned))
              (Z.of_nat (List.length (representativeBadges user))))
  end.


(** Every representative badge of a user is one of the earned ones. *)
Definition representativesEarned (u : User) : Prop :=
  forall r, In r (representativeBadges u) -> In (rep_badgeId r) (earnedBadges u).

(** ** Membership (joinChallenge, leaveChallenge) *)

Record Participant := mkParticipant { p_userId : ObjectId; joinedAt : Z }.

(** A challenge document with the fields that joining and leaving read
    and write, beside those of [Challenge]. *)
Record ChallengeDoc := mkChallengeDoc {
  doc_challenge : Challenge;
  doc_participants : list Participant;
  maxParticipants : Z;
  userInfo : list ObjectId
}.

Record Store := mkStore {
  st_userChallenges : list UserChallenge;
  st_users : list User;
  st_challenges : list ChallengeDoc;
  st_badges : list Badge
}.

Definition doc_id (d : ChallengeDoc) : ObjectId := ch_id (doc_challenge d).

(** The store as the completion recorder, the badge engine and the
    ranking service read it. *)
Definition dbOf (s : Store) : DB :=
  mkDB (st_userChallenges s) (st_users s) (map doc_challenge (st_challenges s)) (st_badges s).

(** models/Challenge.ts: [completionRate] between 0 and 100 and
    [maxParticipants] at least 1. *)
Definition ChallengeDoc_validate (d : ChallengeDoc) : bool :=
  Challenge_validate (doc_challenge d) && (1 <=? maxParticipants d).

Definition ChallengeDoc_findById (cid : ObjectId) (s : Store) : option ChallengeDoc :=
  find (fun d => String.eqb (doc_id d) cid) (st_challenges s).

Definition ChallengeDoc_save (d : ChallengeDoc) (s : Store) : option Store :=
  if ChallengeDoc_validate d
  then Some (mkStore (st_userChallenges s) (st_users s)
               (map (fun x => if String.eqb (doc_id x) (doc_id d) then d else x) (st_challenges s))
               (st_badges s))
  else None.

(** [save()] of a new progress record: an insert, refused (E11000) when
    the [_id] is taken or the unique index on the pair
    (userId, challengeId) already holds the pair. *)
Definition UserChallenge_insert (uc : UserChallenge) (s : Store) : option Store :=
  if existsb (fun x => String.eqb (uc_id x) (uc_id uc)) (st_userChallenges s)
     || existsb (fun x => String.eqb (userId x) (userId uc)
                          && String.eqb (challengeId x) (challengeId uc))
          (st_userChallenges s)
  then None
  else Some (mkStore (st_userChallenges s ++ [uc]) (st_users s) (st_challenges s) (st_badges s)).

(** [findOneAndDelete]: the first match is removed. *)
Fixpoint deleteFirst (p : UserChallenge -> bool) (l : list UserChallenge) : list UserChallenge :=
  match l with
  | [] => []
  | x :: r => if p x then r else x :: deleteFirst p r
  end.

(** [updateCompletionRate] on the full challenge document. *)
Definition updateCompletionRate_store (now : Z) (cid : ObjectId) (s : Store) : Store :=
  match ChallengeDoc_findById cid s with
  | None => s
  | Some challenge =>
      let rate := computedCompletionRate now (UserChallenge_find_challenge cid (dbOf s)) in
      let c := doc_challenge challenge in
      match ChallengeDoc_save
              (mkChallengeDoc (mkChallenge (ch_id c) (category c) rate)
                 (doc_participants challenge) (maxParticipants challenge) (userInfo challenge))
              s with
      | Some s' => s'
      | None => s
      end
  end.

Inductive JoinResponse :=
| JoinChallengeNotFound                  (* 404 *)
| JoinAlreadyJoined                      (* 400 *)
| JoinFull                               (* 400 *)
| JoinServerError                        (* 500 *)
| Joined (userChallengeId : ObjectId).   (* 200 *)

(** The record that [new UserChallenge({userId, challengeId, startDate})]
    builds from the defaults of the schema. *)
Definition newUserChallenge (id uid cid : ObjectId) (start : Z) : UserChallenge :=
  mkUserChallenge id uid cid [] [] start 0 0 0 0 None.

(** [startAt] and [joinAt] are the two clock readings of the handler,
    [rateAt] the one inside [updateCompletionRate]; [freshId] is the
    [_id] that the driver generates for the new record. *)
Definition joinChallenge (startAt joinAt rateAt : Z) (freshId : ObjectId)
    (cid uid : ObjectId) (s : Store) : Store * JoinResponse :=
  match ChallengeDoc_findById cid s with
  | None => (s, JoinChallengeNotFound)
  | Some challenge =>
      let isAlreadyJoined :=
        existsb (fun participant => String.eqb (p_userId participant) uid)
          (doc_participants challenge) in
      if isAlreadyJoined then (s, JoinAlreadyJoined)
      else if Z.of_nat (List.length (doc_participants challenge)) >=? maxParticipants challenge
      then (s, JoinFull)
      else
        let userChallenge := newUserChallenge freshId uid cid startAt in
        match UserChallenge_insert userChallenge s with
        | None => (s, JoinServerError)
        | Some s1 =>
            match ChallengeDoc_save
                    (mkChallengeDoc (doc_challenge challenge)
                       (doc_participants challenge ++ [mkParticipant uid joinAt])
                       (maxParticipants challenge)
                       (userInfo challenge ++ [freshId]))
                    s1 with
            | None => (s1, JoinServerError)
            | Some s2 => (updateCompletionRate_store rateAt cid s2, Joined freshId)
            end
        end
  end.

Inductive LeaveResponse :=
| LeaveChallengeNotFound                 (* 404 *)
| LeaveUserChallengeNotFound             (* 404 *)
| LeaveServerError                       (* 500 *)
| LeftChallenge.                         (* 200 *)

Definition leaveChallenge (cid uid : ObjectId) (s : Store) : Store * LeaveResponse :=
  match ChallengeDoc_findById cid s with
  | None => (s, LeaveChallengeNotFound)
  | Some challenge =>
      let challenge1 :=
        mkChallengeDoc (doc_challenge challenge)
          (List.filter (fun participant => negb (String.eqb (p_userId participant) uid))
             (doc_participants challenge))
          (maxParticipants challenge) (userInfo challenge) in
      match ChallengeDoc_save challenge1 s with
      | None => (s, LeaveServerError)
      | Some s1 =>
          match UserChallenge_findOne uid cid (dbOf s1) with
          | None => (s1, LeaveUserChallengeNotFound)
          | Some userChallenge =>
              let challenge2 :=
                mkChallengeDoc (doc_challenge challenge1) (doc_participants challenge1)
                  (maxParticipants challenge1)
                  (List.filter (fun info => negb (String.eqb info (uc_id userChallenge)))
                     (userInfo challenge1)) in
              match ChallengeDoc_save challenge2 s1 with
              | None => (s1, LeaveServerError)
              | Some s2 =>
                  (mkStore
                     (deleteFirst (fun uc => String.eqb (userId uc) uid
                                             && String.eqb (challengeId uc) cid)
                        (st_userChallenges s2))
                     (st_users s2) (st_challenges s2) (st_badges s2),
                   LeftChallenge)
              end
          end
      end
  end.

(** No challenge holds more participants than [maxParticipants]. *)
Definition capacityRespected (s : Store) : Prop :=
  Forall (fun d => Z.of_nat (List.length (doc_participants d)) <= maxParticipants d)
    (st_challenges s).

(** A challenge document against the progress records: it passes the
    schema, and its [participants] and [userInfo] list the users and the
    ids of the records of the challenge, in stored order. *)
Definition docConsistent (records : list UserChallenge) (d : ChallengeDoc) : Prop :=
  let mine := List.filter (fun uc => String.eqb (challengeId uc) (doc_id d)) records in
  ChallengeDoc_validate d = true
  /\ map p_userId (doc_participants d) = map userId mine
  /\ userInfo d = map uc_id mine.

(** The keys that the database keeps unique ([_id] of both collections
    and the index on the pair (userId, challengeId)), and the agreement
    of every challenge with the progress records. *)
Definition storeConsistent (s : Store) : Prop :=
  List.NoDup (map uc_id (st_userChallenges s))
  /\ List.NoDup (map (fun uc => (userId uc, challengeId uc)) (st_userChallenges s))
  /\ List.NoDup (map doc_id (st_challenges s))
  /\ Forall (docConsistent (st_userChallenges s)) (st_challenges s).

(** What joining and leaving may change in a challenge document. *)
Definition membersOf (d : ChallengeDoc)
    : ObjectId * list Participant * Z * list ObjectId :=
  (doc_id d, doc_participants d, maxParticipants d, userInfo d).

Module Scenarios.

(** Challenge "c1" with room for ten and one participant, "u1". *)
Definition club : Store :=
  mkStore [fourDone] [newUser]
    [mkChallengeDoc health [mkParticipant "u1" (day 20000 + hour 9)] 10 ["uc1"%string]]
    [fiveCompletions].

End Scenarios.
Import Scenarios.

Module RankScenario.

(** Participant "u1" with a streak of three days up to day 20002, and
    participant "u2" with a streak of three, a gap, and then two. *)
Definition steady : UserChallenge :=
  mkUserChallenge "r1" "u1" "c1"
    [day 20000; day 20001; day 20002]
    [mkPhoto (day 20000) "/uploads/completions/a.jpg";
     mkPhoto (day 20001) "/uploads/completions/b.jpg";
     mkPhoto (day 20002) "/uploads/completions/c.jpg"]
    (day 20000) 30 3 3 3 (Some (day 20002)).

Definition restarted : UserChallenge :=
  mkUserChallenge "r2" "u2" "c1"
    [day 19996; day 19997; day 19998; day 20001; day 20002]
    [mkPhoto (day 19996) "/uploads/completions/d.jpg";
     mkPhoto (day 19997) "/uploads/completions/e.jpg";
     mkPhoto (day 19998) "/uploads/completions/f.jpg";
     mkPhoto (day 20001) "/uploads/completions/g.jpg";
     mkPhoto (day 20002) "/uploads/completions/h.jpg"]
    (day 19996) 50 5 2 3 (Some (day 20002)).

Definition streakBoard : DB :=
  mkDB [steady; restarted] [newUser; mkUser "u2" bronze 0 [] []] [health] [].

End RankScenario.
Import RankScenario.

(** * Properties *)

(** ** The collections *)

Section Collections.

Context {A : Type} (key : A -> string).

Lemma find_replace_same (p : A -> bool) (d d' : A) (l : list A) :
  find p l = Some d -> key d' = key d -> p d' = true ->
  find p (map (fun x => if String.eqb (key x) (key d') then d' else x) l) = Some d'.
Proof.
  intros Hfind Hkey Hp.
  induction l as [|x l IH]; simpl in *; [discriminate|].
  destruct (String.eqb (key x) (key d')) eqn:Hx.
  - now rewrite Hp.
  - destruct (p x) eqn:Hpx.
    + injection Hfind as ->. rewrite Hkey, String.eqb_refl in Hx. discriminate.
    + auto.
Qed.

Lemma Forall_replace (P : A -> Prop) (d' : A) (l : list A) :
  Forall P l -> P d' ->
  Forall P (map (fun x => if String.eqb (key x) (key d') then d' else x) l).
Proof.
  intros Hl Hd. induction Hl as [|x l Hx _ IH]; simpl; constructor; auto.
  now destruct (String.eqb (key x) (key d')).
Qed.

End Collections.

Lemma findById_valid uid db u :
  usersValid db -> User_findById uid db = Some u -> User_validate u = true.
Proof.
  unfold usersValid, User_findById. intros Hv Hf.
  apply find_some in Hf as [Hin _].
  rewrite List.Forall_forall in Hv. now apply Hv.
Qed.

Lemma User_save_valid u db :
  usersValid db -> User_validate u = true ->
  exists db', User_save u db = Some db'
    /\ userChallenges db' = userChallenges db
    /\ challenges db' = challenges db
    /\ badges db' = badges db
    /\ usersValid db'.
Proof.
  intros Hv Hu. unfold User_save. rewrite Hu.
  eexists; repeat split; simpl.
  unfold usersValid; simpl. now apply (Forall_replace user_id).
Qed.

Lemma applyTrustScore_ok uid streak db :
  usersValid db ->
  exists db' inc, applyTrustScore uid streak db = Some (db', inc)
    /\ userChallenges db' = userChallenges db
    /\ challenges db' = challenges db
    /\ badges db' = badges db
    /\ usersValid db'.
Proof.
  intros Hv. unfold applyTrustScore.
  destruct (User_findById uid db) as [user|] eqn:Hf.
  - pose proof (findById_valid _ _ _ Hv Hf) as Hu.
    destruct (User_save_valid
                (mkUser (user_id user) (grade user)
                   (cappedTrustScore (trustScore user) (trustScoreIncreaseFor streak))
                   (representativeBadges user) (earnedBadges user)) db Hv Hu)
      as (db' & -> & ?); eauto.
  - eauto 10.
Qed.

Lemma updateGrade_ok uid db :
  usersValid db ->
  exists db' saved, updateGrade uid db = Some (db', saved)
    /\ userChallenges db' = userChallenges db
    /\ challenges db' = challenges db
    /\ badges db' = badges db
    /\ usersValid db'.
Proof.
  intros Hv. unfold updateGrade.
  destruct (User_findById uid db) as [user|] eqn:Hf; [|eauto 10].
  destruct (Grade_eqb _ _); [eauto 10|].
  pose proof (findById_valid _ _ _ Hv Hf) as Hu.
  match goal with |- context [User_save ?u db] =>
    destruct (User_save_valid u db Hv Hu) as (db' & -> & ?) end.
  eauto.
Qed.

Lemma updateCompletionRate_frame now cid db :
  userChallenges (updateCompletionRate now cid db) = userChallenges db
  /\ users (updateCompletionRate now cid db) = users db
  /\ badges (updateCompletionRate now cid db) = badges db.
Proof.
  unfold updateCompletionRate.
  destruct (Challenge_findById cid db); [|auto].
  unfold Challenge_save. destruct (Challenge_validate _); auto.
Qed.

Lemma alreadyCompleted_In today uc :
  alreadyCompleted today uc = true <-> In today (completedDates uc).
Proof.
  unfold alreadyCompleted. rewrite existsb_exists. split.
  - intros (d & Hin & Heq). apply Z.eqb_eq in Heq. now subst.
  - intros Hin. exists today. split; [assumption | apply Z.eqb_refl].
Qed.

(** ** Completion recorder *)

(** What one request does to the store, given the photo, the record and
    valid stored users: nothing when today is already recorded, and
    otherwise the record is replaced by [applyCompletion] of it. *)
Lemma completeChallenge_step now now' req db file uc :
  req_file req = Some file ->
  UserChallenge_findOne (req_user_id req) (params_id req) db = Some uc ->
  usersValid db ->
  let today := utcMidnight now in
  let url := ("/uploads/completions/" ++ filename file)%string in
  (In today (completedDates uc)
   /\ completeChallenge now now' req db = (db, AlreadyCompletedToday))
  \/ (~ In today (completedDates uc)
      /\ exists db' data,
           completeChallenge now now' req db = (db', Completed data)
           /\ UserChallenge_findOne (req_user_id req) (params_id req) db'
              = Some (applyCompletion today url uc)
           /\ usersValid db'
           /\ r_score data = score uc + 10
           /\ r_totalCompletions data = totalCompletions uc + 1).
Proof.
  intros Hfile Hfind Hv today url.
  unfold completeChallenge. rewrite Hfile, Hfind. fold today.
  destruct (alreadyCompleted today uc) eqn:Hdone.
  - left. split; [now apply alreadyCompleted_In | reflexivity].
  - right. split.
    { intros Hin. apply alreadyCompleted_In in Hin. congruence. }
    fold url. set (uc' := applyCompletion today url uc).
    set (db1 := UserChallenge_save uc' db).
    assert (Hv1 : usersValid db1) by exact Hv.
    destruct (applyTrustScore_ok (req_user_id req) (currentStreakCount uc') db1 Hv1)
      as (db2 & inc & -> & Huc2 & _ & _ & Hv2).
    cbn [checkAndAwardBadges].
    destruct (updateGrade_ok (req_user_id req) db2 Hv2)
      as (db4 & saved & -> & Huc4 & _ & _ & Hv4).
    destruct (updateCompletionRate_frame now' (params_id req) db4) as (Huc5 & Hu5 & _).
    eexists _, _. split; [reflexivity|]. repeat split.
    + unfold UserChallenge_findOne. rewrite Huc5, Huc4, Huc2. unfold db1; simpl.
      unfold UserChallenge_findOne in Hfind.
      pose proof (find_some _ _ Hfind) as [_ Hp].
      exact (find_replace_same uc_id _ uc uc' _ Hfind eq_refl Hp).
    + unfold usersValid. rewrite Hu5. exact Hv4.
Qed.




(** *** Streaks *)


Lemma completedYesterday_In today uc :
  existsb (fun date => date =? dayBefore today) (completedDates uc ++ [today]) = true
  <-> In (today - msPerDay) (completedDates uc).
Proof.
  rewrite existsb_exists. unfold dayBefore. split.
  - intros (d & Hin & Heq). apply Z.eqb_eq in Heq. subst d.
    apply in_app_or in Hin as [Hin | [Hin | []]]; [assumption|].
    unfold msPerDay in Hin. lia.
  - intros Hin. exists (today - msPerDay). split; [|apply Z.eqb_refl].
    apply in_or_app. now left.
Qed.

Lemma applyCompletion_streak today url uc :
  let uc' := applyCompletion today url uc in
  (In (today - msPerDay) (completedDates uc) ->
     currentStreakCount uc' = currentStreakCount uc + 1)
  /\ (~ In (today - msPerDay) (completedDates uc) -> currentStreakCount uc' = 1)
  /\ maxStreakCount uc' = Z.max (maxStreakCount uc) (currentStreakCount uc').
Proof.
  cbn zeta. unfold applyCompletion; simpl.
  pose proof (completedYesterday_In today uc) as Hy.
  destruct (existsb _ (completedDates uc ++ [today])).
  - repeat split; [intros H; exfalso; apply H, Hy; reflexivity|].
    destruct (Z.gtb_spec (currentStreakCount uc + 1) (maxStreakCount uc)); lia.
  - repeat split; [intros H; apply Hy in H; discriminate|].
    destruct (Z.gtb_spec 1 (maxStreakCount uc)); lia.
Qed.



(** *** Trust score and grade *)

Lemma findById_same_id uid db u :
  User_findById uid db = Some u -> String.eqb (user_id u) uid = true.
Proof. intros H. now apply find_some in H. Qed.

Lemma User_save_found uid db u u' :
  usersValid db ->
  User_findById uid db = Some u ->
  user_id u' = user_id u ->
  representativeBadges u' = representativeBadges u ->
  exists db', User_save u' db = Some db'
    /\ User_findById uid db' = Some u'
    /\ userChallenges db' = userChallenges db
    /\ challenges db' = challenges db
    /\ badges db' = badges db
    /\ usersValid db'.
Proof.
  intros Hv Hf Hid Hreps.
  assert (Hu' : User_validate u' = true).
  { pose proof (findById_valid _ _ _ Hv Hf) as Hu.
    unfold User_validate in *. now rewrite Hreps. }
  destruct (User_save_valid u' db Hv Hu') as (db' & Hsave & Huc & Hch & Hb & Hv').
  exists db'. repeat split; try assumption.
  unfold User_save in Hsave. rewrite Hu' in Hsave. injection Hsave as <-.
  unfold User_findById in *; simpl.
  apply (find_replace_same user_id) with (d := u); auto.
  rewrite Hid. now apply find_some in Hf.
Qed.

Lemma applyTrustScore_found uid streak db user :
  usersValid db ->
  User_findById uid db = Some user ->
  exists db' user',
    applyTrustScore uid streak db = Some (db', trustScoreIncreaseFor streak)
    /\ User_findById uid db' = Some user'
    /\ trustScore user' = cappedTrustScore (trustScore user) (trustScoreIncreaseFor streak)
    /\ earnedBadges user' = earnedBadges user
    /\ grade user' = grade user
    /\ userChallenges db' = userChallenges db
    /\ usersValid db'.
Proof.
  intros Hv Hf. unfold applyTrustScore. rewrite Hf.
  match goal with |- context [User_save ?u db] =>
    destruct (User_save_found uid db user u Hv Hf eq_refl eq_refl)
      as (db' & -> & Hf' & Huc & _ & _ & Hv'); exists db', u end.
  repeat split; assumption.
Qed.

Lemma updateGrade_found uid db u :
  usersValid db ->
  User_findById uid db = Some u ->
  let newGrade := gradeForBadgeCount (Z.of_nat (List.length (earnedBadges u))) in
  exists db' saved u',
    updateGrade uid db = Some (db', saved)
    /\ (saved = true <-> grade u <> newGrade)
    /\ (saved = false -> db' = db)
    /\ User_findById uid db' = Some u'
    /\ grade u' = newGrade
    /\ trustScore u' = trustScore u
    /\ earnedBadges u' = earnedBadges u
    /\ userChallenges db' = userChallenges db
    /\ usersValid db'.
Proof.
  intros Hv Hf newGrade. unfold updateGrade. rewrite Hf. fold newGrade.
  destruct (Grade_eqb (grade u) newGrade) eqn:Heq.
  - exists db, false, u. repeat split; try assumption; try discriminate.
    + intros Hne. exfalso. apply Hne. destruct (grade u), newGrade; (reflexivity || discriminate).
    + destruct (grade u), newGrade; (reflexivity || discriminate).
  - match goal with |- context [User_save ?u' db] =>
      destruct (User_save_found uid db u u' Hv Hf eq_refl eq_refl)
        as (db' & -> & Hf' & Huc & _ & _ & Hv'); exists db', true, u' end.
    repeat split; try assumption; try discriminate.
    intros _ Hsame. rewrite Hsame in Heq. destruct newGrade; discriminate.
Qed.

(** A successful request seen from the user document: the trust score
    is capped, the grade follows the number of earned badges, and the
    earned badges are the ones stored before the request. *)
Lemma completeChallenge_user now now' req db file uc user :
  req_file req = Some file ->
  UserChallenge_findOne (req_user_id req) (params_id req) db = Some uc ->
  usersValid db ->
  ~ In (utcMidnight now) (completedDates uc) ->
  User_findById (req_user_id req) db = Some user ->
  let uc' := applyCompletion (utcMidnight now)
               ("/uploads/completions/" ++ filename file)%string uc in
  exists db' data user',
    completeChallenge now now' req db = (db', Completed data)
    /\ User_findById (req_user_id req) db' = Some user'
    /\ r_currentStreakCount data = currentStreakCount uc'
    /\ r_trustScoreIncrease data = trustScoreIncreaseFor (currentStreakCount uc')
    /\ trustScore user'
       = cappedTrustScore (trustScore user) (trustScoreIncreaseFor (currentStreakCount uc'))
    /\ r_trustScore data = trustScore user'
    /\ earnedBadges user' = earnedBadges user
    /\ r_totalBadges data = Z.of_nat (List.length (earnedBadges user'))
    /\ grade user' = gradeForBadgeCount (r_totalBadges data)
    /\ r_currentGrade data = grade user'.
Proof.
  intros Hfile Hfind Hv Hnin Huser uc'.
  unfold completeChallenge. rewrite Hfile, Hfind.
  destruct (alreadyCompleted (utcMidnight now) uc) eqn:Hdone.
  { apply alreadyCompleted_In in Hdone. contradiction. }
  fold uc'. set (db1 := UserChallenge_save uc' db).
  assert (Hv1 : usersValid db1) by exact Hv.
  assert (Huser1 : User_findById (req_user_id req) db1 = Some user) by exact Huser.
  destruct (applyTrustScore_found _ (currentStreakCount uc') db1 user Hv1 Huser1)
    as (db2 & user2 & -> & Hf2 & Ht2 & He2 & _ & _ & Hv2).
  cbn [checkAndAwardBadges].
  destruct (updateGrade_found _ db2 user2 Hv2 Hf2)
    as (db4 & saved & user4 & -> & _ & _ & Hf4 & Hg4 & Ht4 & He4 & _ & _).
  destruct (updateCompletionRate_frame now' (params_id req) db4) as (_ & Hu5 & _).
  assert (Hf5 : User_findById (req_user_id req)
                  (updateCompletionRate now' (params_id req) db4) = Some user4).
  { unfold User_findById in *. now rewrite Hu5. }
  eexists _, _, user4. split; [reflexivity|].
  unfold completionData. rewrite Hf5. simpl.
  repeat split; try congruence.
  rewrite Ht4, Ht2. reflexivity.
Qed.

Lemma trustScoreIncreaseFor_tiers streak :
  (10 <= streak -> (trustScoreIncreaseFor streak == 1 + 2)%Q)
  /\ (7 <= streak < 10 -> (trustScoreIncreaseFor streak == 1 + (3 # 2))%Q)
  /\ (3 <= streak < 7 -> (trustScoreIncreaseFor streak == 1 + 1)%Q)
  /\ (streak < 3 -> (trustScoreIncreaseFor streak == 1 + 0)%Q).
Proof.
  unfold trustScoreIncreaseFor.
  destruct (Z.geb_spec streak 10), (Z.geb_spec streak 7), (Z.geb_spec streak 3);
    repeat split; intros; try lia; reflexivity.
Qed.

(** C5.  On a successful completion by an existing user the reported
    trust-score increase is 1 plus the bonus of exactly one tier of the
    updated [currentStreakCount] (2 from 10 on, 1.5 from 7 on, 1 from 3
    on, 0 below), the stored [trustScore] is the minimum of 100 and the
    old score plus that increase, hence at most 100, and a score of 99
    with an increase of 3 becomes exactly 100. *)
Theorem completeChallenge_trustScore :
  forall now now' req db file uc user,
    req_file req = Some file ->
    UserChallenge_findOne (req_user_id req) (params_id req) db = Some uc ->
    usersValid db ->
    ~ In (utcMidnight now) (completedDates uc) ->
    User_findById (req_user_id req) db = Some user ->
    exists db' data user',
      completeChallenge now now' req db = (db', Completed data)
      /\ User_findById (req_user_id req) db' = Some user'
      /\ (10 <= r_currentStreakCount data -> (r_trustScoreIncrease data == 1 + 2)%Q)
      /\ (7 <= r_currentStreakCount data < 10 ->
          (r_trustScoreIncrease data == 1 + (3 # 2))%Q)
      /\ (3 <= r_currentStreakCount data < 7 -> (r_trustScoreIncrease data == 1 + 1)%Q)
      /\ (r_currentStreakCount data < 3 -> (r_trustScoreIncrease data == 1 + 0)%Q)
      /\ trustScore user' = Qmin 100 (trustScore user + r_trustScoreIncrease data)
      /\ r_trustScore data = trustScore user'
      /\ (trustScore user' <= 100)%Q
      /\ (trustScore user == 99 -> r_trustScoreIncrease data == 3 ->
          trustScore user' == 100)%Q.
Proof.
  intros now now' req db file uc user Hfile Hfind Hv Hnin Huser.
  destruct (completeChallenge_user now now' req db file uc user Hfile Hfind Hv Hnin Huser)
    as (db' & data & user' & Hout & Hf' & Hstreak & Hinc & Htrust & Hresp & _).
  exists db', data, user'.
  destruct (trustScoreIncreaseFor_tiers (r_currentStreakCount data)) as (T1 & T2 & T3 & T4).
  rewrite Hstreak in T1, T2, T3, T4. rewrite <- Hinc in T1, T2, T3, T4, Htrust.
  rewrite Hstreak.
  repeat split; try assumption.
  - rewrite Htrust. apply Q.le_min_l.
  - intros H99 H3. rewrite Htrust. unfold cappedTrustScore.
    rewrite H99, H3. reflexivity.
Qed.

Lemma completeChallenge_trustScore_witness :
  usersValid storeBeforeFifth
  /\ ~ In (utcMidnight (day 20004)) (completedDates fourDone)
  /\ exists db' data user',
       completeChallenge (day 20004) (day 20004) request storeBeforeFifth
       = (db', Completed data)
       /\ User_findById "u1" db' = Some user'
       /\ trustScore user' = Qmin 100 (trustScore newUser + r_trustScoreIncrease data).
Proof.
  assert (Hv : usersValid storeBeforeFifth) by (repeat constructor).
  assert (Hn : ~ In (utcMidnight (day 20004)) (completedDates fourDone)).
  { vm_compute. intros [H | [H | [H | [H | []]]]]; discriminate. }
  split; [exact Hv|]. split; [exact Hn|].
  destruct (completeChallenge_trustScore (day 20004) (day 20004) request storeBeforeFifth
              photo fourDone newUser eq_refl eq_refl Hv Hn eq_refl)
    as (db' & data & user' & Hout & Hf & _ & _ & _ & _ & Ht & _).
  exists db', data, user'. auto.
Defined.

(** *** Grade classifier *)

(** C7.  The grade computed in [completeChallenge] depends on the number
    of earned badges only: diamond from 40, gold from 20, silver from
    10, bronze below (so 12 is silver, 20 and 39 are gold, 40 is
    diamond); the user document is saved exactly when that grade
    differs from the stored one, and otherwise the store is untouched;
    the grade in the response is the grade of the reported badge
    count. *)
Theorem grade_from_badge_count :
  (forall n, 40 <= n -> gradeForBadgeCount n = diamond)
  /\ (forall n, 20 <= n < 40 -> gradeForBadgeCount n = gold)
  /\ (forall n, 10 <= n < 20 -> gradeForBadgeCount n = silver)
  /\ (forall n, n < 10 -> gradeForBadgeCount n = bronze)
  /\ gradeForBadgeCount 12 = silver
  /\ gradeForBadgeCount 20 = gold
  /\ gradeForBadgeCount 39 = gold
  /\ gradeForBadgeCount 40 = diamond
  /\ (forall uid db u,
        usersValid db ->
        User_findById uid db = Some u ->
        let newGrade := gradeForBadgeCount (Z.of_nat (List.length (earnedBadges u))) in
        exists db' saved u',
          updateGrade uid db = Some (db', saved)
          /\ (saved = true <-> grade u <> newGrade)
          /\ (saved = false -> db' = db)
          /\ User_findById uid db' = Some u'
          /\ grade u' = newGrade)
  /\ (forall now now' req db file uc user,
        req_file req = Some file ->
        UserChallenge_findOne (req_user_id req) (params_id req) db = Some uc ->
        usersValid db ->
        ~ In (utcMidnight now) (completedDates uc) ->
        User_findById (req_user_id req) db = Some user ->
        exists db' data,
          completeChallenge now now' req db = (db', Completed data)
          /\ r_currentGrade data = gradeForBadgeCount (r_totalBadges data)).
Proof.
  repeat split; try reflexivity.
  - intros n Hn. unfold gradeForBadgeCount.
    destruct (Z.geb_spec n 40); [reflexivity | lia].
  - intros n Hn. unfold gradeForBadgeCount.
    destruct (Z.geb_spec n 40); [lia|]. destruct (Z.geb_spec n 20); [reflexivity | lia].
  - intros n Hn. unfold gradeForBadgeCount.
    destruct (Z.geb_spec n 40); [lia|]. destruct (Z.geb_spec n 20); [lia|].
    destruct (Z.geb_spec n 10); [reflexivity | lia].
  - intros n Hn. unfold gradeForBadgeCount.
    destruct (Z.geb_spec n 40); [lia|]. destruct (Z.geb_spec n 20); [lia|].
    destruct (Z.geb_spec n 10); [lia | reflexivity].
  - intros uid db u Hv Hf newGrade.
    destruct (updateGrade_found uid db u Hv Hf)
      as (db' & saved & u' & H1 & H2 & H3 & H4 & H5 & _).
    exists db', saved, u'. auto.
  - intros now now' req db file uc user Hfile Hfind Hv Hnin Huser.
    destruct (completeChallenge_user now now' req db file uc user Hfile Hfind Hv Hnin Huser)
      as (db' & data & user' & Hout & _ & _ & _ & _ & _ & _ & _ & Hg & Hr).
    exists db', data. split; [assumption | congruence].
Qed.

(** ** The cascade into the badge engine *)

(** Whatever the catalog holds, a completion leaves [earnedBadges] as it
    was: the engine is handed the id string, reads [req.user] on it and
    stops in its own [catch]. *)
Lemma completeChallenge_earnedBadges now now' req db file uc user :
  req_file req = Some file ->
  UserChallenge_findOne (req_user_id req) (params_id req) db = Some uc ->
  usersValid db ->
  ~ In (utcMidnight now) (completedDates uc) ->
  User_findById (req_user_id req) db = Some user ->
  exists db' data user',
    completeChallenge now now' req db = (db', Completed data)
    /\ User_findById (req_user_id req) db' = Some user'
    /\ earnedBadges user' = earnedBadges user
    /\ r_totalBadges data = Z.of_nat (List.length (earnedBadges user)).
Proof.
  intros Hfile Hfind Hv Hnin Huser.
  destruct (completeChallenge_user now now' req db file uc user Hfile Hfind Hv Hnin Huser)
    as (db' & data & user' & Hout & Hf & _ & _ & _ & _ & He & Hn & _).
  exists db', data, user'. rewrite <- He. auto.
Qed.

(** C3, at the scenario of the specification: the catalog holds the
    badge "5 completions", the user has 4 and completes a fifth time.
    The response reports 5 completions and 0 badges and the stored
    [earnedBadges] stays empty, although the condition is met on the
    resulting store and the engine called with an authenticated request
    (POST /api/badge/check) grants the badge there. *)
Theorem completeChallenge_fifth_completion_no_badge :
  let out := completeChallenge (day 20004 + hour 12) (day 20004 + hour 12)
               request storeBeforeFifth in
  (exists data,
     snd out = Completed data
     /\ r_totalCompletions data = 5
     /\ r_totalBadges data = 0
     /\ r_currentGrade data = bronze)
  /\ option_map earnedBadges (User_findById "u1" (fst out)) = Some []
  /\ conditionMet (userStats (fst out) (UserChallenge_find_user "u1" (fst out)))
       fiveCompletions = true
  /\ option_map earnedBadges
       (User_findById "u1"
          (checkAndAwardBadges (ArgRequest (mkAuthRequest (Some "u1"%string))) (fst out)))
     = Some ["b5"%string].
Proof.
  cbv zeta. split; [|vm_compute; auto].
  eexists. vm_compute. auto.
Qed.

(** ** Rounding of percentages *)

Lemma rne_nonneg n d : 0 <= n -> 0 < d -> 0 <= rne n d.
Proof.
  intros Hn Hd. unfold rne.
  pose proof (Z.div_pos n d Hn Hd).
  repeat match goal with |- context [if ?c then _ else _] => destruct c end; lia.
Qed.

Lemma rne_le n d K : 0 < d -> n <= K * d -> rne n d <= K.
Proof.
  intros Hd Hn. unfold rne.
  pose proof (Z.div_mod n d ltac:(lia)) as Hdm.
  pose proof (Z.mod_pos_bound n d Hd) as Hr.
  destruct (Z.ltb_spec (2 * (n mod d)) d); [nia|].
  assert (n / d + 1 <= K) by nia.
  repeat match goal with |- context [if ?c then _ else _] => destruct c end; lia.
Qed.

(** A quotient that does not exceed a 53-bit integer [B] is rounded to
    a double that does not exceed [B]. *)
Lemma nearest64_le n d B :
  0 <= n -> 0 < d -> 0 < B < 2 ^ 53 -> n <= B * d ->
  expo (nearest64 n d) <= 0
  /\ 0 <= mant (nearest64 n d) <= B * 2 ^ (- expo (nearest64 n d)).
Proof.
  intros Hn Hd HB Hle. unfold nearest64.
  destruct (Z.eqb_spec n 0) as [->|Hn0]; [simpl; lia|].
  assert (Hnpos : 0 < n) by lia.
  rewrite Z.abs_eq by lia. rewrite Z.sgn_pos by lia.
  set (e0 := Z.log2 n - Z.log2 d - 52).
  pose proof (Z.log2_spec n Hnpos) as [Hn_lo _].
  pose proof (Z.log2_spec d Hd) as [_ Hd_hi].
  pose proof (Z.log2_nonneg n) as Hln. pose proof (Z.log2_nonneg d) as Hld.
  set (e := if n * 2 ^ Z.max 0 (- e0) <? 2 ^ 52 * (d * 2 ^ Z.max 0 e0) then e0 - 1 else e0).
  assert (He : e <= 0).
  { destruct (Z.le_gt_cases e0 0) as [H0|H0].
    - subst e. destruct (_ <? _); lia.
    - assert (He1 : e0 = 1).
      { destruct (Z.eq_dec e0 1) as [|Hne]; [assumption | exfalso].
        assert (Hlog : Z.log2 n = Z.succ (Z.log2 d) + 53 + (e0 - 2)) by (unfold e0; lia).
        rewrite Hlog in Hn_lo.
        rewrite !Z.pow_add_r in Hn_lo by lia.
        assert (1 <= 2 ^ (e0 - 2)) by (apply (Z.pow_le_mono_r 2 0); lia).
        nia. }
      subst e. rewrite (Z.max_l 0 (- e0)), (Z.max_r 0 e0) by lia.
      rewrite He1. change (2 ^ 0) with 1. change (2 ^ 1) with 2.
      destruct (Z.ltb_spec (n * 1) (2 ^ 52 * (d * 2))); [lia|].
      assert (2 ^ 53 = 2 ^ 52 * 2) by reflexivity. nia. }
  cbn [expo mant]. split; [exact He|].
  rewrite (Z.max_l 0 e), (Z.max_r 0 (- e)) by lia.
  change (2 ^ 0) with 1. rewrite !Z.mul_1_r, Z.mul_1_l.
  assert (Hp : 0 < 2 ^ (- e)) by (apply Z.pow_pos_nonneg; lia).
  split.
  - apply rne_nonneg; nia.
  - apply rne_le; [lia | nia].
Qed.

(** [Math.round((a / b) * 100)] for [0 <= a <= b], [0 < b]: the
    division is defined and the result lies between 0 and 100. *)
Lemma round_percent_bounds a b :
  0 <= a <= b -> 0 < b ->
  exists p, round_percent a b = Some p /\ 0 <= p <= 100.
Proof.
  intros Ha Hb. unfold round_percent, js_div.
  destruct (Z.eqb_spec b 0); [lia|]. destruct (Z.ltb_spec b 0); [lia|].
  eexists. split; [reflexivity|].
  destruct (nearest64_le a b 1 ltac:(lia) Hb ltac:(split; [lia | reflexivity]) ltac:(lia))
    as (He & Hm0 & Hm1).
  set (x := nearest64 a b) in *.
  unfold js_mul. rewrite (Z.max_l 0 (expo x)), (Z.max_r 0 (- expo x)) by lia.
  change (2 ^ 0) with 1. rewrite Z.mul_1_r.
  assert (Hp : 0 < 2 ^ (- expo x)) by (apply Z.pow_pos_nonneg; lia).
  destruct (nearest64_le (mant x * 100) (2 ^ (- expo x)) 100
              ltac:(lia) Hp ltac:(split; [lia | reflexivity]) ltac:(lia))
    as (He' & Hm0' & Hm1').
  set (y := nearest64 (mant x * 100) (2 ^ (- expo x))) in *.
  unfold Math_round. rewrite (Z.max_l 0 (expo y)), (Z.max_r 0 (- expo y)) by lia.
  change (2 ^ 0) with 1. rewrite Z.mul_1_r.
  assert (Hq : 0 < 2 ^ (- expo y)) by (apply Z.pow_pos_nonneg; lia).
  split.
  - apply Z.div_pos; lia.
  - enough ((2 * mant y + 2 ^ (- expo y)) / (2 * 2 ^ (- expo y)) < 101) by lia.
    apply Z.div_lt_upper_bound; lia.
Qed.



(** The rounding model reproduces the kernel's binary64 arithmetic on
    every ratio [a / b] with [b <= 48] and [a <= 3 * b]; at 23 / 40 both
    give 57, one below the exactly rounded 57.5. *)
Example round_percent_is_binary64 :
  forallb (fun ab => match round_percent (fst ab) (snd ab) with
                     | Some p => p =? prim_round_percent (fst ab) (snd ab)
                     | None => false
                     end) (ratioGrid 48) = true
  /\ round_percent 23 40 = Some 57
  /\ prim_round_percent 23 40 = 57
  /\ exact_round_percent 23 40 = 58.
Proof. vm_compute. auto. Qed.

(** ** Completion-rate aggregator *)

Lemma fold_left_sumOver {A} (f : A -> Z) (l : list A) : forall acc,
  fold_left (fun a x => a + f x) l acc = acc + sumOver f l.
Proof.
  induction l as [|x l IH]; intros acc; simpl; [now rewrite Z.add_0_r|].
  rewrite IH. unfold sumOver. simpl. lia.
Qed.








(** ** Badge evaluation engine *)

Lemma earned_includes id (earned : list ObjectId) :
  existsb (String.eqb id) earned = true <-> In id earned.
Proof.
  rewrite existsb_exists. split.
  - intros (x & Hin & Heq). apply String.eqb_eq in Heq. now subst.
  - intros Hin. exists id. split; [assumption | apply String.eqb_refl].
Qed.

(** For a badge as the API creates it (a category condition names its
    category), the [switch] decides "aggregate >= threshold". *)
Lemma conditionMet_aggregate s b :
  (cond_type b = cond_category_completions ->
   exists target, categoryTarget b = Some target /\ target <> ""%string) ->
  conditionMet s b = true <-> cond_value b <= matchingAggregate s b.
Proof.
  intros Hwf. unfold conditionMet, matchingAggregate.
  destruct (cond_type b); try apply Z.geb_le.
  destruct Hwf as (target & -> & Hne); [reflexivity|].
  destruct (String.eqb_spec target ""); [contradiction | apply Z.geb_le].
Qed.

(** The loop appends, in catalog order and once each, the ids of the
    badges that are not yet earned and whose condition is met; what was
    earned stays in place. *)
Lemma awardBadges_earned s catalog : forall user,
  exists added,
    earnedBadges (awardBadges s user catalog) = earnedBadges user ++ added
    /\ List.NoDup added
    /\ forall id, In id added <->
         ~ In id (earnedBadges user)
         /\ exists b, In b catalog /\ badge_id b = id /\ conditionMet s b = true.
Proof.
  induction catalog as [|b rest IH]; intros user.
  - exists []. split; [now rewrite app_nil_r|]. split; [apply List.NoDup_nil|].
    intros id. split; [intros [] | intros (_ & b & [] & _)].
  - unfold awardBadges. simpl fold_left. fold (awardBadges s (awardBadge s user b) rest).
    unfold awardBadge at 1.
    destruct (existsb (String.eqb (badge_id b)) (earnedBadges user)) eqn:Hhas.
    + destruct (IH user) as (added & Heq & Hnd & Hin).
      exists added. split; [assumption|]. split; [assumption|].
      intros id. rewrite Hin. split.
      * intros (Hn & b' & Hb' & Hid & Hmet). split; [assumption|]. exists b'. simpl. auto.
      * intros (Hn & b' & [<- | Hb'] & Hid & Hmet).
        -- exfalso. apply Hn. rewrite <- Hid. now apply earned_includes.
        -- split; [assumption|]. eauto.
    + destruct (conditionMet s b) eqn:Hmet.
      * match goal with |- context [awardBadges s ?u rest] =>
          destruct (IH u) as (added & Heq & Hnd & Hin) end.
        simpl earnedBadges in Heq, Hin.
        assert (Hfresh : ~ In (badge_id b) (earnedBadges user)).
        { intros H. apply earned_includes in H. congruence. }
        exists (badge_id b :: added). split; [now rewrite Heq, <- app_assoc|].
        split.
        { apply List.NoDup_cons; [|assumption]. intros H. apply Hin in H as [H _].
          apply H. apply in_or_app. right. now left. }
        intros id. split.
        -- intros [<- | H].
           ++ split; [assumption|]. exists b. simpl. auto.
           ++ apply Hin in H as (Hn & b' & Hb' & Hid & Hm). split.
              ** intros H. apply Hn. apply in_or_app. now left.
              ** exists b'. simpl. auto.
        -- intros (Hn & b' & Hb' & Hid & Hm).
           destruct (string_dec (badge_id b) id) as [Heqid | Hneq]; [now left | right].
           apply Hin. split.
           ++ intros H. apply in_app_or in H as [H | [H | []]]; [now apply Hn | congruence].
           ++ destruct Hb' as [<- | Hb']; [congruence|]. eauto.
      * destruct (IH user) as (added & Heq & Hnd & Hin).
        exists added. split; [assumption|]. split; [assumption|].
        intros id. rewrite Hin. split.
        -- intros (Hn & b' & Hb' & Hid & Hm). split; [assumption|]. exists b'. simpl. auto.
        -- intros (Hn & b' & [<- | Hb'] & Hid & Hm); [congruence|].
           split; [assumption|]. eauto.
Qed.

Lemma awardBadges_user_id s catalog : forall user,
  user_id (awardBadges s user catalog) = user_id user.
Proof.
  induction catalog as [|b rest IH]; intros user; [reflexivity|].
  unfold awardBadges in *. simpl fold_left. rewrite IH. unfold awardBadge.
  destruct (existsb _ _); [reflexivity|]. destruct (conditionMet _ _); reflexivity.
Qed.

(** The engine keeps every earned badge and adds no second copy; when
    the updated document passes the schema it is the stored one. *)
Lemma checkAndAwardBadges_stored uid db user :
  User_findById uid db = Some user ->
  let user' := awardBadges (userStats db (UserChallenge_find_user uid db)) user (badges db) in
  (forall id, In id (earnedBadges user) -> In id (earnedBadges user'))
  /\ (List.NoDup (earnedBadges user) -> List.NoDup (earnedBadges user'))
  /\ (User_validate user' = true ->
      User_findById uid (checkAndAwardBadges (ArgRequest (mkAuthRequest (Some uid))) db)
      = Some user')
  /\ (User_validate user' = false ->
      checkAndAwardBadges (ArgRequest (mkAuthRequest (Some uid))) db = db).
Proof.
  intros Hfind user'.
  destruct (awardBadges_earned (userStats db (UserChallenge_find_user uid db)) (badges db) user)
    as (added & Heq & Hnd & Hin).
  fold user' in Heq.
  assert (Hid : user_id user' = user_id user) by apply awardBadges_user_id.
  repeat split.
  - intros id H. rewrite Heq. apply in_or_app. now left.
  - intros H. rewrite Heq. apply List.NoDup_app; try assumption.
    intros id Hid1 Hid2. apply Hin in Hid2 as [Hn _]. contradiction.
  - intros Hv. cbn [checkAndAwardBadges auth_user]. rewrite Hfind. fold user'.
    unfold User_save. rewrite Hv. unfold User_findById in *. simpl.
    apply (find_replace_same user_id) with (d := user); auto.
    rewrite Hid. now apply find_some in Hfind.
  - intros Hv. cbn [checkAndAwardBadges auth_user]. rewrite Hfind. fold user'.
    unfold User_save. now rewrite Hv.
Qed.

(** C6, at a user who shows the only earned badge in slot 2: the second
    badge is not earned yet and its aggregate (2 completions) reaches
    its threshold (2), the loop pushes it with order [length + 1 = 2],
    the validator "orders must be unique" refuses the save, and the
    stored [earnedBadges] stays as it was. *)
Theorem checkAndAwardBadges_slot_collision :
  let stats := userStats storeSlotTwo (UserChallenge_find_user "u1" storeSlotTwo) in
  let user' := awardBadges stats slotTwoUser (badges storeSlotTwo) in
  User_validate slotTwoUser = true
  /\ existsb (String.eqb "b2") (earnedBadges slotTwoUser) = false
  /\ matchingAggregate stats secondCompletion = 2
  /\ cond_value secondCompletion = 2
  /\ earnedBadges user' = ["b1"; "b2"]%string
  /\ representativeBadges user' = [mkRep "b1" 2; mkRep "b2" 2]
  /\ User_validate user' = false
  /\ checkAndAwardBadges (ArgRequest (mkAuthRequest (Some "u1"%string))) storeSlotTwo
     = storeSlotTwo.
Proof.
  vm_compute. repeat split.
Qed.

(** ** Ranking: the caller's rank *)

Lemma matchCondition_spec t my uc :
  matchCondition t my uc = true <-> strictlyPrecedes t uc my.
Proof.
  unfold strictlyPrecedes.
  destruct t; cbn [matchCondition primaryKey firstTieBreak secondTieBreak];
    rewrite ?orb_true_iff, ?andb_true_iff, ?Z.gtb_lt, ?Z.eqb_eq; split.
  - intros [H | [H1 H2]]; [left; lia | right; left; lia].
  - intros [H | [[H1 H2] | (_ & _ & k & k' & Hk & _)]];
      [left; lia | right; lia | discriminate].
  - intros [H | [H1 H2]]; [left; lia | right; left; lia].
  - intros [H | [[H1 H2] | (_ & _ & k & k' & Hk & _)]];
      [left; lia | right; lia | discriminate].
  - intros [[H | [H1 H2]] | [[H1 H2] H3]];
      [left; lia | right; left; lia | right; right].
    repeat split; try assumption. eexists _, _. repeat split. lia.
  - intros [H | [[H1 H2] | (H1 & H2 & k & k' & Hk & Hk' & Hgt)]];
      [left; left; lia | left; right; lia | right].
    injection Hk as <-. injection Hk' as <-. repeat split; (assumption || lia).
Qed.

Lemma matchCondition_irrefl t my : matchCondition t my my = false.
Proof.
  destruct (matchCondition t my my) eqn:H; [|reflexivity].
  apply matchCondition_spec in H. unfold strictlyPrecedes in H.
  destruct H as [H | [[_ H] | (_ & _ & k & k' & Hk & Hk' & H)]]; try lia.
  rewrite Hk in Hk'. injection Hk' as <-. lia.
Qed.

Lemma filter_length_lt {A} (f : A -> bool) (x : A) (l : list A) :
  In x l -> f x = false -> (List.length (List.filter f l) < List.length l)%nat.
Proof.
  intros Hin Hf. induction l as [|y l IH]; [destruct Hin|].
  simpl. destruct Hin as [-> | Hin].
  - rewrite Hf. pose proof (List.filter_length_le f l). lia.
  - specialize (IH Hin). destruct (f y); simpl; lia.
Qed.

Lemma findOne_in_challenge uid cid db uc :
  UserChallenge_findOne uid cid db = Some uc ->
  In uc (UserChallenge_find_challenge cid db).
Proof.
  unfold UserChallenge_findOne, UserChallenge_find_challenge. intros H.
  apply find_some in H as [Hin Hp]. apply andb_true_iff in Hp as [_ Hc].
  apply List.filter_In. auto.
Qed.




(** C10, as amended.  Without the caller's record the query answers
    "not found"; with it the challenge has at least one participant,
    so the divisor of the percentile is not zero, the rank lies between
    1 and the number of participants, and the percentile lies between
    0 and 100. *)
Theorem getMyChallengeRank_percentile_defined :
  forall (isValid : string -> bool) req db,
    (isValid (my_challengeId req) = true ->
     UserChallenge_findOne (my_user_id req) (my_challengeId req) db = None ->
     getMyChallengeRank isValid req db = MyRankNotFound)
    /\ (forall data,
          getMyChallengeRank isValid req db = MyRankOk data ->
          (exists mine,
             UserChallenge_findOne (my_user_id req) (my_challengeId req) db = Some mine
             /\ In mine (UserChallenge_find_challenge (my_challengeId req) db))
          /\ 1 <= my_totalParticipants data
          /\ 1 <= my_rank data <= my_totalParticipants data
          /\ exists p, my_percentile data = Some p /\ 0 <= p <= 100).
Proof.
  intros isValid req db. split.
  - intros Hid Hnone. unfold getMyChallengeRank. now rewrite Hid, Hnone.
  - intros data Hresp. unfold getMyChallengeRank in Hresp.
    destruct (negb (isValid (my_challengeId req))); [discriminate|].
    destruct (UserChallenge_findOne (my_user_id req) (my_challengeId req) db)
      as [mine|] eqn:Hfind; [|discriminate].
    injection Hresp as <-. cbn [my_rank my_totalParticipants my_percentile].
    pose proof (findOne_in_challenge _ _ _ _ Hfind) as Hin.
    set (records := UserChallenge_find_challenge (my_challengeId req) db) in *.
    pose proof (filter_length_lt (matchCondition (rankingTypeOf (my_type req)) mine)
                  mine records Hin (matchCondition_irrefl _ _)) as Hlt.
    split; [eauto|]. split; [lia|]. split; [lia|].
    apply round_percent_bounds; lia.
Qed.

(** C10 as stated fails at the lower bound: the last of 201
    participants has (201 - 201 + 1) / 201, below one half percent, and
    a percentile of 0. *)
Lemma getMyChallengeRank_percentile_zero :
  exists data,
    getMyChallengeRank anyId (mkMyRankRequest "c1" (participantId 201) None)
      (participants 201)
    = MyRankOk data
    /\ my_rank data = 201
    /\ my_totalParticipants data = 201
    /\ my_percentile data = Some 0
    /\ ~ (exists p, my_percentile data = Some p /\ 1 <= p <= 100).
Proof.
  eexists. split; [vm_compute; reflexivity|].
  cbn [my_rank my_totalParticipants my_percentile].
  repeat split. intros (p & Hp & Hb). injection Hp as <-. lia.
Qed.

(** ** Ranking: the leaderboard of a challenge *)

Section SortOrder.

Variable t : RankingType.

Lemma sortsBefore_spec a b : sortsBefore t a b = true <-> orderedBefore t a b.
Proof.
  unfold orderedBefore, strictlyPrecedes, sortsBefore.
  destruct t; cbn [sortField compareKeys primaryKey firstTieBreak secondTieBreak];
    repeat match goal with
           | |- context [?x ?= ?y] => destruct (Z.compare_spec x y)
           end;
    (split; intros Hs;
     [ first [ discriminate Hs
             | intros [G1 | [[G1 G2] | (G1 & G2 & k & k' & Hk & Hk' & G3)]];
               first [ lia | discriminate
                     | injection Hk as <-; injection Hk' as <-; lia ] ]
     | first [ reflexivity
             | exfalso; apply Hs;
               first [ left; lia | right; left; lia
                     | right; right; repeat split; try lia;
                       eexists _, _; repeat split; lia ] ] ]).
Qed.

Lemma ordered_total a b : sortsBefore t a b = false -> sortsBefore t b a = true.
Proof.
  intros H. apply sortsBefore_spec. intros Hab.
  assert (Hn : ~ orderedBefore t a b) by (rewrite <- sortsBefore_spec; congruence).
  apply Hn. unfold orderedBefore. clear H Hn. unfold strictlyPrecedes in *.
  intros Hba.
  destruct Hab as [H1 | [[H1 H2] | (H1 & H2 & k & k' & Hk & Hk' & H3)]];
    destruct Hba as [G1 | [[G1 G2] | (G1 & G2 & j & j' & Hj & Hj' & G3)]]; try lia.
  rewrite Hk in Hj'. rewrite Hk' in Hj. injection Hj as <-. injection Hj' as <-. lia.
Qed.

Lemma sortsBefore_trans a b c :
  sortsBefore t a b = true -> sortsBefore t b c = true -> sortsBefore t a c = true.
Proof.
  unfold sortsBefore.
  destruct t; cbn [sortField compareKeys];
    repeat match goal with
           | |- context [?x ?= ?y] => destruct (Z.compare_spec x y)
           end;
    intros; try reflexivity; try discriminate; lia.
Qed.

Lemma sortInsert_perm x l : Permutation (x :: l) (sortInsert t x l).
Proof.
  induction l as [|y r IH]; simpl; [reflexivity|].
  destruct (sortsBefore t x y); [reflexivity|].
  rewrite perm_swap. now constructor.
Qed.

Lemma mongoSort_perm l : Permutation l (mongoSort t l).
Proof.
  induction l as [|x l IH]; simpl; [constructor|].
  rewrite <- sortInsert_perm. now constructor.
Qed.

Lemma sortInsert_sorted x l :
  StronglySorted (fun a b => sortsBefore t a b = true) l ->
  StronglySorted (fun a b => sortsBefore t a b = true) (sortInsert t x l).
Proof.
  induction 1 as [|y r Hr IH Hy]; simpl; [repeat constructor|].
  destruct (sortsBefore t x y) eqn:Hxy.
  - constructor; [now constructor|].
    constructor; [assumption|].
    eapply List.Forall_impl; [|exact Hy]. intros c Hc. eapply sortsBefore_trans; eassumption.
  - constructor; [assumption|].
    eapply Permutation_Forall; [apply sortInsert_perm|].
    constructor; [now apply ordered_total | assumption].
Qed.

Lemma mongoSort_sorted l : StronglySorted (orderedBefore t) (mongoSort t l).
Proof.
  assert (H : StronglySorted (fun a b => sortsBefore t a b = true) (mongoSort t l)).
  { induction l as [|x l IH]; simpl; [constructor | now apply sortInsert_sorted]. }
  induction H as [|y r Hr IH Hy]; constructor; [assumption|].
  eapply List.Forall_impl; [|exact Hy]. intros c Hc. now apply sortsBefore_spec.
Qed.

End SortOrder.




Lemma rankResults_nth now page limit l : forall i0 i r,
  nth_error (rankResults now page limit i0 l) i = Some r ->
  exists x, nth_error l i = Some x
    /\ r = mkRanked ((page - 1) * limit + (i0 + Z.of_nat i) + 1) (fst x) (snd x)
             (daysSince now (startDate (fst x))).
Proof.
  induction l as [|x l IH]; intros i0 i r H; [destruct i; discriminate|].
  destruct i as [|i]; simpl in H.
  - injection H as <-. exists x. split; [reflexivity|]. simpl. now rewrite Z.add_0_r.
  - destruct (IH _ _ _ H) as (y & Hy & ->). exists y. split; [assumption|].
    f_equal. lia.
Qed.








(** ** The scenarios of the specification, evaluated *)

(** Completions on days 0, 1, 2, 3 give 4 completions, a streak of 4 and
    a score of 40; after skipping day 4, the completion on day 5 resets
    the current streak to 1 and keeps the maximum at 4. *)
Example scenario_daily_then_gap :
  let noon := fun n => (day (20000 + n) + hour 12, day (20000 + n) + hour 12) in
  let store := mkDB [joined (day 20000 + hour 9)] [newUser] [health] [] in
  let after3 := fst (completeMany [noon 0; noon 1; noon 2; noon 3] request store) in
  let after5 := fst (completeMany [noon 5] request after3) in
  let counters := fun uc => (totalCompletions uc, currentStreakCount uc,
                             maxStreakCount uc, score uc) in
  option_map counters (UserChallenge_findOne "u1" "c1" after3) = Some (4, 4, 4, 40)
  /\ option_map counters (UserChallenge_findOne "u1" "c1" after5) = Some (5, 1, 4, 50).
Proof. vm_compute. auto. Qed.

(** Called through its route, the engine does not grant the badge
    "5 completions" at 4 completions and grants it at 5. *)
Example scenario_badge_at_five :
  let check := checkAndAwardBadges (ArgRequest (mkAuthRequest (Some "u1"%string))) in
  let fifth := fst (completeChallenge (day 20004 + hour 12) (day 20004 + hour 12)
                      request storeBeforeFifth) in
  option_map earnedBadges (User_findById "u1" (check storeBeforeFifth)) = Some []
  /\ option_map earnedBadges (User_findById "u1" (check fifth)) = Some ["b5"%string].
Proof. vm_compute. auto. Qed.

(** ** The completion recorder on an arbitrary store *)

Lemma sameExcept_refl {A} (key : A -> ObjectId) id (l : list A) : sameExcept key id l l.
Proof. induction l; constructor; auto. Qed.

Lemma sameExcept_trans {A} (key : A -> ObjectId) id (l1 l2 l3 : list A) :
  sameExcept key id l1 l2 -> sameExcept key id l2 l3 -> sameExcept key id l1 l3.
Proof.
  intros H12; revert l3.
  induction H12 as [|x y l1 l2 Hxy _ IH]; intros l3 H23; inversion H23; subst; constructor.
  - destruct Hxy as [-> | [Hx Hy]]; [assumption|].
    match goal with H : y = _ \/ _ |- _ => destruct H as [<- | [_ Hz]] end; auto.
  - now apply IH.
Qed.

Lemma sameExcept_replace {A} (key : A -> ObjectId) (d' : A) (l : list A) :
  sameExcept key (key d') l (map (fun x => if String.eqb (key x) (key d') then d' else x) l).
Proof.
  induction l as [|x l IH]; simpl; constructor; [|assumption].
  destruct (String.eqb_spec (key x) (key d')); auto.
Qed.

Lemma User_save_frame u db db' :
  User_save u db = Some db' ->
  userChallenges db' = userChallenges db
  /\ challenges db' = challenges db
  /\ badges db' = badges db
  /\ sameExcept user_id (user_id u) (users db) (users db').
Proof.
  unfold User_save. destruct (User_validate u); [|discriminate].
  intros [= <-]. simpl. repeat split. apply sameExcept_replace.
Qed.

Lemma applyTrustScore_frame uid streak db db' inc :
  applyTrustScore uid streak db = Some (db', inc) ->
  userChallenges db' = userChallenges db
  /\ challenges db' = challenges db
  /\ badges db' = badges db
  /\ sameExcept user_id uid (users db) (users db').
Proof.
  unfold applyTrustScore.
  destruct (User_findById uid db) as [user|] eqn:Hf.
  - destruct (User_save _ db) as [db1|] eqn:Hs; [|discriminate].
    intros [= <- _]. apply User_save_frame in Hs. simpl in Hs.
    apply findById_same_id, String.eqb_eq in Hf. now rewrite Hf in Hs.
  - intros [= <- _]. repeat split. apply sameExcept_refl.
Qed.

Lemma updateGrade_frame uid db db' saved :
  updateGrade uid db = Some (db', saved) ->
  userChallenges db' = userChallenges db
  /\ challenges db' = challenges db
  /\ badges db' = badges db
  /\ sameExcept user_id uid (users db) (users db').
Proof.
  unfold updateGrade.
  destruct (User_findById uid db) as [user|] eqn:Hf.
  - destruct (Grade_eqb _ _).
    + intros [= <- _]. repeat split. apply sameExcept_refl.
    + destruct (User_save _ db) as [db1|] eqn:Hs; [|discriminate].
      intros [= <- _]. apply User_save_frame in Hs. simpl in Hs.
      apply findById_same_id, String.eqb_eq in Hf. now rewrite Hf in Hs.
  - intros [= <- _]. repeat split. apply sameExcept_refl.
Qed.

Lemma updateCompletionRate_challenges now cid db :
  sameExcept ch_id cid (challenges db) (challenges (updateCompletionRate now cid db)).
Proof.
  unfold updateCompletionRate.
  destruct (Challenge_findById cid db) as [c|] eqn:Hf; [|apply sameExcept_refl].
  unfold Challenge_save. destruct (Challenge_validate _); [|apply sameExcept_refl].
  simpl. apply find_some in Hf as [_ Hid]. apply String.eqb_eq in Hid.
  rewrite <- Hid at 1.
  exact (sameExcept_replace ch_id (mkChallenge (ch_id c) (category c) _) (challenges db)).
Qed.

(** Every request leaves the badge catalogue alone, touches only the
    caller's user document and the challenge of the request, and either
    leaves the progress records alone, and is then not answered 200, or
    stores [applyCompletion] of the caller's record, also when it is
    answered 500. *)
Lemma completeChallenge_outcome now now' req db :
  let out := completeChallenge now now' req db in
  badges (fst out) = badges db
  /\ sameExcept user_id (req_user_id req) (users db) (users (fst out))
  /\ sameExcept ch_id (params_id req) (challenges db) (challenges (fst out))
  /\ ((userChallenges (fst out) = userChallenges db
       /\ forall data, snd out <> Completed data)
      \/ exists file uc,
           let uc' := applyCompletion (utcMidnight now)
                        ("/uploads/completions/" ++ filename file)%string uc in
           req_file req = Some file
           /\ UserChallenge_findOne (req_user_id req) (params_id req) db = Some uc
           /\ ~ In (utcMidnight now) (completedDates uc)
           /\ userChallenges (fst out) = userChallenges (UserChallenge_save uc' db)
           /\ forall data, snd out = Completed data ->
                r_score data = score uc'
                /\ r_totalCompletions data = totalCompletions uc'
                /\ r_currentStreakCount data = currentStreakCount uc'
                /\ r_maxStreakCount data = maxStreakCount uc'
                /\ r_completedDate data = utcMidnight now).
Proof.
  cbn zeta. unfold completeChallenge.
  pose proof (sameExcept_refl user_id (req_user_id req) (users db)) as Ru.
  pose proof (sameExcept_refl ch_id (params_id req) (challenges db)) as Rc.
  destruct (req_file req) as [file|] eqn:Hfile;
    [|simpl; repeat split; auto; left; split; first [reflexivity | discriminate]].
  destruct (UserChallenge_findOne _ _ db) as [uc|] eqn:Hfind;
    [|simpl; repeat split; auto; left; split; first [reflexivity | discriminate]].
  destruct (alreadyCompleted (utcMidnight now) uc) eqn:Hdone;
    [simpl; repeat split; auto; left; split; first [reflexivity | discriminate]|].
  assert (Hnin : ~ In (utcMidnight now) (completedDates uc)).
  { intros Hin. apply alreadyCompleted_In in Hin. congruence. }
  set (uc' := applyCompletion _ _ uc). set (db1 := UserChallenge_save uc' db).
  destruct (applyTrustScore _ _ db1) as [[db2 inc]|] eqn:Ht.
  - apply applyTrustScore_frame in Ht as (Huc2 & Hch2 & Hb2 & Hu2).
    cbn [checkAndAwardBadges].
    destruct (updateGrade _ db2) as [[db4 saved]|] eqn:Hg.
    + apply updateGrade_frame in Hg as (Huc4 & Hch4 & Hb4 & Hu4).
      destruct (updateCompletionRate_frame now' (params_id req) db4) as (Huc5 & Hu5 & Hb5).
      pose proof (updateCompletionRate_challenges now' (params_id req) db4) as Hch5.
      cbn [fst snd]. rewrite Hb5, Hb4, Hb2, Hu5, Huc5, Huc4, Huc2.
      rewrite Hch4, Hch2 in Hch5.
      repeat split; [exact (sameExcept_trans _ _ _ _ _ Hu2 Hu4) | exact Hch5 | ].
      right; exists file, uc; repeat split; auto;
        match goal with H : Completed _ = Completed _ |- _ => injection H as <- end;
        reflexivity.
    + cbn [fst snd]. rewrite Hb2, Hch2, Huc2.
      repeat split; [exact Hu2 | exact Rc | right; exists file, uc; repeat split; auto;
                                             discriminate].
  - cbn [fst snd].
    repeat split; [exact Ru | exact Rc | right; exists file, uc; repeat split; auto;
                                           discriminate].
Qed.

Lemma completeChallenge_record now now' req db uc :
  UserChallenge_findOne (req_user_id req) (params_id req) db = Some uc ->
  let out := completeChallenge now now' req db in
  (UserChallenge_findOne (req_user_id req) (params_id req) (fst out) = Some uc
   /\ forall data, snd out <> Completed data)
  \/ exists file,
       let uc' := applyCompletion (utcMidnight now)
                    ("/uploads/completions/" ++ filename file)%string uc in
       req_file req = Some file
       /\ ~ In (utcMidnight now) (completedDates uc)
       /\ UserChallenge_findOne (req_user_id req) (params_id req) (fst out) = Some uc'
       /\ forall data, snd out = Completed data ->
            r_currentStreakCount data = currentStreakCount uc'.
Proof.
  intros Hfind out.
  destruct (completeChallenge_outcome now now' req db) as (_ & _ & _ & [[Hsame Hresp] | Hnew]);
    fold out in Hsame, Hresp || fold out in Hnew.
  - left. split; [|exact Hresp]. unfold UserChallenge_findOne in *. now rewrite Hsame.
  - right. destruct Hnew as (file & uc0 & Hfile & Hfind0 & Hnin & Hrec & Hdata).
    rewrite Hfind in Hfind0. injection Hfind0 as <-.
    exists file. cbn zeta. repeat split; try assumption.
    + unfold UserChallenge_findOne in *. rewrite Hrec. simpl.
      pose proof (find_some _ _ Hfind) as [_ Hp].
      exact (find_replace_same uc_id _ uc
               (applyCompletion (utcMidnight now)
                  ("/uploads/completions/" ++ filename file)%string uc) _ Hfind eq_refl Hp).
    + intros data Hd. now apply Hdata in Hd.
Qed.

(** ** Invariants of the progress records *)

Lemma utcMidnight_mod now : utcMidnight now mod msPerDay = 0.
Proof. unfold utcMidnight, msPerDay. Z.to_euclidean_division_equations. lia. Qed.

Lemma midnight_le_clock d now :
  d mod msPerDay = 0 -> d <= now -> d <= utcMidnight now.
Proof. unfold utcMidnight, msPerDay. Z.to_euclidean_division_equations. lia. Qed.

Lemma midnight_lt_step a b :
  a mod msPerDay = 0 -> b mod msPerDay = 0 -> a < b -> a <= b - msPerDay.
Proof. unfold msPerDay. Z.to_euclidean_division_equations. lia. Qed.

Lemma lastDate_snoc dates d : lastDate (dates ++ [d]) = Some d.
Proof. unfold lastDate. rewrite map_app. simpl. apply List.last_last. Qed.

Lemma applyCompletion_consistent now url uc :
  recordConsistent uc ->
  ~ In (utcMidnight now) (completedDates uc) ->
  recordConsistent (applyCompletion (utcMidnight now) url uc).
Proof.
  intros (Ht & Hp & Hs & Hc & Hm & Hd & Hn & Hl) Hnin.
  destruct (applyCompletion_streak (utcMidnight now) url uc) as (Hyes & Hno & Hmax).
  set (uc' := applyCompletion (utcMidnight now) url uc) in *.
  assert (Hcur : 1 <= currentStreakCount uc' <= currentStreakCount uc + 1).
  { destruct (in_dec Z.eq_dec (utcMidnight now - msPerDay) (completedDates uc)) as [Hin | Hout].
    - rewrite (Hyes Hin). lia.
    - rewrite (Hno Hout). lia. }
  assert (Hlen : 0 <= totalCompletions uc) by lia.
  unfold recordConsistent. rewrite Hmax.
  change (totalCompletions uc') with (totalCompletions uc + 1).
  change (completedDates uc') with (completedDates uc ++ [utcMidnight now]).
  change (completionPhotos uc')
    with (completionPhotos uc ++ [mkPhoto (utcMidnight now) url]).
  change (score uc') with (score uc + 10).
  change (lastCompletionDate uc') with (Some (utcMidnight now)).
  repeat split; try lia.
  - rewrite List.length_app. simpl. lia.
  - rewrite map_app, Hp. reflexivity.
  - apply Forall_app. split; [assumption|]. constructor; [apply utcMidnight_mod | constructor].
  - apply List.NoDup_app; repeat split; [assumption | repeat constructor; auto | ].
    intros x Hx [<- | []]. contradiction.
  - symmetry. apply lastDate_snoc.
Qed.

(** X1.  The completion recorder keeps every progress record
    well-formed: if in every stored record [totalCompletions] is the
    number of completed dates, the photos carry the same dates in the
    same order, [score] is ten times [totalCompletions], the current
    streak lies between 0 and the longest streak, which is at most
    [totalCompletions], the dates are distinct UTC midnights and
    [lastCompletionDate] is the newest of them, then the same holds of
    every record after any request, whatever its answer. *)
Theorem completeChallenge_keeps_records_consistent :
  forall now now' req db,
    Forall recordConsistent (userChallenges db) ->
    Forall recordConsistent (userChallenges (fst (completeChallenge now now' req db))).
Proof.
  intros now now' req db Hall.
  destruct (completeChallenge_outcome now now' req db) as (_ & _ & _ & [[-> _] | Hnew]);
    [assumption|].
  destruct Hnew as (file & uc & _ & Hfind & Hnin & -> & _). simpl.
  refine (Forall_replace uc_id recordConsistent
            (applyCompletion (utcMidnight now)
               ("/uploads/completions/" ++ filename file)%string uc) _ Hall _).
  apply applyCompletion_consistent; [|assumption].
  apply find_some in Hfind as [Hin _].
  rewrite List.Forall_forall in Hall. now apply Hall.
Qed.

Lemma completeChallenge_keeps_records_consistent_witness :
  Forall recordConsistent (userChallenges storeBeforeFifth)
  /\ Forall recordConsistent
       (userChallenges (fst (completeChallenge (day 20004) (day 20004) request storeBeforeFifth))).
Proof.
  assert (H : Forall recordConsistent (userChallenges storeBeforeFifth)).
  { repeat constructor; try (simpl; lia); try reflexivity;
      simpl; intuition (try discriminate; try lia). }
  split; [exact H|].
  exact (completeChallenge_keeps_records_consistent (day 20004) (day 20004) request
           storeBeforeFifth H).
Defined.

(** X3.  What a completion request never does: it leaves the badge
    catalogue as it was, changes no user document other than the caller's and no
    challenge other than the one of the request, and a progress record
    it changes is replaced, under the same [_id], by a record of the
    caller for this challenge. *)
Theorem completeChallenge_touches_only_its_own :
  forall now now' req db,
    let db' := fst (completeChallenge now now' req db) in
    badges db' = badges db
    /\ sameExcept user_id (req_user_id req) (users db) (users db')
    /\ sameExcept ch_id (params_id req) (challenges db) (challenges db')
    /\ Forall2 (fun x y => x = y
                           \/ (uc_id y = uc_id x
                               /\ userId y = req_user_id req
                               /\ challengeId y = params_id req))
         (userChallenges db) (userChallenges db').
Proof.
  intros now now' req db db'.
  destruct (completeChallenge_outcome now now' req db) as (Hb & Hu & Hc & Hrec).
  fold db' in Hb, Hu, Hc, Hrec.
  repeat split; try assumption.
  destruct Hrec as [[-> _] | (file & uc & _ & Hfind & _ & -> & _)].
  - induction (userChallenges db); constructor; auto.
  - apply find_some in Hfind as [_ Hp].
    apply andb_true_iff in Hp as [Hu1 Hc1].
    apply String.eqb_eq in Hu1, Hc1. simpl.
    induction (userChallenges db) as [|x l IH]; simpl; constructor; [|assumption].
    destruct (String.eqb_spec (uc_id x) (uc_id uc)); auto.
Qed.

(** ** The streak counter against the history *)

Lemma StronglySorted_snoc_inv {A} (R : A -> A -> Prop) (l : list A) (x : A) :
  StronglySorted R (l ++ [x]) -> StronglySorted R l /\ Forall (fun y => R y x) l.
Proof.
  induction l as [|a l IH]; simpl; intros H; [split; constructor|].
  apply StronglySorted_inv in H as [Hs Ha].
  destruct (IH Hs) as [Hl Hx]. apply Forall_app in Ha as [Ha1 Ha2].
  split; constructor; auto. now inversion Ha2.
Qed.

Lemma StronglySorted_snoc {A} (R : A -> A -> Prop) (l : list A) (x : A) :
  StronglySorted R l -> Forall (fun y => R y x) l -> StronglySorted R (l ++ [x]).
Proof.
  induction 1 as [|a l Hs IH Ha]; simpl; intros Hx.
  - repeat constructor.
  - inversion Hx; subst. constructor; [auto|].
    apply Forall_app. split; [assumption | repeat constructor; assumption].
Qed.

(** Appending a later day to an increasing history of midnights: the
    trailing run grows by one when the day before is recorded and
    restarts at 1 otherwise. *)
Lemma trailingRun_snoc dates today :
  StronglySorted Z.lt dates ->
  Forall (fun d => d mod msPerDay = 0) dates ->
  Forall (fun d => d < today) dates ->
  today mod msPerDay = 0 ->
  trailingRun (dates ++ [today])
  = if existsb (fun date => date =? dayBefore today) (dates ++ [today])
    then trailingRun dates + 1 else 1.
Proof.
  intros Hs Hm Hlt Ht.
  assert (Hex : existsb (fun date => date =? dayBefore today) (dates ++ [today])
                = existsb (fun date => date =? dayBefore today) dates).
  { rewrite existsb_app. simpl.
    replace (today =? dayBefore today) with false; [now rewrite !orb_false_r|].
    symmetry. apply Z.eqb_neq. unfold dayBefore, msPerDay. lia. }
  rewrite Hex. clear Hex.
  unfold trailingRun. rewrite rev_app_distr. simpl. rewrite Z.eqb_refl.
  destruct (rev dates) as [|newest older] eqn:Hrev.
  - apply (f_equal (@rev Z)) in Hrev. rewrite rev_involutive in Hrev. subst dates.
    reflexivity.
  - apply (f_equal (@rev Z)) in Hrev. rewrite rev_involutive in Hrev. simpl in Hrev.
    subst dates.
    apply StronglySorted_snoc_inv in Hs as [_ Hbelow].
    apply Forall_app in Hm as [Hm1 Hm2]. apply Forall_app in Hlt as [Hlt1 Hlt2].
    inversion Hm2 as [|? ? Hmn _]; subst. inversion Hlt2 as [|? ? Hltn _]; subst.
    pose proof (midnight_lt_step _ _ Hmn Ht Hltn) as Hstep.
    simpl. rewrite Z.eqb_refl. fold (dayBefore today).
    destruct (Z.eqb_spec newest (dayBefore today)) as [-> | Hne].
    + replace (existsb _ _) with true; [unfold dayBefore; lia|].
      symmetry. apply existsb_exists. exists (dayBefore today).
      split; [apply in_or_app; right; now left | apply Z.eqb_refl].
    + replace (existsb _ _) with false; [reflexivity|].
      symmetry. apply not_true_iff_false. intros Hex.
      apply existsb_exists in Hex as (d & Hin & Hd). apply Z.eqb_eq in Hd. subst d.
      apply in_app_or in Hin as [Hin | [Hin | []]].
      * rewrite List.Forall_forall in Hbelow. apply Hbelow in Hin.
        unfold dayBefore in *. lia.
      * congruence.
Qed.

Lemma applyCompletion_streakExact now url uc :
  streakExact uc ->
  Forall (fun d => d <= now) (completedDates uc) ->
  ~ In (utcMidnight now) (completedDates uc) ->
  streakExact (applyCompletion (utcMidnight now) url uc).
Proof.
  intros (Hs & Hm & Hc) Hclock Hnin.
  assert (Hlt : Forall (fun d => d < utcMidnight now) (completedDates uc)).
  { rewrite List.Forall_forall in *. intros d Hd.
    pose proof (midnight_le_clock d now (Hm d Hd) (Hclock d Hd)).
    assert (d <> utcMidnight now) by (intros ->; contradiction). lia. }
  unfold streakExact.
  change (completedDates (applyCompletion (utcMidnight now) url uc))
    with (completedDates uc ++ [utcMidnight now]).
  repeat split.
  - now apply StronglySorted_snoc.
  - apply Forall_app. split; [assumption|].
    constructor; [apply utcMidnight_mod | constructor].
  - rewrite (trailingRun_snoc _ _ Hs Hm Hlt (utcMidnight_mod now)).
    unfold applyCompletion; simpl. now rewrite Hc.
Qed.

(** X2.  The streak counter is the real streak.  When the caller's
    record holds its completion days in increasing order, as UTC
    midnights, with [currentStreakCount] equal to the number of
    consecutive days that end at the newest one, and the clock is not
    behind the newest of them, then the record stored after any request
    is of the same kind: in particular after a success
    [currentStreakCount] is the length of the run of consecutive days
    that ends today. *)
Theorem completeChallenge_streak_is_trailing_run :
  forall now now' req db uc,
    UserChallenge_findOne (req_user_id req) (params_id req) db = Some uc ->
    streakExact uc ->
    Forall (fun d => d <= now) (completedDates uc) ->
    let out := completeChallenge now now' req db in
    exists uc',
      UserChallenge_findOne (req_user_id req) (params_id req) (fst out) = Some uc'
      /\ streakExact uc'
      /\ (forall data, snd out = Completed data ->
            completedDates uc' = completedDates uc ++ [utcMidnight now]
            /\ r_currentStreakCount data = trailingRun (completedDates uc ++ [utcMidnight now])).
Proof.
  intros now now' req db uc Hfind Hexact Hclock out.
  destruct (completeChallenge_record now now' req db uc Hfind) as [[Hsame Hresp] | Hnew];
    fold out in Hsame, Hresp || fold out in Hnew.
  - exists uc. split; [assumption|]. split; [assumption|].
    intros data Hd. now apply Hresp in Hd.
  - destruct Hnew as (file & _ & Hnin & Hfind' & Hdata).
    eexists. split; [exact Hfind'|].
    pose proof (applyCompletion_streakExact now
                  ("/uploads/completions/" ++ filename file)%string uc Hexact Hclock Hnin)
      as Hexact'.
    split; [exact Hexact'|]. intros data Hd. split; [reflexivity|].
    rewrite (Hdata data Hd). apply Hexact'.
Qed.

Lemma completeChallenge_streak_is_trailing_run_witness :
  UserChallenge_findOne (req_user_id request) (params_id request) storeBeforeFifth
  = Some fourDone
  /\ streakExact fourDone
  /\ exists uc',
       UserChallenge_findOne (req_user_id request) (params_id request)
         (fst (completeChallenge (day 20004 + hour 9) (day 20004 + hour 9) request
                 storeBeforeFifth)) = Some uc'
       /\ streakExact uc'.
Proof.
  assert (He : streakExact fourDone).
  { unfold streakExact. simpl.
    repeat split; repeat constructor; try reflexivity. }
  assert (Hc : Forall (fun d => d <= day 20004 + hour 9) (completedDates fourDone)).
  { simpl. repeat constructor; unfold day, hour, msPerDay; lia. }
  split; [reflexivity|]. split; [exact He|].
  destruct (completeChallenge_streak_is_trailing_run (day 20004 + hour 9) (day 20004 + hour 9)
              request storeBeforeFifth fourDone eq_refl He Hc) as (uc' & H1 & H2 & _).
  exists uc'. split; assumption.
Defined.

(** ** getTodayCompletableChallenges *)

Lemma isoDate_midnight d now :
  d mod msPerDay = 0 -> (isoDate d =? isoDate now) = (d =? utcMidnight now).
Proof.
  intros Hd. unfold isoDate, utcMidnight.
  destruct (Z.eqb_spec d (now - now mod msPerDay)) as [He | Hne].
  - apply Z.eqb_eq. revert Hd He. unfold msPerDay.
    Z.to_euclidean_division_equations. lia.
  - apply Z.eqb_neq. revert Hd Hne. unfold msPerDay.
    Z.to_euclidean_division_equations. lia.
Qed.

Lemma completedToday_midnights now uc :
  Forall (fun d => d mod msPerDay = 0) (completedDates uc) ->
  existsb (fun date => isoDate date =? isoDate now) (completedDates uc)
  = alreadyCompleted (utcMidnight now) uc.
Proof.
  unfold alreadyCompleted. induction 1 as [|d l Hd _ IH]; simpl; [reflexivity|].
  now rewrite IH, (isoDate_midnight d now Hd).
Qed.

(** X4.  The list of challenges that can be completed today agrees
    with the completion recorder: for a request with a photo, by a
    caller whose record holds UTC midnights, the record is listed at an
    instant exactly when a completion request at that instant is
    answered 200. *)
Theorem completable_today_iff_accepted :
  forall now now' req db file uc,
    req_file req = Some file ->
    UserChallenge_findOne (req_user_id req) (params_id req) db = Some uc ->
    usersValid db ->
    Forall (fun d => d mod msPerDay = 0) (completedDates uc) ->
    (In uc (getTodayCompletableChallenges now (req_user_id req) db)
     <-> exists data, snd (completeChallenge now now' req db) = Completed data).
Proof.
  intros now now' req db file uc Hfile Hfind Hv Hm.
  unfold getTodayCompletableChallenges, UserChallenge_find_user.
  rewrite filter_In, filter_In, (completedToday_midnights now uc Hm).
  pose proof (find_some _ _ Hfind) as [Hin Hp].
  apply andb_true_iff in Hp as [Hu _].
  destruct (completeChallenge_step now now' req db file uc Hfile Hfind Hv)
    as [[Hdone ->] | [Hfresh (db' & data & -> & _)]]; simpl.
  - apply alreadyCompleted_In in Hdone. rewrite Hdone. simpl.
    split; [intros [_ H]; discriminate | intros [data H]; discriminate].
  - assert (Hn : alreadyCompleted (utcMidnight now) uc = false).
    { apply not_true_iff_false. intros H. now apply alreadyCompleted_In in H. }
    rewrite Hn. simpl. split; [eauto | auto].
Qed.

Lemma completable_today_iff_accepted_witness :
  usersValid storeBeforeFifth
  /\ (In fourDone (getTodayCompletableChallenges (day 20004 + hour 9) "u1" storeBeforeFifth)
      <-> exists data,
            snd (completeChallenge (day 20004 + hour 9) (day 20004 + hour 10) request
                   storeBeforeFifth) = Completed data).
Proof.
  assert (Hv : usersValid storeBeforeFifth) by (repeat constructor).
  assert (Hm : Forall (fun d => d mod msPerDay = 0) (completedDates fourDone))
    by (repeat constructor).
  split; [exact Hv|].
  exact (completable_today_iff_accepted (day 20004 + hour 9) (day 20004 + hour 10) request
           storeBeforeFifth photo fourDone eq_refl eq_refl Hv Hm).
Defined.

(** ** getUserStats *)

Section ReplaceUnique.

Context {A : Type} (key : A -> string).

Lemma replace_absent (d' : A) (l : list A) :
  ~ In (key d') (map key l) ->
  map (fun x => if String.eqb (key x) (key d') then d' else x) l = l.
Proof.
  induction l as [|x l IH]; simpl; intros Hn; [reflexivity|].
  destruct (String.eqb_spec (key x) (key d')) as [He | _]; [exfalso; auto|].
  f_equal. apply IH. tauto.
Qed.

(** Saving a document whose [_id] is stored once changes the sums over
    any selection that holds it before and after. *)
Lemma sumOver_replace (p : A -> bool) (f : A -> Z) (d d' : A) (l : list A) :
  List.NoDup (map key l) -> In d l -> key d' = key d -> p d = true -> p d' = true ->
  let l' := map (fun x => if String.eqb (key x) (key d') then d' else x) l in
  sumOver f (List.filter p l') = sumOver f (List.filter p l) - f d + f d'
  /\ List.length (List.filter p l') = List.length (List.filter p l).
Proof.
  intros Hnd Hin Hk Hpd Hpd'. cbn zeta.
  induction l as [|x l IH]; [destruct Hin|].
  simpl in Hnd. apply List.NoDup_cons_iff in Hnd as [Hx Hnd].
  destruct Hin as [-> | Hin].
  - simpl. rewrite Hk, String.eqb_refl, Hpd, Hpd'.
    rewrite <- Hk, (replace_absent d' l) by now rewrite Hk.
    unfold sumOver. simpl. split; [lia | reflexivity].
  - destruct (IH Hnd Hin) as [IH1 IH2].
    simpl. destruct (String.eqb_spec (key x) (key d')) as [He | _].
    + exfalso. apply Hx. rewrite He, Hk. now apply in_map.
    + destruct (p x); simpl; [|auto].
      unfold sumOver in *. simpl. split; [lia | now f_equal].
Qed.

End ReplaceUnique.

Lemma maxOf_bounds (f g : UserChallenge -> Z) (l : list UserChallenge) :
  l <> [] ->
  (forall x, In x l -> 0 <= f x <= g x) ->
  0 <= maxOf (map f l) <= sumOver g l.
Proof.
  destruct l as [|x l]; [congruence|]. intros _ H. simpl.
  assert (Hgen : forall acc bound, 0 <= acc <= bound ->
            (forall y, In y l -> 0 <= f y <= g y) ->
            0 <= fold_left Z.max (map f l) acc <= bound + sumOver g l).
  { clear. induction l as [|y l IH]; intros acc bound Hacc Hl; simpl.
    - unfold sumOver; simpl. lia.
    - assert (Hy : 0 <= f y <= g y) by (apply Hl; now left).
      assert (Hrest : forall z, In z l -> 0 <= f z <= g z) by (intros; apply Hl; now right).
      specialize (IH (Z.max acc (f y)) (bound + g y) ltac:(lia) Hrest).
      unfold sumOver in *. simpl. lia. }
  specialize (Hgen (f x) (g x) (H x (or_introl eq_refl))
                (fun y Hy => H y (or_intror Hy))).
  unfold sumOver in *. simpl. lia.
Qed.

(** X5.  The statistics of a user over well-formed records are
    coherent: the total score is ten times the total number of
    completions, the sum of the current streaks is not negative and at
    most that number, and so is the longest streak. *)
Theorem getUserStats_coherent :
  forall uid db,
    Forall recordConsistent (userChallenges db) ->
    let s := getUserStats uid db in
    stats_totalScore s = 10 * stats_totalCompletions s
    /\ 0 <= stats_currentActiveStreaks s <= stats_totalCompletions s
    /\ 0 <= stats_maxStreakCount s <= stats_totalCompletions s.
Proof.
  intros uid db Hall. cbn zeta. unfold getUserStats.
  set (l := UserChallenge_find_user uid db).
  assert (Hl : Forall recordConsistent l).
  { rewrite List.Forall_forall in *. intros x Hx. apply Hall.
    unfold l, UserChallenge_find_user in Hx. now apply filter_In in Hx. }
  destruct (Nat.eqb_spec (List.length l) 0) as [_ | Hne]; simpl; [lia|].
  rewrite !fold_left_sumOver, !Z.add_0_l.
  assert (Hnil : l <> []) by (intros E; rewrite E in Hne; auto).
  split; [|split].
  - clear Hne Hnil. induction Hl as [|x r Hx _ IH]; [reflexivity|].
    destruct Hx as (_ & _ & Hs & _). unfold sumOver in *. simpl. lia.
  - clear Hne Hnil. induction Hl as [|x r Hx _ IH]; [unfold sumOver; simpl; lia|].
    destruct Hx as (_ & _ & _ & Hc & Hm & _). unfold sumOver in *. simpl. lia.
  - apply maxOf_bounds; [assumption|].
    intros x Hx. rewrite List.Forall_forall in Hl.
    destruct (Hl x Hx) as (_ & _ & _ & Hc & Hm & _). lia.
Qed.

Lemma getUserStats_coherent_witness :
  Forall recordConsistent (userChallenges storeBeforeFifth)
  /\ stats_totalScore (getUserStats "u1" storeBeforeFifth)
     = 10 * stats_totalCompletions (getUserStats "u1" storeBeforeFifth).
Proof.
  assert (H : Forall recordConsistent (userChallenges storeBeforeFifth)).
  { repeat constructor; try (simpl; lia); try reflexivity;
      simpl; intuition (try discriminate; try lia). }
  split; [exact H|].
  exact (proj1 (getUserStats_coherent "u1"%string storeBeforeFifth H)).
Defined.

(** X6.  A completion shows in the caller's statistics: when every
    record has its own [_id] and the request is answered 200, the
    caller's total score is ten higher, the total number of completions
    one higher, and the number of challenges as before. *)
Theorem getUserStats_after_completion :
  forall now now' req db data,
    List.NoDup (map uc_id (userChallenges db)) ->
    snd (completeChallenge now now' req db) = Completed data ->
    let before := getUserStats (req_user_id req) db in
    let after := getUserStats (req_user_id req) (fst (completeChallenge now now' req db)) in
    stats_totalChallenges after = stats_totalChallenges before
    /\ stats_totalScore after = stats_totalScore before + 10
    /\ stats_totalCompletions after = stats_totalCompletions before + 1.
Proof.
  intros now now' req db data Hnd Hok. cbn zeta.
  destruct (completeChallenge_outcome now now' req db) as (_ & _ & _ & [[_ Hno] | Hnew]);
    [now apply Hno in Hok|].
  destruct Hnew as (file & uc & _ & Hfind & _ & Hrec & _).
  set (uc' := applyCompletion (utcMidnight now)
                ("/uploads/completions/" ++ filename file)%string uc) in *.
  pose proof (find_some _ _ Hfind) as [Hin Hp].
  apply andb_true_iff in Hp as [Hu _].
  unfold getUserStats, UserChallenge_find_user. rewrite Hrec. simpl userChallenges.
  destruct (sumOver_replace uc_id (fun x => String.eqb (userId x) (req_user_id req))
              score uc uc' _ Hnd Hin eq_refl Hu Hu) as [Hscore Hlen].
  destruct (sumOver_replace uc_id (fun x => String.eqb (userId x) (req_user_id req))
              totalCompletions uc uc' _ Hnd Hin eq_refl Hu Hu) as [Htotal _].
  cbn zeta in Hscore, Hlen, Htotal.
  change (uc_id uc') with (uc_id uc) in *.
  rewrite Hlen.
  assert (Hpos : List.length (List.filter (fun x => String.eqb (userId x) (req_user_id req))
                                (userChallenges db)) <> 0%nat).
  { intros E. apply List.length_zero_iff_nil in E.
    assert (Hm : In uc (List.filter (fun x => String.eqb (userId x) (req_user_id req))
                          (userChallenges db))) by (apply filter_In; auto).
    rewrite E in Hm. destruct Hm. }
  destruct (Nat.eqb_spec (List.length (List.filter (fun x => String.eqb (userId x) (req_user_id req))
                                         (userChallenges db))) 0) as [E | _]; [contradiction|].
  simpl. rewrite !fold_left_sumOver, Hscore, Htotal.
  change (score uc') with (score uc + 10).
  change (totalCompletions uc') with (totalCompletions uc + 1).
  repeat split; lia.
Qed.

Lemma getUserStats_after_completion_witness :
  exists data,
    snd (completeChallenge (day 20004) (day 20004) request storeBeforeFifth) = Completed data
    /\ stats_totalScore
         (getUserStats "u1" (fst (completeChallenge (day 20004) (day 20004) request
                                    storeBeforeFifth)))
       = stats_totalScore (getUserStats "u1" storeBeforeFifth) + 10.
Proof.
  assert (Hnd : List.NoDup (map uc_id (userChallenges storeBeforeFifth))).
  { simpl. repeat constructor. intros []. }
  eexists. split; [reflexivity|].
  exact (proj1 (proj2 (getUserStats_after_completion (day 20004) (day 20004) request
                         storeBeforeFifth _ Hnd eq_refl))).
Defined.

(** ** Representative badges *)

Lemma distinct_NoDup (l : list Z) : distinct l = true <-> List.NoDup l.
Proof.
  induction l as [|x l IH]; simpl.
  - split; [constructor | reflexivity].
  - rewrite andb_true_iff, negb_true_iff, IH, List.NoDup_cons_iff.
    assert (Hx : existsb (Z.eqb x) l = false <-> ~ In x l).
    { rewrite <- not_true_iff_false, existsb_exists. split.
      - intros H Hin. apply H. exists x. split; [assumption | apply Z.eqb_refl].
      - intros H (y & Hin & Hy). apply Z.eqb_eq in Hy. now subst. }
    now rewrite Hx.
Qed.

Lemma filter_none {A} (p : A -> bool) (l : list A) :
  (Z.of_nat (List.length (List.filter p l)) >? 0) = false <-> Forall (fun x => p x = false) l.
Proof.
  induction l as [|x l IH]; simpl.
  - split; [constructor | reflexivity].
  - destruct (p x) eqn:Hp; simpl.
    + split; [intros H | intros H; inversion H; congruence].
      exfalso. revert H. destruct (Z.gtb_spec (Z.of_nat (S (List.length (List.filter p l)))) 0);
        [discriminate | lia].
    + rewrite IH. split; [now constructor | intros H; now inversion H].
Qed.

Lemma insertByOrder_perm r l : Permutation (r :: l) (insertByOrder r l).
Proof.
  induction l as [|x l IH]; simpl; [reflexivity|].
  destruct (order r <=? order x); [reflexivity|].
  rewrite perm_swap. now constructor.
Qed.

Lemma sortByOrder_perm l : Permutation l (sortByOrder l).
Proof.
  induction l as [|x l IH]; simpl; [constructor|].
  rewrite <- insertByOrder_perm. now constructor.
Qed.

Lemma insertByOrder_sorted r l :
  StronglySorted (fun a b => order a <= order b) l ->
  StronglySorted (fun a b => order a <= order b) (insertByOrder r l).
Proof.
  induction 1 as [|x l Hs IH Hx]; simpl; [repeat constructor|].
  destruct (Z.leb_spec (order r) (order x)) as [Hle | Hgt].
  - constructor; [now constructor|]. constructor; [assumption|].
    eapply List.Forall_impl; [|exact Hx]. simpl. intros; lia.
  - constructor; [assumption|].
    rewrite <- insertByOrder_perm. constructor; [lia | assumption].
Qed.

Lemma sortByOrder_sorted l :
  StronglySorted (fun a b => order a <= order b) (sortByOrder l).
Proof.
  induction l as [|x l IH]; simpl; [constructor | now apply insertByOrder_sorted].
Qed.

(** With distinct orders the sorted slots are strictly increasing. *)
Lemma sortByOrder_strict l :
  List.NoDup (map order l) -> StronglySorted Z.lt (map order (sortByOrder l)).
Proof.
  intros Hnd.
  assert (Hnd' : List.NoDup (map order (sortByOrder l))).
  { eapply Permutation_NoDup; [|exact Hnd]. apply Permutation_map, sortByOrder_perm. }
  pose proof (sortByOrder_sorted l) as Hs.
  induction Hs as [|x s Hs IH Hx]; simpl; [constructor|].
  simpl in Hnd'. apply List.NoDup_cons_iff in Hnd' as [Hnotin Hnd'].
  constructor; [auto|].
  rewrite List.Forall_forall in *. intros o Ho.
  apply in_map_iff in Ho as (y & <- & Hy).
  specialize (Hx y Hy). simpl in Hx.
  assert (order y <> order x) by (intros E; apply Hnotin; rewrite <- E; now apply in_map).
  lia.
Qed.

Lemma orders_in_range (badges : list BadgeInput) :
  existsb (fun o => (o <? 1) || (o >? 4)) (map in_order badges) = false
  <-> Forall (fun b => 1 <= in_order b <= 4) badges.
Proof.
  induction badges as [|b l IH]; simpl.
  - split; [constructor | reflexivity].
  - rewrite orb_false_iff, IH, orb_false_iff. split.
    + intros [[H1 H2] Hl]. constructor; [|assumption].
      apply Z.ltb_ge in H1. destruct (Z.gtb_spec (in_order b) 4); [discriminate | lia].
    + intros H. inversion H as [|? ? [H1 H2] Hl]; subst. repeat split; [| |assumption].
      * apply Z.ltb_ge. lia.
      * destruct (Z.gtb_spec (in_order b) 4); [lia | reflexivity].
Qed.

(** The document that the handler saves passes the schema. *)
Lemma requested_slots_valid (badges : list BadgeInput) (user : User) :
  (Z.of_nat (List.length badges) >? 4) = false ->
  distinct (map in_order badges) = true ->
  existsb (fun o => (o <? 1) || (o >? 4)) (map in_order badges) = false ->
  User_validate
    (mkUser (user_id user) (grade user) (trustScore user)
       (map (fun b => mkRep (in_badgeId b) (in_order b)) badges) (earnedBadges user)) = true.
Proof.
  intros Hlen Hd Hr. unfold User_validate. simpl.
  rewrite List.length_map, map_map. simpl.
  rewrite (map_ext _ in_order) by reflexivity. rewrite Hd.
  replace (Z.of_nat (List.length badges) <=? 4) with true
    by (symmetry; apply Z.leb_le; destruct (Z.gtb_spec (Z.of_nat (List.length badges)) 4);
        [discriminate | lia]).
  simpl. apply forallb_forall. intros r Hin.
  apply in_map_iff in Hin as (b & <- & Hb). simpl.
  apply orders_in_range in Hr. rewrite List.Forall_forall in Hr.
  specialize (Hr b Hb). apply andb_true_iff. split; apply Z.leb_le; lia.
Qed.

(** The handler unfolded: a request that passes the five checks stores
    the requested slots in the caller's document. *)
Lemma updateRepresentativeBadges_cases isValid uid body db :
  let out := updateRepresentativeBadges isValid uid body db in
  (fst out = db /\ snd out <> RepServerError /\ (forall slots, snd out <> RepUpdated slots)
   /\ ~ (exists badges user,
           body = Some badges
           /\ (List.length badges <= 4)%nat
           /\ List.NoDup (map in_order badges)
           /\ Forall (fun b => 1 <= in_order b <= 4) badges
           /\ Forall (fun b => isValid (in_badgeId b) = true) badges
           /\ User_findById uid db = Some user
           /\ Forall (fun b => In (in_badgeId b) (earnedBadges user)) badges))
  \/ exists badges user,
       let user' := mkUser (user_id user) (grade user) (trustScore user)
                      (map (fun b => mkRep (in_badgeId b) (in_order b)) badges)
                      (earnedBadges user) in
       body = Some badges
       /\ (List.length badges <= 4)%nat
       /\ List.NoDup (map in_order badges)
       /\ Forall (fun b => 1 <= in_order b <= 4) badges
       /\ Forall (fun b => isValid (in_badgeId b) = true) badges
       /\ User_findById uid db = Some user
       /\ Forall (fun b => In (in_badgeId b) (earnedBadges user)) badges
       /\ User_validate user' = true
       /\ User_save user' db = Some (fst out)
       /\ User_findById uid (fst out) = Some user'
       /\ snd out = RepUpdated (map (populateSlot (fst out))
                                  (sortByOrder (representativeBadges user'))).
Proof.
  cbn zeta. unfold updateRepresentativeBadges.
  destruct body as [badges|];
    [|left; repeat split; try discriminate; intros (b & u & [=] & _)].
  destruct (Z.gtb_spec (Z.of_nat (List.length badges)) 4) as [Hlong | Hlen].
  { left; repeat split; try discriminate.
    intros (b & u & [= <-] & Hl & _). lia. }
  destruct (distinct (map in_order badges)) eqn:Hd; simpl negb; simpl orb.
  2:{ left; repeat split; try discriminate.
      intros (b & u & [= <-] & _ & Hnd & _). apply distinct_NoDup in Hnd. congruence. }
  destruct (existsb _ (map in_order badges)) eqn:Hr.
  { left; repeat split; try discriminate.
    intros (b & u & [= <-] & _ & _ & Hrange & _). apply orders_in_range in Hrange.
    congruence. }
  destruct (Z.of_nat (List.length (List.filter _ badges)) >? 0) eqn:Hids.
  { left; repeat split; try discriminate.
    intros (b & u & [= <-] & _ & _ & _ & Hok & _).
    assert (Hf : Forall (fun b => negb (isValid (in_badgeId b)) = false) badges).
    { eapply List.Forall_impl; [|exact Hok]. simpl. intros x ->. reflexivity. }
    apply filter_none in Hf. congruence. }
  destruct (User_findById uid db) as [user|] eqn:Hfind.
  2:{ left; repeat split; try discriminate.
      intros (b & u & _ & _ & _ & _ & _ & [=] & _). }
  match goal with |- context [if ?c then (db, RepNotEarned _) else _] =>
    destruct c eqn:Hearned end.
  { left; repeat split; try discriminate.
    intros (b & u & [= <-] & _ & _ & _ & _ & [= <-] & Hok).
    assert (Hf : Forall (fun b => negb (existsb (String.eqb (in_badgeId b)) (earnedBadges user))
                                  = false) badges).
    { eapply List.Forall_impl; [|exact Hok]. simpl. intros x Hx.
      apply earned_includes in Hx. now rewrite Hx. }
    apply filter_none in Hf. congruence. }
  right. exists badges, user. cbn zeta.
  pose proof (requested_slots_valid badges user
                ltac:(destruct (Z.gtb_spec (Z.of_nat (List.length badges)) 4); [lia | reflexivity])
                Hd Hr) as Hvalid.
  set (user' := mkUser _ _ _ _ _) in *.
  assert (Hfound : forall db', User_save user' db = Some db' -> User_findById uid db' = Some user').
  { unfold User_save. rewrite Hvalid. intros db' [= <-].
    unfold User_findById in *. simpl.
    pose proof (find_some _ _ Hfind) as [_ Hp].
    exact (find_replace_same user_id _ user user' _ Hfind eq_refl Hp). }
  unfold User_save in *. rewrite Hvalid in *.
  rewrite (Hfound _ eq_refl). cbn [fst snd].
  repeat split; try assumption; try reflexivity.
  - lia.
  - now apply distinct_NoDup.
  - now apply orders_in_range.
  - apply filter_none in Hids. eapply List.Forall_impl; [|exact Hids].
    simpl. intros b Hb. now apply negb_false_iff in Hb.
  - apply filter_none in Hearned. eapply List.Forall_impl; [|exact Hearned].
    simpl. intros b Hb. apply negb_false_iff in Hb. now apply earned_includes.
  - now apply Hfound.
Qed.


(** X8.  A request answered 200 has stored the requested slots, in
    the order of the request, in the caller's document; the earned
    badges, the grade and the trust score are as before, the document
    passes the schema, every representative badge is an earned one, and
    nothing else in the store has changed. *)
Theorem updateRepresentativeBadges_stores :
  forall (isValid : string -> bool) uid body db slots,
    snd (updateRepresentativeBadges isValid uid body db) = RepUpdated slots ->
    let db' := fst (updateRepresentativeBadges isValid uid body db) in
    exists entries user user',
      body = Some entries
      /\ User_findById uid db = Some user
      /\ User_findById uid db' = Some user'
      /\ representativeBadges user'
         = map (fun b => mkRep (in_badgeId b) (in_order b)) entries
      /\ earnedBadges user' = earnedBadges user
      /\ grade user' = grade user
      /\ trustScore user' = trustScore user
      /\ User_validate user' = true
      /\ representativesEarned user'
      /\ sameExcept user_id uid (users db) (users db')
      /\ userChallenges db' = userChallenges db
      /\ challenges db' = challenges db
      /\ badges db' = badges db.
Proof.
  intros isValid uid body db slots Hresp db'.
  destruct (updateRepresentativeBadges_cases isValid uid body db)
    as [(_ & _ & Hno200 & _) | (badges & user & Hok)]; [now apply Hno200 in Hresp|].
  cbn zeta in Hok. fold db' in Hok.
  destruct Hok as (Hb & _ & _ & _ & _ & Hf & He & Hvalid & Hsave & Hf' & _).
  apply User_save_frame in Hsave as (Huc & Hch & Hbd & Husers). simpl in Husers.
  pose proof (findById_same_id _ _ _ Hf) as Hid. apply String.eqb_eq in Hid.
  rewrite Hid in Husers.
  match type of Hf' with _ = Some ?u => exists badges, user, u end.
  repeat split; try assumption.
  intros r Hr. simpl in Hr. apply in_map_iff in Hr as (b & <- & Hin). simpl.
  rewrite List.Forall_forall in He. now apply He.
Qed.

Lemma updateRepresentativeBadges_stores_witness :
  exists user',
    User_findById "u1" (fst (updateRepresentativeBadges anyId "u1"
                               (Some [mkBadgeInput "b1" 3]) storeSlotTwo)) = Some user'
    /\ representativeBadges user' = [mkRep "b1" 3].
Proof.
  destruct (updateRepresentativeBadges_stores anyId "u1"%string
              (Some [mkBadgeInput "b1" 3]) storeSlotTwo _ eq_refl)
    as (badges & user & user' & Hb & _ & Hf & Hreps & _).
  injection Hb as <-. exists user'. split; [exact Hf | exact Hreps].
Defined.

(** X9.  What was set is what is shown: after a request answered
    200, the badge listing of the caller shows exactly the slots of the
    answer, as many as were requested; their orders are those of the
    request, strictly increasing. *)
Theorem getUserBadges_after_update :
  forall (isValid : string -> bool) uid body db slots,
    snd (updateRepresentativeBadges isValid uid body db) = RepUpdated slots ->
    exists data badges,
      getUserBadges uid (fst (updateRepresentativeBadges isValid uid body db)) = Some data
      /\ body = Some badges
      /\ ub_representativeBadges data = slots
      /\ ub_representativeCount data = Z.of_nat (List.length badges)
      /\ List.length slots = List.length badges
      /\ StronglySorted Z.lt (map slot_order slots)
      /\ Permutation (map in_order badges) (map slot_order slots).
Proof.
  intros isValid uid body db slots Hresp.
  destruct (updateRepresentativeBadges_cases isValid uid body db)
    as [(_ & _ & Hno200 & _) | (badges & user & Hok)]; [now apply Hno200 in Hresp|].
  cbn zeta in Hok.
  destruct Hok as (Hb & _ & Hnd & _ & _ & _ & _ & _ & _ & Hf' & Hout).
  rewrite Hout in Hresp. injection Hresp as <-.
  unfold getUserBadges. rewrite Hf'. simpl representativeBadges.
  set (reps := map (fun b => mkRep (in_badgeId b) (in_order b)) badges).
  assert (Horders : map order reps = map in_order badges).
  { unfold reps. rewrite map_map. reflexivity. }
  assert (Hslots : forall l, map slot_order (map (populateSlot
                     (fst (updateRepresentativeBadges isValid uid body db))) l) = map order l).
  { intros l. rewrite map_map. reflexivity. }
  eexists _, badges. repeat split; try assumption; simpl.
  - unfold reps. now rewrite List.length_map.
  - rewrite List.length_map, <- (Permutation_length (sortByOrder_perm reps)).
    unfold reps. now rewrite List.length_map.
  - rewrite Hslots. apply sortByOrder_strict. now rewrite Horders.
  - rewrite Hslots, <- Horders. apply Permutation_map, sortByOrder_perm.
Qed.

Lemma getUserBadges_after_update_witness :
  exists data,
    getUserBadges "u1" (fst (updateRepresentativeBadges anyId "u1"
                               (Some [mkBadgeInput "b1" 3]) storeSlotTwo)) = Some data
    /\ map slot_order (ub_representativeBadges data) = [3].
Proof.
  destruct (getUserBadges_after_update anyId "u1"%string
              (Some [mkBadgeInput "b1" 3]) storeSlotTwo _ eq_refl)
    as (data & badges & Hget & _ & Hslots & _).
  exists data. split; [exact Hget|]. rewrite Hslots. reflexivity.
Defined.

(** ** The badge engine on a request *)

(** The representative slots after the loop: the stored ones followed
    by the newly earned badges that found a free slot, each numbered
    with the length of the list at the time it was pushed. *)
Lemma awardBadges_slots s catalog : forall user,
  let user' := awardBadges s user catalog in
  let len := List.length (representativeBadges user) in
  exists addedReps,
    representativeBadges user' = representativeBadges user ++ addedReps
    /\ Forall (fun r => In (rep_badgeId r) (earnedBadges user')
                        /\ ~ In (rep_badgeId r) (earnedBadges user)) addedReps
    /\ map order addedReps = map Z.of_nat (seq (S len) (List.length addedReps))
    /\ (len + List.length addedReps
        = Nat.max len (Nat.min 4 (len + (List.length (earnedBadges user')
                                         - List.length (earnedBadges user)))))%nat
    /\ grade user' = grade user /\ trustScore user' = trustScore user.
Proof.
  induction catalog as [|b rest IH]; intros user; cbn zeta.
  - exists []. unfold awardBadges. cbn [fold_left List.length]. rewrite app_nil_r.
    repeat split; first [apply List.Forall_nil | lia | reflexivity].
  - unfold awardBadges. simpl fold_left. fold (awardBadges s (awardBadge s user b) rest).
    specialize (IH (awardBadge s user b)). cbn zeta in IH.
    destruct IH as (added & Hreps & Hall & Horders & Hlen & Hg & Ht).
    destruct (awardBadges_earned s rest (awardBadge s user b)) as (more & Hmore & _ & _).
    remember (awardBadge s user b) as u1 eqn:Hu1.
    unfold awardBadge in Hu1.
    destruct (existsb (String.eqb (badge_id b)) (earnedBadges user)) eqn:Hhas.
    { subst u1. exists added. auto 10. }
    destruct (conditionMet s b).
    2:{ subst u1. exists added. auto 10. }
    assert (He1 : earnedBadges u1 = earnedBadges user ++ [badge_id b]) by (now subst u1).
    assert (Hg1 : grade u1 = grade user) by (now subst u1).
    assert (Ht1 : trustScore u1 = trustScore user) by (now subst u1).
    assert (Hr1 : representativeBadges u1
                  = if Z.of_nat (List.length (representativeBadges user)) <? 4
                    then representativeBadges user
                           ++ [mkRep (badge_id b)
                                 (Z.of_nat (List.length (representativeBadges user)) + 1)]
                    else representativeBadges user) by (now subst u1).
    clear Hu1.
    assert (Hfresh : ~ In (badge_id b) (earnedBadges user)).
    { intros H. apply earned_includes in H. congruence. }
    assert (Hweaken : Forall (fun r => In (rep_badgeId r) (earnedBadges (awardBadges s u1 rest))
                                       /\ ~ In (rep_badgeId r) (earnedBadges user)) added).
    { eapply List.Forall_impl; [|exact Hall]. cbn beta. intros r [H1 H2].
      split; [exact H1 | intros H; apply H2; rewrite He1; apply in_or_app; now left]. }
    rewrite Hg, Ht, Hg1, Ht1, Hreps. rewrite Hr1 in *. rewrite He1 in *.
    rewrite Hmore in Hweaken.
    rewrite Hmore, !List.length_app in Hlen. cbn [List.length] in Hlen.
    rewrite Hmore, !List.length_app. cbn [List.length].
    destruct (Z.ltb_spec (Z.of_nat (List.length (representativeBadges user))) 4) as [Hfree | Hfull].
    + exists (mkRep (badge_id b) (Z.of_nat (List.length (representativeBadges user)) + 1) :: added).
      rewrite List.length_app in Horders, Hlen. cbn [List.length] in Horders, Hlen.
      repeat split.
      * now rewrite <- app_assoc.
      * constructor; [|exact Hweaken]. cbn [rep_badgeId]. split; [|exact Hfresh].
        apply in_or_app. left. apply in_or_app. right. now left.
      * cbn [map List.length seq order]. f_equal; [lia|].
        rewrite Horders. now rewrite Nat.add_1_r.
      * cbn [List.length]. lia.
    + exists added. repeat split; try assumption. lia.
Qed.


Lemma replace_idem {A} (key : A -> string) (d' : A) (l : list A) :
  let f := fun x => if String.eqb (key x) (key d') then d' else x in
  map f (map f l) = map f l.
Proof.
  cbn zeta. induction l as [|x l IH]; simpl; [reflexivity|]. f_equal; [|assumption].
  destruct (String.eqb (key x) (key d')) eqn:E; [now rewrite String.eqb_refl | now rewrite E].
Qed.

Lemma awardBadges_settled s catalog : forall user,
  (forall b, In b catalog ->
     In (badge_id b) (earnedBadges user) \/ conditionMet s b = false) ->
  awardBadges s user catalog = user.
Proof.
  induction catalog as [|b rest IH]; intros user H; [reflexivity|].
  unfold awardBadges. simpl fold_left. fold (awardBadges s (awardBadge s user b) rest).
  assert (Hb : awardBadge s user b = user).
  { unfold awardBadge. destruct (H b (or_introl eq_refl)) as [Hin | Hno].
    - apply earned_includes in Hin. now rewrite Hin.
    - rewrite Hno. now destruct (existsb _ _). }
  rewrite Hb. apply IH. intros b' Hb'. apply H. now right.
Qed.

(** X10.  Running the badge engine a second time changes nothing:
    whatever the first run stored, every badge whose condition is met is
    then earned, so the second run awards nothing and stores the same
    document; and a run whose save was refused is refused again. *)
Theorem checkAndAwardBadges_idempotent :
  forall arg db,
    checkAndAwardBadges arg (checkAndAwardBadges arg db) = checkAndAwardBadges arg db.
Proof.
  intros [req | s] db; [|reflexivity].
  cbn [checkAndAwardBadges]. destruct (auth_user req) as [uid|]; [|reflexivity].
  destruct (User_findById uid db) as [user|] eqn:Hfind; [|now rewrite Hfind].
  set (stats := userStats db (UserChallenge_find_user uid db)).
  set (user' := awardBadges stats user (badges db)).
  destruct (User_save user' db) as [db1|] eqn:Hsave.
  2:{ rewrite Hfind. fold stats user'. now rewrite Hsave. }
  pose proof Hsave as Hsave0.
  unfold User_save in Hsave. destruct (User_validate user') eqn:Hvalid; [|discriminate].
  injection Hsave as <-.
  assert (Hid : user_id user' = user_id user) by apply awardBadges_user_id.
  assert (Hfind' : User_findById uid
                     (mkDB (userChallenges db)
                        (map (fun x => if String.eqb (user_id x) (user_id user') then user' else x)
                           (users db))
                        (challenges db) (badges db)) = Some user').
  { unfold User_findById in *. simpl.
    apply (find_replace_same user_id) with (d := user); auto.
    rewrite Hid. now apply find_some in Hfind. }
  rewrite Hfind'.
  change (userStats _ (UserChallenge_find_user uid _)) with stats.
  simpl badges.
  assert (Hfix : awardBadges stats user' (badges db) = user').
  { apply awardBadges_settled. intros b Hb.
    destruct (conditionMet stats b) eqn:Hmet; [left | now right].
    destruct (awardBadges_earned stats (badges db) user) as (added & Heq & _ & Hin).
    fold user' in Heq. rewrite Heq. apply in_or_app.
    destruct (in_dec string_dec (badge_id b) (earnedBadges user)) as [Hold | Hnew];
      [now left | right].
    apply Hin. split; [assumption|]. exists b. auto. }
  rewrite Hfix. unfold User_save. rewrite Hvalid. simpl.
  now rewrite (replace_idem user_id user' (users db)).
Qed.



(** X12.  When the caller has a free slot but the number that the
    engine would give it is already among the stored orders, and some
    badge of the catalogue is met and not yet earned, the engine's save
    is refused by the schema and the run awards nothing: the store is
    left as it was. *)
Theorem checkAndAwardBadges_refused_on_taken_slot :
  forall uid db user b,
    User_findById uid db = Some user ->
    (List.length (representativeBadges user) < 4)%nat ->
    In (Z.of_nat (List.length (representativeBadges user)) + 1)
       (map order (representativeBadges user)) ->
    In b (badges db) ->
    ~ In (badge_id b) (earnedBadges user) ->
    conditionMet (userStats db (UserChallenge_find_user uid db)) b = true ->
    checkAndAwardBadges (ArgRequest (mkAuthRequest (Some uid))) db = db.
Proof.
  intros uid db user b Hfind Hfree Htaken Hb Hfresh Hmet.
  set (stats := userStats db (UserChallenge_find_user uid db)) in *.
  set (user' := awardBadges stats user (badges db)).
  destruct (awardBadges_slots stats (badges db) user)
    as (newSlots & Hreps & _ & Horders & Hcount & _).
  cbn zeta in Hreps, Horders, Hcount. fold user' in Hreps, Hcount.
  destruct (awardBadges_earned stats (badges db) user) as (added & Heq & _ & Hin).
  fold user' in Heq.
  assert (Hadded : In (badge_id b) added) by (apply Hin; eauto).
  assert (Hpos : (1 <= List.length added)%nat).
  { destruct added; [destruct Hadded | simpl; lia]. }
  rewrite Heq, List.length_app in Hcount.
  destruct newSlots as [|r more]; [cbn [List.length] in Hcount; lia|].
  simpl in Horders. injection Horders as Hr _.
  destruct (checkAndAwardBadges_stored uid db user Hfind) as (_ & _ & _ & Hrefused).
  apply Hrefused. fold stats user'.
  unfold User_validate. rewrite Hreps.
  replace (distinct _) with false; [now rewrite andb_false_r|].
  symmetry. apply not_true_iff_false. intros Hd. apply distinct_NoDup in Hd.
  rewrite map_app in Hd. simpl in Hd.
  apply List.NoDup_remove_2 in Hd. apply Hd. apply in_or_app. left.
  rewrite Hr. replace (Z.of_nat (S (List.length (representativeBadges user))))
    with (Z.of_nat (List.length (representativeBadges user)) + 1) by lia.
  exact Htaken.
Qed.

Lemma checkAndAwardBadges_refused_on_taken_slot_witness :
  User_findById "u1" storeSlotTwo = Some slotTwoUser
  /\ checkAndAwardBadges (ArgRequest (mkAuthRequest (Some "u1"%string))) storeSlotTwo
     = storeSlotTwo.
Proof.
  split; [reflexivity|].
  apply (checkAndAwardBadges_refused_on_taken_slot "u1"%string storeSlotTwo slotTwoUser
           secondCompletion eq_refl).
  - simpl. lia.
  - simpl. now left.
  - simpl. right. now left.
  - simpl. intros [H | []]. discriminate.
  - reflexivity.
Defined.

(** ** The two ranking endpoints against each other *)

Lemma StronglySorted_split {A} (R : A -> A -> Prop) (l1 l2 : list A) (x : A) :
  StronglySorted R (l1 ++ x :: l2) ->
  Forall (fun y => R y x) l1 /\ Forall (R x) l2.
Proof.
  induction l1 as [|a l1 IH]; simpl; intros H; apply StronglySorted_inv in H as [Hs Ha].
  - split; [constructor | assumption].
  - destruct (IH Hs) as [H1 H2]. split; [|assumption].
    constructor; [|assumption].
    rewrite List.Forall_forall in Ha. apply Ha. apply in_or_app. right. now left.
Qed.

Lemma filter_length_perm {A} (p : A -> bool) (l l' : list A) :
  Permutation l l' -> List.length (List.filter p l) = List.length (List.filter p l').
Proof.
  induction 1 as [|x l l' _ IH|x y l|l l' l'' _ IH1 _ IH2]; simpl.
  - reflexivity.
  - destruct (p x); simpl; congruence.
  - destruct (p x), (p y); reflexivity.
  - congruence.
Qed.

Lemma filter_length_le {A} (p : A -> bool) (l : list A) :
  (List.length (List.filter p l) <= List.length l)%nat.
Proof. induction l as [|x l IH]; simpl; [lia|]. destruct (p x); simpl; lia. Qed.

Lemma filter_all {A} (p : A -> bool) (l : list A) :
  Forall (fun x => p x = true) l -> List.filter p l = l.
Proof. induction 1 as [|x l Hx _ IH]; simpl; [reflexivity|]. now rewrite Hx, IH. Qed.

Lemma filter_nothing {A} (p : A -> bool) (l : list A) :
  Forall (fun x => p x = false) l -> List.filter p l = [].
Proof. induction 1 as [|x l Hx _ IH]; simpl; [reflexivity|]. now rewrite Hx. Qed.

(** Two records with different keys are strictly ordered. *)
Lemma strictlyPrecedes_total t a b :
  sortField t a <> sortField t b -> strictlyPrecedes t a b \/ strictlyPrecedes t b a.
Proof.
  intros Hne. unfold strictlyPrecedes.
  destruct t; cbn [sortField primaryKey firstTieBreak secondTieBreak] in *.
  - destruct (Z.eq_dec (score a) (score b)) as [E1 | N1];
      [destruct (Z.eq_dec (totalCompletions a) (totalCompletions b)) as [E2 | N2]|].
    + exfalso. apply Hne. congruence.
    + assert (totalCompletions a > totalCompletions b \/ totalCompletions b > totalCompletions a)
        as [H | H] by lia; [left | right]; right; left; lia.
    + assert (score a > score b \/ score b > score a) as [H | H] by lia;
        [left | right]; left; lia.
  - destruct (Z.eq_dec (totalCompletions a) (totalCompletions b)) as [E1 | N1];
      [destruct (Z.eq_dec (score a) (score b)) as [E2 | N2]|].
    + exfalso. apply Hne. congruence.
    + assert (score a > score b \/ score b > score a) as [H | H] by lia;
        [left | right]; right; left; lia.
    + assert (totalCompletions a > totalCompletions b \/ totalCompletions b > totalCompletions a)
        as [H | H] by lia; [left | right]; left; lia.
  - destruct (Z.eq_dec (maxStreakCount a) (maxStreakCount b)) as [E1 | N1];
      [destruct (Z.eq_dec (currentStreakCount a) (currentStreakCount b)) as [E2 | N2];
       [destruct (Z.eq_dec (score a) (score b)) as [E3 | N3]|]|].
    + exfalso. apply Hne. congruence.
    + assert (score a > score b \/ score b > score a) as [H | H] by lia;
        [left | right]; right; right; (split; [lia|]); (split; [lia|]);
        eexists _, _; (split; [reflexivity|]); (split; [reflexivity|]); lia.
    + assert (currentStreakCount a > currentStreakCount b
              \/ currentStreakCount b > currentStreakCount a) as [H | H] by lia;
        [left | right]; right; left; lia.
    + assert (maxStreakCount a > maxStreakCount b \/ maxStreakCount b > maxStreakCount a)
        as [H | H] by lia; [left | right]; left; lia.
Qed.

(** [$lookup] and [$unwind] keep a record once when exactly one user
    has its [userId]. *)
Lemma joinedRecords_records cid db :
  (forall uc, In uc (UserChallenge_find_challenge cid db) ->
     exists u, List.filter (fun u => String.eqb (user_id u) (userId uc)) (users db) = [u]) ->
  map fst (joinedRecords cid db) = UserChallenge_find_challenge cid db.
Proof.
  unfold joinedRecords. intros H.
  induction (UserChallenge_find_challenge cid db) as [|uc l IH]; simpl; [reflexivity|].
  rewrite map_app, IH by (intros x Hx; apply H; now right).
  destruct (H uc (or_introl eq_refl)) as [u ->]. reflexivity.
Qed.

Lemma getChallengeRanking_page isValid now req db data :
  getChallengeRanking isValid now req db = RankingOk data ->
  let t := rankingTypeOf (rk_type req) in
  let page := queryNumber (rk_page req) 1 in
  let limit := queryNumber (rk_limit req) 20 in
  0 <= (page - 1) * limit
  /\ 0 < limit
  /\ rankings data
     = rankResults now page limit 0
         (firstn (Z.to_nat limit)
            (skipn (Z.to_nat ((page - 1) * limit))
               (mongoSort t (joinedRecords (rk_challengeId req) db))))
  /\ rk_totalParticipants data
     = Z.of_nat (List.length (UserChallenge_find_challenge (rk_challengeId req) db)).
Proof.
  unfold getChallengeRanking. intros H.
  destruct (negb (isValid (rk_challengeId req))); [discriminate|].
  destruct (Challenge_findById (rk_challengeId req) db); [|discriminate].
  destruct (_ || _) eqn:Hbad; [discriminate|].
  apply orb_false_iff in Hbad as [H1 H2].
  apply Z.ltb_ge in H1. apply Z.leb_gt in H2.
  injection H as <-. cbn zeta. repeat split; assumption.
Qed.

Lemma getMyChallengeRank_data isValid req db data :
  getMyChallengeRank isValid req db = MyRankOk data ->
  let t := rankingTypeOf (my_type req) in
  let records := UserChallenge_find_challenge (my_challengeId req) db in
  UserChallenge_findOne (my_user_id req) (my_challengeId req) db = Some (my_userChallenge data)
  /\ my_rank data
     = Z.of_nat (List.length (List.filter (matchCondition t (my_userChallenge data)) records)) + 1
  /\ my_totalParticipants data = Z.of_nat (List.length records).
Proof.
  unfold getMyChallengeRank. intros H.
  destruct (negb (isValid (my_challengeId req))); [discriminate|].
  destruct (UserChallenge_findOne _ _ db) as [my|]; [|discriminate].
  injection H as <-. cbn zeta. repeat split.
Qed.

(** X13.  The two ranking endpoints agree.  When every record of the
    challenge has exactly one user document, the rank reported to a
    participant is never behind the rank of the participant's entry on
    the leaderboard of the same metric, whatever the page; the two are
    equal when no two records of the challenge tie on all keys; and both
    endpoints report the same number of participants. *)
Theorem my_rank_agrees_with_leaderboard :
  forall (isValid : string -> bool) now cid uid ty page limit db rdata mdata,
    (forall uc, In uc (UserChallenge_find_challenge cid db) ->
       exists u, List.filter (fun u => String.eqb (user_id u) (userId uc)) (users db) = [u]) ->
    getChallengeRanking isValid now (mkRankingRequest cid page limit ty) db = RankingOk rdata ->
    getMyChallengeRank isValid (mkMyRankRequest cid uid ty) db = MyRankOk mdata ->
    my_totalParticipants mdata = rk_totalParticipants rdata
    /\ forall r,
         In r (rankings rdata) ->
         ranked_userChallenge r = my_userChallenge mdata ->
         my_rank mdata <= rank r
         /\ (List.NoDup (map (sortField (rankingTypeOf ty))
                           (UserChallenge_find_challenge cid db)) ->
             my_rank mdata = rank r).
Proof.
  intros isValid now cid uid ty page limit db rdata mdata Husers Hboard Hmine.
  apply getChallengeRanking_page in Hboard. cbn zeta in Hboard.
  cbn [rk_type rk_page rk_limit rk_challengeId] in Hboard.
  destruct Hboard as (Hskip & Hlimit & Hrankings & Htotal).
  apply getMyChallengeRank_data in Hmine. cbn zeta in Hmine.
  cbn [my_type my_user_id my_challengeId] in Hmine.
  destruct Hmine as (_ & Hrank & Htotal').
  split; [congruence|].
  intros r Hr Hsame.
  set (t := rankingTypeOf ty) in *. set (my := my_userChallenge mdata) in *.
  set (records := UserChallenge_find_challenge cid db) in *.
  set (sorted := mongoSort t (joinedRecords cid db)) in *.
  set (skip := (queryNumber page 1 - 1) * queryNumber limit 20) in *.
  apply In_nth_error in Hr as [i Hi]. rewrite Hrankings in Hi.
  apply rankResults_nth in Hi as (x & Hx & Er).
  assert (Hrk : rank r = skip + Z.of_nat i + 1) by (rewrite Er; simpl; lia).
  assert (Hfst : fst x = my) by (rewrite <- Hsame, Er; reflexivity).
  assert (Hnth : nth_error sorted (Z.to_nat skip + i) = Some x).
  { rewrite <- nth_error_skipn.
    destruct (Nat.lt_ge_cases i (Z.to_nat (queryNumber limit 20))) as [Hlt | Hge].
    - now rewrite nth_error_firstn, (proj2 (Nat.ltb_lt _ _) Hlt) in Hx.
    - rewrite nth_error_firstn, (proj2 (Nat.ltb_ge _ _) Hge) in Hx. discriminate. }
  apply nth_error_split in Hnth as (pre & post & Hsplit & Hpre).
  pose proof (mongoSort_sorted t (joinedRecords cid db)) as Hsorted.
  fold sorted in Hsorted. rewrite Hsplit in Hsorted.
  apply StronglySorted_split in Hsorted as [Hbefore Hafter].
  assert (Hperm : Permutation records (map fst sorted)).
  { unfold records. rewrite <- (joinedRecords_records cid db Husers).
    apply Permutation_map, mongoSort_perm. }
  assert (Hcount : List.length (List.filter (matchCondition t my) records)
                   = List.length (List.filter (matchCondition t my) (map fst pre))).
  { rewrite (filter_length_perm _ _ _ Hperm), Hsplit, map_app, List.filter_app. simpl.
    rewrite Hfst, matchCondition_irrefl, List.length_app.
    rewrite (filter_nothing (matchCondition t my) (map fst post)); [simpl; lia|].
    apply Forall_map. eapply List.Forall_impl; [|exact Hafter].
    intros y Hy. cbn beta. apply not_true_iff_false. intros Hm.
    apply matchCondition_spec in Hm. apply Hy. now rewrite Hfst. }
  rewrite Hrank, Hcount, Hrk. split.
  - pose proof (filter_length_le (matchCondition t my) (map fst pre)) as Hle.
    rewrite List.length_map in Hle. lia.
  - intros Hnd.
    assert (Hnd' : List.NoDup (map (sortField t) (map fst sorted))).
    { eapply Permutation_NoDup; [|exact Hnd]. now apply Permutation_map. }
    rewrite Hsplit, !map_app in Hnd'. simpl in Hnd'.
    apply List.NoDup_remove_2 in Hnd'.
    rewrite filter_all, List.length_map; [lia|].
    apply Forall_map. rewrite List.Forall_forall in Hbefore |- *.
    intros y Hy. cbn beta. apply matchCondition_spec.
    destruct (strictlyPrecedes_total t (fst y) my) as [H | H]; [|assumption|].
    + intros E. apply Hnd'. apply in_or_app. left. rewrite Hfst, <- E.
      apply in_map, in_map. exact Hy.
    + exfalso. apply (Hbefore y Hy). now rewrite Hfst.
Qed.

Lemma my_rank_agrees_with_leaderboard_witness :
  exists rdata mdata,
    getChallengeRanking anyId (day 20010) (mkRankingRequest "c1" None None None) leaderboard
    = RankingOk rdata
    /\ getMyChallengeRank anyId (mkMyRankRequest "c1" "ub" None) leaderboard = MyRankOk mdata
    /\ my_totalParticipants mdata = rk_totalParticipants rdata.
Proof.
  eexists _, _. split; [reflexivity|]. split; [reflexivity|].
  refine (proj1 (my_rank_agrees_with_leaderboard anyId (day 20010) "c1"%string "ub"%string
                   None None None leaderboard _ _ _ eq_refl eq_refl)).
  intros uc Hin. vm_compute in Hin.
  destruct Hin as [<- | [<- | []]]; eexists; reflexivity.
Defined.


(** ** The caller's rank as an order *)






(** ** Membership *)

Lemma ChallengeDoc_save_spec d s s' :
  ChallengeDoc_save d s = Some s' ->
  ChallengeDoc_validate d = true
  /\ s' = mkStore (st_userChallenges s) (st_users s)
            (map (fun x => if String.eqb (doc_id x) (doc_id d) then d else x) (st_challenges s))
            (st_badges s).
Proof.
  unfold ChallengeDoc_save. destruct (ChallengeDoc_validate d); [|discriminate].
  intros [= <-]. auto.
Qed.

Lemma ChallengeDoc_find_spec cid s d :
  ChallengeDoc_findById cid s = Some d -> In d (st_challenges s) /\ doc_id d = cid.
Proof.
  unfold ChallengeDoc_findById. intros H. apply find_some in H as [Hin Hid].
  apply String.eqb_eq in Hid. auto.
Qed.

(** The rate update touches nothing but the completion rate of the
    challenge: a property of the documents that does not read the rate
    survives it. *)
Lemma updateCompletionRate_store_keeps (P : ChallengeDoc -> Prop) now cid s :
  (forall d rate,
     P d -> P (mkChallengeDoc (mkChallenge (ch_id (doc_challenge d)) (category (doc_challenge d)) rate)
                 (doc_participants d) (maxParticipants d) (userInfo d))) ->
  Forall P (st_challenges s) ->
  let s' := updateCompletionRate_store now cid s in
  st_userChallenges s' = st_userChallenges s
  /\ st_users s' = st_users s
  /\ st_badges s' = st_badges s
  /\ map doc_id (st_challenges s') = map doc_id (st_challenges s)
  /\ Forall P (st_challenges s').
Proof.
  intros HP Hall. cbn zeta. unfold updateCompletionRate_store.
  destruct (ChallengeDoc_findById cid s) as [d|] eqn:Hfind; [|auto].
  destruct (ChallengeDoc_save _ s) as [s'|] eqn:Hsave; [|auto].
  apply ChallengeDoc_save_spec in Hsave as [_ ->]. simpl.
  apply ChallengeDoc_find_spec in Hfind as [Hin _].
  repeat split.
  - rewrite map_map. apply map_ext. intros x.
    match goal with |- context [String.eqb (doc_id x) ?k] =>
      destruct (String.eqb_spec (doc_id x) k) as [E | _]; [now rewrite E | reflexivity] end.
  - apply (Forall_replace doc_id); [assumption|]. apply HP.
    rewrite List.Forall_forall in Hall. now apply Hall.
Qed.

(** X16.  Joining and leaving respect the capacity of a challenge:
    when no challenge holds more participants than its
    [maxParticipants], none does after a join or a leave, whatever the
    answer. *)
Theorem membership_respects_capacity :
  forall startAt joinAt rateAt freshId cid uid s,
    capacityRespected s ->
    capacityRespected (fst (joinChallenge startAt joinAt rateAt freshId cid uid s))
    /\ capacityRespected (fst (leaveChallenge cid uid s)).
Proof.
  intros startAt joinAt rateAt freshId cid uid s Hcap. unfold capacityRespected in *.
  split.
  - unfold joinChallenge.
    destruct (ChallengeDoc_findById cid s) as [d|] eqn:Hfind; [|assumption].
    destruct (existsb _ (doc_participants d)); [assumption|].
    destruct (Z.geb_spec (Z.of_nat (List.length (doc_participants d))) (maxParticipants d))
      as [Hfull | Hroom]; [assumption|].
    destruct (UserChallenge_insert _ s) as [s1|] eqn:Hins; [|assumption].
    assert (Hdocs1 : st_challenges s1 = st_challenges s).
    { unfold UserChallenge_insert in Hins. destruct (_ || _); [discriminate|].
      now injection Hins as <-. }
    destruct (ChallengeDoc_save _ s1) as [s2|] eqn:Hsave; simpl; [|now rewrite Hdocs1].
    apply ChallengeDoc_save_spec in Hsave as [_ ->].
    apply (updateCompletionRate_store_keeps
             (fun d => Z.of_nat (List.length (doc_participants d)) <= maxParticipants d));
      [auto|]. simpl. rewrite Hdocs1.
    apply (Forall_replace doc_id); [assumption|]. simpl.
    rewrite List.length_app. simpl. lia.
  - unfold leaveChallenge.
    destruct (ChallengeDoc_findById cid s) as [d|] eqn:Hfind; [|assumption].
    apply ChallengeDoc_find_spec in Hfind as [Hin _].
    assert (Hd : Z.of_nat (List.length (doc_participants d)) <= maxParticipants d).
    { rewrite List.Forall_forall in Hcap. now apply Hcap. }
    assert (Hshort : Z.of_nat (List.length
                       (List.filter (fun p => negb (String.eqb (p_userId p) uid))
                          (doc_participants d))) <= maxParticipants d).
    { pose proof (filter_length_le (fun p => negb (String.eqb (p_userId p) uid))
                    (doc_participants d)). lia. }
    destruct (ChallengeDoc_save _ s) as [s1|] eqn:Hsave1; [|assumption].
    apply ChallengeDoc_save_spec in Hsave1 as [_ ->].
    assert (Hcap1 : Forall (fun d => Z.of_nat (List.length (doc_participants d))
                                     <= maxParticipants d)
                      (map (fun x => if String.eqb (doc_id x)
                                          (doc_id (mkChallengeDoc (doc_challenge d)
                                             (List.filter (fun p => negb (String.eqb (p_userId p) uid))
                                                (doc_participants d))
                                             (maxParticipants d) (userInfo d)))
                                     then mkChallengeDoc (doc_challenge d)
                                            (List.filter (fun p => negb (String.eqb (p_userId p) uid))
                                               (doc_participants d))
                                            (maxParticipants d) (userInfo d)
                                     else x) (st_challenges s))).
    { apply (Forall_replace doc_id); assumption. }
    destruct (UserChallenge_findOne uid cid _) as [uc|]; [|exact Hcap1].
    destruct (ChallengeDoc_save _ _) as [s2|] eqn:Hsave2; [|exact Hcap1].
    apply ChallengeDoc_save_spec in Hsave2 as [_ ->]. simpl.
    apply (Forall_replace doc_id); [exact Hcap1 | exact Hshort].
Qed.

Lemma membership_respects_capacity_witness :
  capacityRespected club
  /\ capacityRespected
       (fst (joinChallenge (day 20005) (day 20005) (day 20005) "uc2" "c1" "u2" club)).
Proof.
  assert (H : capacityRespected club).
  { unfold capacityRespected. simpl. repeat constructor. simpl. lia. }
  split; [exact H|].
  exact (proj1 (membership_respects_capacity (day 20005) (day 20005) (day 20005)
                  "uc2"%string "c1"%string "u2"%string club H)).
Defined.

Section KeyedLists.

Context {A : Type} (key : A -> string).

Lemma replace_keys (d' : A) (l : list A) :
  map key (map (fun x => if String.eqb (key x) (key d') then d' else x) l) = map key l.
Proof.
  rewrite map_map. apply map_ext. intros x.
  destruct (String.eqb_spec (key x) (key d')) as [E | _]; [now rewrite E | reflexivity].
Qed.

Lemma replace_self (d : A) (l : list A) :
  List.NoDup (map key l) -> In d l ->
  map (fun x => if String.eqb (key x) (key d) then d else x) l = l.
Proof.
  induction l as [|x l IH]; simpl; intros Hnd Hin; [reflexivity|].
  apply List.NoDup_cons_iff in Hnd as [Hx Hnd].
  destruct Hin as [-> | Hin].
  - rewrite String.eqb_refl. f_equal. now apply replace_absent.
  - rewrite (IH Hnd Hin).
    destruct (String.eqb_spec (key x) (key d)) as [E | _]; [|reflexivity].
    exfalso. apply Hx. rewrite E. now apply in_map.
Qed.

Lemma replace_found (d d' : A) (l : list A) :
  List.NoDup (map key l) -> In d l -> key d' = key d ->
  forall x, In x (map (fun x => if String.eqb (key x) (key d') then d' else x) l) ->
            x = d' \/ (In x l /\ key x <> key d).
Proof.
  intros _ _ Hk x Hx. apply in_map_iff in Hx as (y & <- & Hy).
  destruct (String.eqb_spec (key y) (key d')) as [E | N]; [now left | right].
  split; [assumption | congruence].
Qed.

End KeyedLists.

Lemma NoDup_map_inj {A B} (f : A -> B) (l : list A) (x y : A) :
  List.NoDup (map f l) -> In x l -> In y l -> f x = f y -> x = y.
Proof.
  induction l as [|a l IH]; simpl; intros Hnd Hx Hy E; [destruct Hx|].
  apply List.NoDup_cons_iff in Hnd as [Ha Hnd].
  destruct Hx as [-> | Hx], Hy as [-> | Hy]; auto.
  - exfalso. apply Ha. rewrite E. now apply in_map.
  - exfalso. apply Ha. rewrite <- E. now apply in_map.
Qed.

Lemma NoDup_map_filter {A B} (f : A -> B) (p : A -> bool) (l : list A) :
  List.NoDup (map f l) -> List.NoDup (map f (List.filter p l)).
Proof.
  induction l as [|a l IH]; simpl; intros Hnd; [constructor|].
  apply List.NoDup_cons_iff in Hnd as [Ha Hnd].
  destruct (p a); simpl; [|auto]. constructor; [|auto].
  intros Hin. apply Ha. apply in_map_iff in Hin as (y & E & Hy).
  apply filter_In in Hy as [Hy _]. rewrite <- E. now apply in_map.
Qed.


Lemma deleteFirst_absent p l :
  (forall x, In x l -> p x = false) -> deleteFirst p l = l.
Proof.
  induction l as [|x l IH]; simpl; intros H; [reflexivity|].
  rewrite (H x (or_introl eq_refl)). f_equal. apply IH. intros y Hy. apply H. now right.
Qed.

Lemma deleteFirst_snoc p l x :
  (forall y, In y l -> p y = false) -> p x = true -> deleteFirst p (l ++ [x]) = l.
Proof.
  induction l as [|y l IH]; simpl; intros H Hx; [now rewrite Hx|].
  rewrite (H y (or_introl eq_refl)). f_equal. apply IH; [|assumption].
  intros z Hz. apply H. now right.
Qed.






(** What a successful join has done. *)
Lemma joinChallenge_joined startAt joinAt rateAt freshId cid uid s s' id :
  joinChallenge startAt joinAt rateAt freshId cid uid s = (s', Joined id) ->
  exists d,
    let d' := mkChallengeDoc (doc_challenge d)
                (doc_participants d ++ [mkParticipant uid joinAt])
                (maxParticipants d) (userInfo d ++ [freshId]) in
    ChallengeDoc_findById cid s = Some d
    /\ ~ In uid (map p_userId (doc_participants d))
    /\ Z.of_nat (List.length (doc_participants d)) < maxParticipants d
    /\ ~ In freshId (map uc_id (st_userChallenges s))
    /\ ~ In (uid, cid) (map (fun uc => (userId uc, challengeId uc)) (st_userChallenges s))
    /\ ChallengeDoc_validate d' = true
    /\ id = freshId
    /\ s' = updateCompletionRate_store rateAt cid
              (mkStore (st_userChallenges s ++ [newUserChallenge freshId uid cid startAt])
                 (st_users s)
                 (map (fun x => if String.eqb (doc_id x) (doc_id d') then d' else x)
                    (st_challenges s))
                 (st_badges s)).
Proof.
  unfold joinChallenge.
  destruct (ChallengeDoc_findById cid s) as [d|] eqn:Hfind; [|discriminate].
  destruct (existsb _ (doc_participants d)) eqn:Hjoined; [discriminate|].
  destruct (Z.geb_spec (Z.of_nat (List.length (doc_participants d))) (maxParticipants d))
    as [Hfull | Hroom]; [discriminate|].
  destruct (UserChallenge_insert _ s) as [s1|] eqn:Hins; [|discriminate].
  destruct (ChallengeDoc_save _ s1) as [s2|] eqn:Hsave; [|discriminate].
  intros [= <- <-]. exists d. cbn zeta.
  apply ChallengeDoc_save_spec in Hsave as [Hvalid ->].
  unfold UserChallenge_insert in Hins.
  destruct (existsb _ (st_userChallenges s)) eqn:Hid; [discriminate|].
  destruct (existsb _ (st_userChallenges s)) eqn:Hpair in Hins; [discriminate|].
  simpl in Hins. injection Hins as <-. simpl.
  repeat split; try assumption; try reflexivity.
  - intros Hin. apply in_map_iff in Hin as (p & Hp & Hin).
    apply not_true_iff_false in Hjoined. apply Hjoined, existsb_exists.
    exists p. split; [assumption | now apply String.eqb_eq].
  - intros Hin. apply in_map_iff in Hin as (x & Hx & Hin).
    apply not_true_iff_false in Hid. apply Hid, existsb_exists.
    exists x. split; [assumption | now apply String.eqb_eq].
  - intros Hin. apply in_map_iff in Hin as (x & Hx & Hin). injection Hx as Hu Hc.
    apply not_true_iff_false in Hpair. apply Hpair, existsb_exists.
    exists x. split; [assumption|]. simpl. now rewrite Hu, Hc, !String.eqb_refl.
Qed.

Lemma docConsistent_rate records d rate :
  docConsistent records d ->
  ChallengeDoc_validate
    (mkChallengeDoc (mkChallenge (ch_id (doc_challenge d)) (category (doc_challenge d)) rate)
       (doc_participants d) (maxParticipants d) (userInfo d)) = true ->
  docConsistent records
    (mkChallengeDoc (mkChallenge (ch_id (doc_challenge d)) (category (doc_challenge d)) rate)
       (doc_participants d) (maxParticipants d) (userInfo d)).
Proof. intros (_ & Hp & Hi) Hv. repeat split; assumption. Qed.

Lemma updateCompletionRate_store_consistent now cid s :
  storeConsistent s -> storeConsistent (updateCompletionRate_store now cid s).
Proof.
  intros (Hid & Hpair & Hdoc & Hall). unfold updateCompletionRate_store.
  destruct (ChallengeDoc_findById cid s) as [d|] eqn:Hfind; [|repeat split; assumption].
  destruct (ChallengeDoc_save _ s) as [s'|] eqn:Hsave; [|repeat split; assumption].
  apply ChallengeDoc_save_spec in Hsave as [Hvalid ->].
  apply ChallengeDoc_find_spec in Hfind as [Hin _].
  unfold storeConsistent. simpl. repeat split; try assumption.
  - match goal with |- context [map doc_id (map (fun x => if String.eqb (doc_id x) (doc_id ?d') then _ else _) _)] =>
      rewrite (replace_keys doc_id d') end. assumption.
  - apply (Forall_replace doc_id); [assumption|].
    apply docConsistent_rate; [|assumption].
    rewrite List.Forall_forall in Hall. now apply Hall.
Qed.

(** A join keeps the store consistent. *)
Lemma joinChallenge_consistent :
  forall startAt joinAt rateAt freshId cid uid s,
    storeConsistent s ->
    storeConsistent (fst (joinChallenge startAt joinAt rateAt freshId cid uid s)).
Proof.
  intros startAt joinAt rateAt freshId cid uid s Hs.
  destruct (joinChallenge startAt joinAt rateAt freshId cid uid s) as [s' resp] eqn:Hjoin.
  assert (Hcases : (exists id, resp = Joined id) \/ s' = s
                   \/ exists d, ChallengeDoc_findById cid s = Some d
                                /\ ChallengeDoc_validate
                                     (mkChallengeDoc (doc_challenge d)
                                        (doc_participants d ++ [mkParticipant uid joinAt])
                                        (maxParticipants d) (userInfo d ++ [freshId])) = false).
  { revert Hjoin. unfold joinChallenge.
    destruct (ChallengeDoc_findById cid s) as [d|]; [|intros [= <- _]; auto].
    destruct (existsb _ _); [intros [= <- _]; auto|].
    destruct (_ >=? _); [intros [= <- _]; auto|].
    destruct (UserChallenge_insert _ s) as [s1|]; [|intros [= <- _]; auto].
    destruct (ChallengeDoc_save _ s1) as [s2|] eqn:Hsave; [intros [= _ <-]; eauto|].
    intros _. right. right. exists d. split; [reflexivity|].
    unfold ChallengeDoc_save in Hsave. now destruct (ChallengeDoc_validate _). }
  simpl. destruct Hcases as [[id ->] | [-> | (d & Hfind & Hinvalid)]]; [|assumption|].
  2:{ exfalso. destruct Hs as (_ & _ & _ & Hall).
      apply ChallengeDoc_find_spec in Hfind as [Hin _].
      rewrite List.Forall_forall in Hall. destruct (Hall d Hin) as (Hv & _).
      unfold ChallengeDoc_validate in *. simpl in Hinvalid. congruence. }
  apply joinChallenge_joined in Hjoin as (d & Hjoin). cbn zeta in Hjoin.
  destruct Hjoin as (Hfind & Hnew & Hroom & Hfresh & Hpairfresh & Hvalid & _ & ->).
  apply updateCompletionRate_store_consistent.
  destruct Hs as (Hid & Hpair & Hdoc & Hall).
  apply ChallengeDoc_find_spec in Hfind as [Hin Hcid].
  unfold storeConsistent. simpl. repeat split.
  - rewrite map_app. simpl. apply List.NoDup_app; repeat split;
      [assumption | repeat constructor; auto | ].
    intros x Hx [<- | []]. contradiction.
  - rewrite map_app. simpl. apply List.NoDup_app; repeat split;
      [assumption | repeat constructor; auto | ].
    intros x Hx [<- | []]. contradiction.
  - match goal with |- context [map doc_id (map (fun x => if String.eqb (doc_id x) (doc_id ?d') then _ else _) _)] =>
      rewrite (replace_keys doc_id d') end. assumption.
  - rewrite List.Forall_forall in Hall |- *. intros x Hx.
    apply in_map_iff in Hx as (y & <- & Hy).
    destruct (Hall y Hy) as (Hvy & Hpy & Hiy).
    unfold doc_id at 2. simpl. fold (doc_id d). rewrite Hcid.
    destruct (String.eqb_spec (doc_id y) cid) as [E | N].
    + destruct (Hall d Hin) as (_ & Hpd & Hid').
      unfold docConsistent. cbn zeta. unfold doc_id at 1 2. simpl. fold (doc_id d).
      rewrite Hcid in *. rewrite List.filter_app. simpl. rewrite String.eqb_refl.
      rewrite !map_app, Hpd, Hid'. repeat split; assumption.
    + unfold docConsistent in *. cbn zeta in *. rewrite List.filter_app. simpl.
      destruct (String.eqb_spec cid (doc_id y)) as [E | _]; [congruence|].
      rewrite app_nil_r. repeat split; assumption.
Qed.

Lemma club_consistent : storeConsistent club.
Proof.
  unfold storeConsistent, club. simpl.
  repeat split; repeat constructor; simpl; intuition discriminate.
Qed.

(** What a leave does to a consistent store. *)
Lemma leaveChallenge_cases cid uid s :
  storeConsistent s ->
  let out := leaveChallenge cid uid s in
  (ChallengeDoc_findById cid s = None /\ out = (s, LeaveChallengeNotFound))
  \/ (exists d,
        ChallengeDoc_findById cid s = Some d
        /\ UserChallenge_findOne uid cid (dbOf s) = None
        /\ ~ In uid (map p_userId (doc_participants d))
        /\ out = (s, LeaveUserChallengeNotFound))
  \/ (exists d uc,
        let d' := mkChallengeDoc (doc_challenge d)
                    (List.filter (fun p => negb (String.eqb (p_userId p) uid))
                       (doc_participants d))
                    (maxParticipants d)
                    (List.filter (fun info => negb (String.eqb info (uc_id uc))) (userInfo d)) in
        ChallengeDoc_findById cid s = Some d
        /\ UserChallenge_findOne uid cid (dbOf s) = Some uc
        /\ In uid (map p_userId (doc_participants d))
        /\ out = (mkStore
                    (deleteFirst (fun uc => String.eqb (userId uc) uid
                                            && String.eqb (challengeId uc) cid)
                       (st_userChallenges s))
                    (st_users s)
                    (map (fun x => if String.eqb (doc_id x) cid then d' else x) (st_challenges s))
                    (st_badges s),
                  LeftChallenge)).
Proof.
  intros (Hid & Hpair & Hdoc & Hall). cbn zeta.
  remember (leaveChallenge cid uid s) as out eqn:Hout. unfold leaveChallenge in Hout.
  destruct (ChallengeDoc_findById cid s) as [d|] eqn:Hfind; [right | left; auto].
  pose proof (ChallengeDoc_find_spec _ _ _ Hfind) as [Hin Hcid].
  rewrite List.Forall_forall in Hall. destruct (Hall d Hin) as (Hvalid & Hparts & Hinfo).
  rewrite Hcid in Hparts, Hinfo.
  set (recs := List.filter (fun uc => String.eqb (challengeId uc) cid) (st_userChallenges s)) in *.
  assert (Hmember : forall x, UserChallenge_findOne uid cid (dbOf s) = x ->
            match x with
            | Some uc => In uc recs /\ userId uc = uid
            | None => ~ In uid (map userId recs)
            end).
  { intros x <-. unfold UserChallenge_findOne. simpl.
    destruct (find _ (st_userChallenges s)) as [uc|] eqn:Hf.
    - apply find_some in Hf as [Hi Hp]. apply andb_true_iff in Hp as [Hu Hc].
      apply String.eqb_eq in Hu. split; [|assumption]. apply filter_In. auto.
    - intros Hi. apply in_map_iff in Hi as (y & Hy & Hi). apply filter_In in Hi as [Hi Hc].
      pose proof (find_none _ _ Hf y Hi) as Hn. simpl in Hn.
      rewrite Hy, String.eqb_refl, Hc in Hn. discriminate. }
  unfold ChallengeDoc_save at 1 in Hout.
  unfold ChallengeDoc_validate at 1 in Hout. simpl doc_challenge in Hout.
  simpl maxParticipants in Hout.
  unfold ChallengeDoc_validate in Hvalid. rewrite Hvalid in Hout. cbv beta iota in Hout.
  match type of Hout with context [UserChallenge_findOne uid cid (dbOf ?s1)] =>
    change (UserChallenge_findOne uid cid (dbOf s1))
      with (UserChallenge_findOne uid cid (dbOf s)) in Hout end.
  destruct (UserChallenge_findOne uid cid (dbOf s)) as [uc|] eqn:Hone.
  - right. specialize (Hmember _ eq_refl) as [Hrec Hu].
    exists d, uc. cbn zeta.
    assert (Huid : In uid (map p_userId (doc_participants d))).
    { rewrite Hparts, <- Hu. now apply in_map. }
    repeat split; try assumption.
    unfold ChallengeDoc_save, ChallengeDoc_validate in Hout.
    cbn [doc_challenge maxParticipants] in Hout.
    rewrite Hvalid in Hout. cbv beta iota in Hout.
    cbn [st_userChallenges st_users st_challenges st_badges] in Hout. rewrite Hout.
    f_equal. f_equal. rewrite map_map. apply map_ext. intros x.
    assert (Hkey : forall a b c, doc_id (mkChallengeDoc (doc_challenge d) a b c) = cid)
      by (intros; exact Hcid).
    rewrite !Hkey.
    destruct (String.eqb_spec (doc_id x) cid) as [E | N].
    + now rewrite Hkey, String.eqb_refl.
    + now rewrite (proj2 (String.eqb_neq _ _) N).
  - left. specialize (Hmember _ eq_refl). exists d.
    assert (Hno : ~ In uid (map p_userId (doc_participants d))) by now rewrite Hparts.
    repeat split; try assumption. rewrite Hout.
    f_equal. destruct s as [ucs us docs bs]. simpl in *. f_equal.
    assert (Hsame : List.filter (fun p => negb (String.eqb (p_userId p) uid)) (doc_participants d)
                    = doc_participants d).
    { apply filter_all. apply List.Forall_forall. intros p Hp.
      apply negb_true_iff, String.eqb_neq. intros E. apply Hno. rewrite <- E. now apply in_map. }
    rewrite Hsame.
    replace (mkChallengeDoc (doc_challenge d) (doc_participants d) (maxParticipants d) (userInfo d))
      with d by (now destruct d).
    now apply (replace_self doc_id).
Qed.



Lemma find_snoc {A} (p : A -> bool) (l : list A) (x : A) :
  (forall y, In y l -> p y = false) -> p x = true -> find p (l ++ [x]) = Some x.
Proof.
  induction l as [|y l IH]; simpl; intros H Hx; [now rewrite Hx|].
  rewrite (H y (or_introl eq_refl)). apply IH; [|assumption]. intros z Hz. apply H. now right.
Qed.

Lemma updateCompletionRate_store_records now cid s :
  st_userChallenges (updateCompletionRate_store now cid s) = st_userChallenges s
  /\ st_users (updateCompletionRate_store now cid s) = st_users s
  /\ st_badges (updateCompletionRate_store now cid s) = st_badges s.
Proof.
  destruct (updateCompletionRate_store_keeps (fun _ => True) now cid s)
    as (H1 & H2 & H3 & _); auto.
  apply List.Forall_forall. auto.
Qed.

(** The record of the caller after a join is the fresh one. *)
Lemma joinChallenge_record startAt joinAt rateAt freshId cid uid s s' id :
  joinChallenge startAt joinAt rateAt freshId cid uid s = (s', Joined id) ->
  st_userChallenges s' = st_userChallenges s ++ [newUserChallenge freshId uid cid startAt]
  /\ st_users s' = st_users s
  /\ st_badges s' = st_badges s
  /\ UserChallenge_findOne uid cid (dbOf s') = Some (newUserChallenge freshId uid cid startAt)
  /\ (forall y, In y (st_userChallenges s) ->
        String.eqb (userId y) uid && String.eqb (challengeId y) cid = false).
Proof.
  intros Hjoin. apply joinChallenge_joined in Hjoin as (d & Hjoin). cbn zeta in Hjoin.
  destruct Hjoin as (_ & _ & _ & _ & Hpair & _ & _ & ->).
  destruct (updateCompletionRate_store_records rateAt cid
              (mkStore (st_userChallenges s ++ [newUserChallenge freshId uid cid startAt])
                 (st_users s)
                 (map (fun x => if String.eqb (doc_id x)
                                     (doc_id (mkChallengeDoc (doc_challenge d)
                                                (doc_participants d ++ [mkParticipant uid joinAt])
                                                (maxParticipants d) (userInfo d ++ [freshId])))
                                then mkChallengeDoc (doc_challenge d)
                                       (doc_participants d ++ [mkParticipant uid joinAt])
                                       (maxParticipants d) (userInfo d ++ [freshId])
                                else x) (st_challenges s))
                 (st_badges s))) as (Hucs & Hus & Hbs).
  simpl in Hucs, Hus, Hbs.
  assert (Hnone : forall y, In y (st_userChallenges s) ->
            String.eqb (userId y) uid && String.eqb (challengeId y) cid = false).
  { intros y Hy. apply not_true_iff_false. intros Hp.
    apply andb_true_iff in Hp as [Hu Hc]. apply String.eqb_eq in Hu, Hc.
    apply Hpair. apply in_map_iff. exists y. split; [now rewrite Hu, Hc | assumption]. }
  repeat split; try assumption.
  unfold UserChallenge_findOne. simpl userChallenges. rewrite Hucs.
  apply find_snoc; [exact Hnone|]. simpl. now rewrite !String.eqb_refl.
Qed.



(** X19.  A new participant starts from zero and can complete at
    once: after a join answered 200 the caller's progress record is the
    fresh one, with no completion, and (the stored users being valid) a
    completion request with a photo is answered 200 with a score of 10,
    one completion and a streak of 1. *)
Theorem joinChallenge_then_completeChallenge :
  forall startAt joinAt rateAt freshId cid uid s s' id now now' file,
    joinChallenge startAt joinAt rateAt freshId cid uid s = (s', Joined id) ->
    usersValid (dbOf s) ->
    let fresh := newUserChallenge freshId uid cid startAt in
    UserChallenge_findOne uid cid (dbOf s') = Some fresh
    /\ recordConsistent fresh
    /\ streakExact fresh
    /\ In fresh (getTodayCompletableChallenges now uid (dbOf s'))
    /\ exists data,
         snd (completeChallenge now now' (mkCompleteRequest cid uid (Some file)) (dbOf s'))
         = Completed data
         /\ r_score data = 10
         /\ r_totalCompletions data = 1
         /\ r_currentStreakCount data = 1
         /\ r_maxStreakCount data = 1.
Proof.
  intros startAt joinAt rateAt freshId cid uid s s' id now now' file Hjoin Hv fresh.
  destruct (joinChallenge_record _ _ _ _ _ _ _ _ _ Hjoin) as (Hucs & Hus & _ & Hfind & _).
  fold fresh in Hucs, Hfind.
  assert (Hv' : usersValid (dbOf s')) by (unfold usersValid in *; simpl in *; now rewrite Hus).
  split; [exact Hfind|]. split; [|split; [|split]].
  - unfold recordConsistent, fresh. simpl.
    repeat split; try lia; try constructor.
  - unfold streakExact, fresh. simpl. repeat split; constructor.
  - unfold getTodayCompletableChallenges. apply filter_In. split; [|reflexivity].
    unfold UserChallenge_find_user. apply filter_In.
    unfold UserChallenge_findOne in Hfind. apply find_some in Hfind as [Hin Hp].
    apply andb_true_iff in Hp as [Hu _]. auto.
  - set (req := mkCompleteRequest cid uid (Some file)).
    destruct (completeChallenge_step now now' req (dbOf s') file fresh eq_refl Hfind Hv')
      as [[Hin _] | [_ (db' & data & Hout & _ & _ & Hscore & Htotal)]]; [destruct Hin|].
    exists data. rewrite Hout. split; [reflexivity|].
    destruct (completeChallenge_outcome now now' req (dbOf s'))
      as (_ & _ & _ & [[_ Hno] | (file0 & uc & Hnew)]).
    { exfalso. apply (Hno data). now rewrite Hout. }
    cbn zeta in Hnew. destruct Hnew as (Hfile & Hfind0 & _ & _ & Hdata).
    simpl in Hfind0. rewrite Hfind in Hfind0. injection Hfind0 as <-.
    rewrite Hout in Hdata. destruct (Hdata data eq_refl) as (_ & _ & Hcur & Hmax & _).
    rewrite Hscore, Htotal, Hcur, Hmax. unfold applyCompletion, fresh. simpl.
    destruct (_ || false); repeat split; reflexivity.
Qed.

Lemma joinChallenge_then_completeChallenge_witness :
  exists data,
    snd (completeChallenge (day 20006) (day 20006) (mkCompleteRequest "c1" "u2" (Some photo))
           (dbOf (fst (joinChallenge (day 20005) (day 20005) (day 20005) "uc2" "c1" "u2" club))))
    = Completed data
    /\ r_score data = 10.
Proof.
  assert (Hv : usersValid (dbOf club)) by (repeat constructor).
  destruct (joinChallenge_then_completeChallenge (day 20005) (day 20005) (day 20005)
              "uc2"%string "c1"%string "u2"%string club _ _ (day 20006) (day 20006) photo
              eq_refl Hv) as (_ & _ & _ & _ & data & Hout & Hscore & _).
  exists data. split; assumption.
Defined.

(** The rate update as a map over the challenges: with distinct
    [_id]s it changes nothing that [membersOf] shows. *)
Lemma updateCompletionRate_store_docs now cid s :
  List.NoDup (map doc_id (st_challenges s)) ->
  exists g,
    st_challenges (updateCompletionRate_store now cid s) = map g (st_challenges s)
    /\ forall x, In x (st_challenges s) ->
         membersOf (g x) = membersOf x.
Proof.
  intros Hnd. unfold updateCompletionRate_store.
  destruct (ChallengeDoc_findById cid s) as [d|] eqn:Hfind;
    [|exists (fun x => x); split; [now rewrite map_id | reflexivity]].
  destruct (ChallengeDoc_save _ s) as [s'|] eqn:Hsave;
    [|exists (fun x => x); split; [now rewrite map_id | reflexivity]].
  apply ChallengeDoc_save_spec in Hsave as [_ ->].
  apply ChallengeDoc_find_spec in Hfind as [Hin Hcid].
  eexists. split; [reflexivity|]. intros x Hx. cbn beta.
  match goal with |- context [String.eqb (doc_id x) ?k] =>
    destruct (String.eqb_spec (doc_id x) k) as [E | _]; [|reflexivity] end.
  change (doc_id x = doc_id d) in E.
  now rewrite (NoDup_map_inj doc_id _ x d Hnd Hx Hin E).
Qed.

Lemma filter_snoc_out {A} (p : A -> bool) (l : list A) (x : A) :
  Forall (fun y => p y = true) l -> p x = false -> List.filter p (l ++ [x]) = l.
Proof.
  intros Hl Hx. rewrite List.filter_app. simpl. rewrite Hx, app_nil_r. now apply filter_all.
Qed.

(** X20.  Joining and then leaving is a round trip on a consistent
    store: the leave is answered 200 and the progress records, the
    users, the badges and, in every challenge, the participants, the
    capacity and [userInfo] are as before the join.  The challenges
    themselves are as the join left them: the completion rate computed
    at the join, with the new participant counted, is not recomputed. *)
Theorem joinChallenge_then_leaveChallenge :
  forall startAt joinAt rateAt freshId cid uid s s1 id,
    storeConsistent s ->
    joinChallenge startAt joinAt rateAt freshId cid uid s = (s1, Joined id) ->
    let out := leaveChallenge cid uid s1 in
    snd out = LeftChallenge
    /\ st_userChallenges (fst out) = st_userChallenges s
    /\ st_users (fst out) = st_users s
    /\ st_badges (fst out) = st_badges s
    /\ map membersOf (st_challenges (fst out)) = map membersOf (st_challenges s)
    /\ map doc_challenge (st_challenges (fst out)) = map doc_challenge (st_challenges s1).
Proof.
  intros startAt joinAt rateAt freshId cid uid s s1 id Hs Hjoin out.
  pose proof (joinChallenge_consistent startAt joinAt rateAt freshId cid uid s Hs) as Hs1.
  rewrite Hjoin in Hs1. simpl in Hs1.
  destruct (joinChallenge_record _ _ _ _ _ _ _ _ _ Hjoin) as (Hucs & Hus & Hbs & Hone & Hnone).
  apply joinChallenge_joined in Hjoin as (d & Hjoin). cbn zeta in Hjoin.
  destruct Hjoin as (Hfind & Hnew & _ & Hfresh & _ & _ & _ & Hs1eq).
  destruct Hs as (Hid & Hpair & Hdoc & Hall).
  pose proof (ChallengeDoc_find_spec _ _ _ Hfind) as [Hin Hcid].
  rewrite List.Forall_forall in Hall. destruct (Hall d Hin) as (_ & _ & Hinfo).
  set (d' := mkChallengeDoc (doc_challenge d)
               (doc_participants d ++ [mkParticipant uid joinAt])
               (maxParticipants d) (userInfo d ++ [freshId])) in *.
  set (f1 := fun x => if String.eqb (doc_id x) (doc_id d') then d' else x) in *.
  assert (Hkeys2 : map doc_id (map f1 (st_challenges s)) = map doc_id (st_challenges s))
    by apply (replace_keys doc_id d').
  destruct (updateCompletionRate_store_docs rateAt cid
              (mkStore (st_userChallenges s ++ [newUserChallenge freshId uid cid startAt])
                 (st_users s) (map f1 (st_challenges s)) (st_badges s)))
    as (g & Hdocs1 & Hg); [simpl; now rewrite Hkeys2|].
  rewrite <- Hs1eq in Hdocs1. simpl in Hdocs1, Hg.
  assert (Hgid : forall x, In x (map f1 (st_challenges s)) -> doc_id (g x) = doc_id x).
  { intros x Hx. specialize (Hg x Hx). unfold membersOf in Hg. congruence. }
  assert (Hf1 : forall y, In y (st_challenges s) ->
            (doc_id y = cid /\ y = d /\ f1 y = d') \/ (doc_id y <> cid /\ f1 y = y)).
  { intros y Hy. unfold f1. change (doc_id d') with (doc_id d). rewrite Hcid.
    destruct (String.eqb_spec (doc_id y) cid) as [E | N]; [left | right; auto].
    repeat split; try assumption.
    apply (NoDup_map_inj doc_id _ y d Hdoc Hy Hin). congruence. }
  destruct (leaveChallenge_cases cid uid s1 Hs1)
    as [[Hnone1 _] | [(d1 & _ & Hone1 & _) | (d1 & uc & Hleft)]].
  - exfalso. unfold ChallengeDoc_findById in Hnone1. rewrite Hdocs1 in Hnone1.
    pose proof (find_none _ _ Hnone1 (g (f1 d))) as Hn.
    assert (Hgin : In (g (f1 d)) (map g (map f1 (st_challenges s))))
      by (apply in_map, in_map; exact Hin).
    specialize (Hn Hgin). cbn beta in Hn.
    rewrite Hgid in Hn by (apply in_map; exact Hin).
    destruct (Hf1 d Hin) as [(_ & _ & E) | [N _]]; [|contradiction].
    rewrite E in Hn. change (doc_id d') with (doc_id d) in Hn.
    rewrite Hcid, String.eqb_refl in Hn. discriminate.
  - congruence.
  - cbn zeta in Hleft. destruct Hleft as (Hfind1 & Hone1' & _ & Hout).
    fold out in Hout. rewrite Hout. cbn [fst snd].
    rewrite Hone in Hone1'. injection Hone1' as <-.
    cbn [uc_id newUserChallenge].
    apply ChallengeDoc_find_spec in Hfind1 as [Hin1 Hcid1].
    rewrite Hdocs1 in Hin1. apply in_map_iff in Hin1 as (x2 & Hx2 & Hx2in).
    pose proof (Hg x2 Hx2in) as Hm1. rewrite Hx2 in Hm1.
    apply in_map_iff in Hx2in as (y0 & Hy0 & Hy0in).
    assert (Hx2d : x2 = d').
    { destruct (Hf1 y0 Hy0in) as [(_ & _ & E) | [N E]]; [congruence|].
      exfalso. apply N. rewrite <- Hcid1. unfold membersOf in Hm1.
      injection Hm1 as Hm1 _ _ _. rewrite Hm1, <- Hy0, E. reflexivity. }
    rewrite Hx2d in Hm1. unfold membersOf in Hm1. injection Hm1 as _ Hparts1 Hmax1 Hinfo1.
    simpl in Hparts1, Hmax1, Hinfo1.
    assert (Hback : List.filter (fun p => negb (String.eqb (p_userId p) uid)) (doc_participants d1)
                    = doc_participants d).
    { rewrite Hparts1. apply filter_snoc_out; [|simpl; now rewrite String.eqb_refl].
      apply List.Forall_forall. intros p Hp. apply negb_true_iff, String.eqb_neq.
      intros E. apply Hnew. rewrite <- E. now apply in_map. }
    assert (Hinfoback : List.filter (fun info => negb (String.eqb info freshId)) (userInfo d1)
                        = userInfo d).
    { rewrite Hinfo1. apply filter_snoc_out; [|simpl; now rewrite String.eqb_refl].
      apply List.Forall_forall. intros i Hi. apply negb_true_iff, String.eqb_neq.
      intros E. apply Hfresh. rewrite <- E. rewrite Hinfo in Hi.
      apply in_map_iff in Hi as (r & Hr & Hrin). apply filter_In in Hrin as [Hrin _].
      rewrite <- Hr. now apply in_map. }
    rewrite Hback, Hinfoback, Hmax1, Hucs, Hus, Hbs.
    cbn [st_userChallenges st_users st_challenges st_badges].
    repeat split.
    + apply deleteFirst_snoc; [exact Hnone|]. simpl. now rewrite !String.eqb_refl.
    + rewrite Hdocs1, !map_map. apply map_ext_in. intros y Hy.
      assert (Hy2 : In (f1 y) (map f1 (st_challenges s))) by now apply in_map.
      rewrite (Hgid _ Hy2).
      destruct (Hf1 y Hy) as [(E & -> & Ed) | [N E]].
      * rewrite Ed. change (doc_id d') with (doc_id d). rewrite Hcid, String.eqb_refl.
        unfold membersOf. cbn [doc_participants maxParticipants userInfo].
        do 3 f_equal. change (doc_id d1 = doc_id d). congruence.
      * rewrite E in Hy2 |- *. rewrite (proj2 (String.eqb_neq _ _) N).
        exact (Hg _ Hy2).
    + rewrite !map_map. apply map_ext_in. intros x Hx.
      destruct (String.eqb_spec (doc_id x) cid) as [E | N]; [|reflexivity].
      simpl. f_equal.
      destruct Hs1 as (_ & _ & Hdoc1 & _).
      assert (Hd1in : In d1 (st_challenges s1)).
      { rewrite Hdocs1. rewrite <- Hx2. apply in_map. rewrite <- Hy0. apply in_map. exact Hy0in. }
      apply (NoDup_map_inj doc_id _ d1 x Hdoc1 Hd1in Hx). congruence.
Qed.

Lemma joinChallenge_then_leaveChallenge_witness :
  storeConsistent club
  /\ st_userChallenges
       (fst (leaveChallenge "c1" "u2"
               (fst (joinChallenge (day 20005) (day 20005) (day 20005) "uc2" "c1" "u2" club))))
     = st_userChallenges club.
Proof.
  split; [exact club_consistent|].
  exact (proj1 (proj2 (joinChallenge_then_leaveChallenge (day 20005) (day 20005) (day 20005)
                         "uc2"%string "c1"%string "u2"%string club _ _ club_consistent
                         eq_refl))).
Defined.
(** ** Rejections and partial effects of the completion recorder *)

(** X21.  The three rejections of a completion request, in the order
    of the checks: no photo is answered "photo required" whether or not
    a record exists; a photo without a progress record is answered "not
    found"; a photo with a record that already holds today's UTC
    midnight is answered "already completed today".  Each of them leaves
    the store as it was. *)
Theorem completeChallenge_rejections :
  forall now now' req db,
    let out := completeChallenge now now' req db in
    let record := UserChallenge_findOne (req_user_id req) (params_id req) db in
    (snd out = PhotoRequired <-> req_file req = None)
    /\ (snd out = UserChallengeNotFound <-> req_file req <> None /\ record = None)
    /\ (snd out = AlreadyCompletedToday <->
        req_file req <> None
        /\ exists uc, record = Some uc /\ In (utcMidnight now) (completedDates uc))
    /\ (snd out = PhotoRequired \/ snd out = UserChallengeNotFound
        \/ snd out = AlreadyCompletedToday -> fst out = db).
Proof.
  intros now now' req db. cbn zeta. unfold completeChallenge.
  destruct (req_file req) as [file|].
  2:{ simpl. repeat split; try discriminate; try tauto;
        intros [H _]; now contradiction H. }
  destruct (UserChallenge_findOne _ _ db) as [uc|].
  2:{ simpl. repeat split; try discriminate; try tauto;
        intros (_ & uc & [=] & _). }
  destruct (alreadyCompleted (utcMidnight now) uc) eqn:Hdone.
  { apply alreadyCompleted_In in Hdone.
    simpl. repeat split; try discriminate; try tauto;
      first [intros [_ [=]] | exists uc; auto]. }
  assert (Hnin : ~ In (utcMidnight now) (completedDates uc)).
  { intros Hin. apply alreadyCompleted_In in Hin. congruence. }
  assert (Hresp : forall r, snd (match applyTrustScore (req_user_id req)
                                         (currentStreakCount
                                            (applyCompletion (utcMidnight now)
                                               ("/uploads/completions/" ++ filename file)%string uc))
                                         (UserChallenge_save
                                            (applyCompletion (utcMidnight now)
                                               ("/uploads/completions/" ++ filename file)%string uc)
                                            db)
                                 with
                                 | Some (db2, increase) =>
                                     match updateGrade (req_user_id req)
                                             (checkAndAwardBadges (ArgString (req_user_id req)) db2)
                                     with
                                     | Some (db4, _) =>
                                         (updateCompletionRate now' (params_id req) db4,
                                          Completed
                                            (completionData (req_user_id req)
                                               (applyCompletion (utcMidnight now)
                                                  ("/uploads/completions/" ++ filename file)%string
                                                  uc)
                                               (utcMidnight now)
                                               ("/uploads/completions/" ++ filename file)%string
                                               increase
                                               (updateCompletionRate now' (params_id req) db4)))
                                     | None =>
                                         (checkAndAwardBadges (ArgString (req_user_id req)) db2,
                                          ServerError)
                                     end
                                 | None =>
                                     (UserChallenge_save
                                        (applyCompletion (utcMidnight now)
                                           ("/uploads/completions/" ++ filename file)%string uc)
                                        db, ServerError)
                                 end) = r ->
                     r <> PhotoRequired /\ r <> UserChallengeNotFound
                     /\ r <> AlreadyCompletedToday).
  { intros r <-. destruct (applyTrustScore _ _ _) as [[db2 inc]|];
      [destruct (updateGrade _ _) as [[db4 saved]|]|]; simpl; repeat split; discriminate. }
  cbv zeta. specialize (Hresp _ eq_refl). destruct Hresp as (H1 & H2 & H3).
  repeat split; try contradiction; try (intros H; contradiction); try discriminate;
    first [ intros [_ [=]]
          | intros (_ & uc0 & [= <-] & Hin); contradiction
          | intros [H | [H | H]]; contradiction ].
Qed.

(** X22.  A completion is not atomic.  When the caller's user
    document does not pass the schema (it can have been written around
    the validators), the request is answered 500, yet the completion is
    already stored: the record holds today's date, and a repeated
    request on the same UTC day is answered "already completed today". *)
Theorem completeChallenge_stored_before_failure :
  forall now now' req db file uc user,
    req_file req = Some file ->
    UserChallenge_findOne (req_user_id req) (params_id req) db = Some uc ->
    ~ In (utcMidnight now) (completedDates uc) ->
    User_findById (req_user_id req) db = Some user ->
    User_validate user = false ->
    let uc' := applyCompletion (utcMidnight now)
                 ("/uploads/completions/" ++ filename file)%string uc in
    completeChallenge now now' req db = (UserChallenge_save uc' db, ServerError)
    /\ UserChallenge_findOne (req_user_id req) (params_id req) (UserChallenge_save uc' db)
       = Some uc'
    /\ forall now2 now2',
         utcMidnight now2 = utcMidnight now ->
         completeChallenge now2 now2' req (UserChallenge_save uc' db)
         = (UserChallenge_save uc' db, AlreadyCompletedToday).
Proof.
  intros now now' req db file uc user Hfile Hfind Hnin Huser Hbad uc'.
  assert (Hfind' : UserChallenge_findOne (req_user_id req) (params_id req)
                     (UserChallenge_save uc' db) = Some uc').
  { unfold UserChallenge_findOne in *. simpl.
    pose proof (find_some _ _ Hfind) as [_ Hp].
    exact (find_replace_same uc_id _ uc uc' _ Hfind eq_refl Hp). }
  split; [|split; [exact Hfind'|]].
  - unfold completeChallenge. rewrite Hfile, Hfind.
    replace (alreadyCompleted (utcMidnight now) uc) with false
      by (symmetry; apply not_true_iff_false; intros H; now apply alreadyCompleted_In in H).
    fold uc'. unfold applyTrustScore.
    change (User_findById (req_user_id req) (UserChallenge_save uc' db))
      with (User_findById (req_user_id req) db).
    rewrite Huser. unfold User_save, User_validate in *. simpl. now rewrite Hbad.
  - intros now2 now2' Hsame. unfold completeChallenge. rewrite Hfile, Hfind', Hsame.
    replace (alreadyCompleted (utcMidnight now) uc') with true; [reflexivity|].
    symmetry. apply alreadyCompleted_In. simpl. apply in_or_app. right. now left.
Qed.

Lemma completeChallenge_stored_before_failure_witness :
  let crowded := mkUser "u1" bronze 0
                   [mkRep "b1" 1; mkRep "b2" 2; mkRep "b3" 3; mkRep "b4" 4; mkRep "b5" 5]
                   ["b1"; "b2"; "b3"; "b4"; "b5"]%string in
  let db := mkDB [fourDone] [crowded] [health] [] in
  snd (completeChallenge (day 20004) (day 20004) request db) = ServerError
  /\ option_map totalCompletions
       (UserChallenge_findOne "u1" "c1" (fst (completeChallenge (day 20004) (day 20004) request db)))
     = Some 5.
Proof.
  cbn zeta.
  set (crowded := mkUser "u1" bronze 0
                    [mkRep "b1" 1; mkRep "b2" 2; mkRep "b3" 3; mkRep "b4" 4; mkRep "b5" 5]
                    ["b1"; "b2"; "b3"; "b4"; "b5"]%string).
  set (db := mkDB [fourDone] [crowded] [health] []).
  assert (Hn : ~ In (utcMidnight (day 20004)) (completedDates fourDone)).
  { simpl. unfold utcMidnight, day, msPerDay. simpl. intuition discriminate. }
  destruct (completeChallenge_stored_before_failure (day 20004) (day 20004) request db photo
              fourDone crowded eq_refl eq_refl Hn eq_refl eq_refl) as (Hout & Hfind & _).
  rewrite Hout. split; [reflexivity|].
  exact (f_equal (option_map totalCompletions) Hfind).
Defined.

(** ** The completion-rate aggregator *)

(** X23.  Recomputing the completion rate twice at the same instant
    is the same as once, and a recomputation keeps every stored
    challenge within the schema: when all completion rates lie between 0
    and 100 they still do afterwards, whether the new value was stored
    or refused. *)
Theorem updateCompletionRate_idempotent :
  forall now cid db,
    updateCompletionRate now cid (updateCompletionRate now cid db)
    = updateCompletionRate now cid db
    /\ (Forall (fun c => Challenge_validate c = true) (challenges db) ->
        Forall (fun c => Challenge_validate c = true)
          (challenges (updateCompletionRate now cid db))).
Proof.
  intros now cid db. split.
  - destruct (Challenge_findById cid db) as [c|] eqn:Hfind.
    2:{ unfold updateCompletionRate. now rewrite Hfind, Hfind. }
    set (rate := computedCompletionRate now (UserChallenge_find_challenge cid db)).
    set (c' := mkChallenge (ch_id c) (category c) rate).
    assert (Hstep : updateCompletionRate now cid db
              = match Challenge_save c' db with Some db' => db' | None => db end).
    { unfold updateCompletionRate. now rewrite Hfind. }
    rewrite Hstep. unfold Challenge_save.
    destruct (Challenge_validate c') eqn:Hvalid;
      [|rewrite Hstep; unfold Challenge_save; now rewrite Hvalid].
    set (db' := mkDB (userChallenges db) (users db)
                  (map (fun x => if String.eqb (ch_id x) (ch_id c') then c' else x)
                     (challenges db))
                  (badges db)).
    assert (Hfind' : Challenge_findById cid db' = Some c').
    { unfold Challenge_findById in *. simpl.
      pose proof (find_some _ _ Hfind) as [_ Hp].
      exact (find_replace_same ch_id _ c c' _ Hfind eq_refl Hp). }
    unfold updateCompletionRate. rewrite Hfind'.
    change (UserChallenge_find_challenge cid db') with (UserChallenge_find_challenge cid db).
    fold rate. change (mkChallenge (ch_id c') (category c') rate) with c'.
    unfold Challenge_save. rewrite Hvalid. unfold db'.
    cbn [challenges userChallenges users badges]. f_equal.
    exact (replace_idem ch_id c' (challenges db)).
  - intros Hall. unfold updateCompletionRate.
    destruct (Challenge_findById cid db) as [c|]; [|assumption].
    unfold Challenge_save.
    match goal with |- context [Challenge_validate ?c'] =>
      destruct (Challenge_validate c') eqn:Hvalid; [|assumption];
      exact (Forall_replace ch_id _ c' _ Hall Hvalid) end.
Qed.

(** ** A completion and the caller's rank *)

Lemma filter_map_length_le {A} (p p' : A -> bool) (r : A -> A) (l : list A) :
  (forall x, In x l -> p' (r x) = true -> p x = true) ->
  (List.length (List.filter p' (map r l)) <= List.length (List.filter p l))%nat.
Proof.
  induction l as [|x l IH]; simpl; intros H; [lia|].
  assert (IH' := IH (fun y Hy => H y (or_intror Hy))).
  destruct (p' (r x)) eqn:Hp'; [rewrite (H x (or_introl eq_refl) Hp'); simpl; lia|].
  destruct (p x); simpl; lia.
Qed.

Lemma filter_replace_unique {A} (key : A -> string) (q : A -> bool) (d d' : A) (l : list A) :
  List.NoDup (map key l) -> In d l -> key d' = key d -> q d' = q d ->
  List.filter q (map (fun x => if String.eqb (key x) (key d') then d' else x) l)
  = map (fun x => if String.eqb (key x) (key d') then d' else x) (List.filter q l).
Proof.
  intros Hnd Hin Hk Hq.
  induction l as [|x l IH]; [reflexivity|].
  simpl in Hnd. apply List.NoDup_cons_iff in Hnd as [Hx Hnd].
  cbn [map List.filter].
  destruct Hin as [-> | Hin].
  - rewrite Hk, String.eqb_refl, Hq. rewrite <- Hk.
    rewrite (replace_absent key d' l) by now rewrite Hk.
    destruct (q d); cbn [map]; [rewrite Hk, String.eqb_refl, <- Hk; f_equal|];
      symmetry; apply replace_absent; rewrite Hk; intros H; apply Hx;
      apply in_map_iff in H as (y & Ey & Hy); apply filter_In in Hy as [Hy _];
      rewrite <- Ey; now apply in_map.
  - destruct (String.eqb_spec (key x) (key d')) as [E | _].
    + exfalso. apply Hx. rewrite E, Hk. now apply in_map.
    + rewrite (IH Hnd Hin). destruct (q x); cbn [map]; [|reflexivity].
      destruct (String.eqb_spec (key x) (key d')) as [E | _]; [|reflexivity].
      exfalso. apply Hx. rewrite E, Hk. now apply in_map.
Qed.

(** Under the score and the completions metric, a record that strictly
    precedes the caller's after a completion did so before. *)
Lemma matchCondition_after_completion t today url uc x :
  t <> ByStreak ->
  matchCondition t (applyCompletion today url uc) x = true -> matchCondition t uc x = true.
Proof.
  intros Ht. destruct t; [| |contradiction]; cbn [matchCondition applyCompletion score
                                                  totalCompletions];
    rewrite !orb_true_iff, !andb_true_iff, !Z.gtb_lt, !Z.eqb_eq; lia.
Qed.

(** X24.  Completing never costs rank under the score metric or the
    completions metric: when every record has its own [_id] and the
    request is answered 200, the caller's rank in the challenge
    afterwards is at most the rank before, among the same number of
    participants.  Under the streak metric it can: a participant whose
    streak restarts at 1 falls behind one with the same longest streak
    and a current streak of 2. *)
Theorem completeChallenge_rank_not_worse :
  (forall (isValid : string -> bool) now now' req db data ty before after,
     rankingTypeOf ty <> ByStreak ->
     List.NoDup (map uc_id (userChallenges db)) ->
     snd (completeChallenge now now' req db) = Completed data ->
     getMyChallengeRank isValid (mkMyRankRequest (params_id req) (req_user_id req) ty) db
     = MyRankOk before ->
     getMyChallengeRank isValid (mkMyRankRequest (params_id req) (req_user_id req) ty)
       (fst (completeChallenge now now' req db)) = MyRankOk after ->
     my_rank after <= my_rank before
     /\ my_totalParticipants after = my_totalParticipants before)
  /\ (exists data before after,
        snd (completeChallenge (day 20004) (day 20004) request streakBoard) = Completed data
        /\ getMyChallengeRank anyId (mkMyRankRequest "c1" "u1" (Some "streak"%string)) streakBoard
           = MyRankOk before
        /\ getMyChallengeRank anyId (mkMyRankRequest "c1" "u1" (Some "streak"%string))
             (fst (completeChallenge (day 20004) (day 20004) request streakBoard))
           = MyRankOk after
        /\ my_rank before = 1
        /\ my_rank after = 2).
Proof.
  split.
  - intros isValid now now' req db data ty before after Hty Hnd Hok Hbefore Hafter.
    destruct (completeChallenge_outcome now now' req db) as (_ & _ & _ & [[_ Hno] | Hnew]);
      [now apply Hno in Hok|].
    destruct Hnew as (file & uc & _ & Hfind & _ & Hrec & _).
    set (uc' := applyCompletion (utcMidnight now)
                  ("/uploads/completions/" ++ filename file)%string uc) in *.
    set (r := fun x => if String.eqb (uc_id x) (uc_id uc') then uc' else x).
    apply getMyChallengeRank_data in Hbefore, Hafter. cbn zeta in Hbefore, Hafter.
    cbn [my_type my_user_id my_challengeId] in Hbefore, Hafter.
    destruct Hbefore as (Hf0 & Hr0 & Ht0), Hafter as (Hf1 & Hr1 & Ht1).
    rewrite Hfind in Hf0. injection Hf0 as Hmine0.
    pose proof (find_some _ _ Hfind) as [Hin Hp].
    assert (Hfind' : UserChallenge_findOne (req_user_id req) (params_id req)
                       (fst (completeChallenge now now' req db)) = Some uc').
    { unfold UserChallenge_findOne in *. rewrite Hrec. simpl.
      exact (find_replace_same uc_id _ uc uc' _ Hfind eq_refl Hp). }
    rewrite Hfind' in Hf1. injection Hf1 as Hmine1.
    assert (Hrecs : UserChallenge_find_challenge (params_id req)
                      (fst (completeChallenge now now' req db))
                    = map r (UserChallenge_find_challenge (params_id req) db)).
    { unfold UserChallenge_find_challenge. rewrite Hrec. unfold r.
      exact (filter_replace_unique uc_id
               (fun x => String.eqb (challengeId x) (params_id req)) uc uc' _
               Hnd Hin eq_refl eq_refl). }
    rewrite Hr0, Hr1, Ht0, Ht1, Hrecs, List.length_map, <- Hmine0, <- Hmine1.
    split; [|reflexivity].
    pose proof (filter_map_length_le
                  (matchCondition (rankingTypeOf ty) uc) (matchCondition (rankingTypeOf ty) uc')
                  r (UserChallenge_find_challenge (params_id req) db)) as Hle.
    enough ((List.length (List.filter (matchCondition (rankingTypeOf ty) uc')
                            (map r (UserChallenge_find_challenge (params_id req) db)))
             <= List.length (List.filter (matchCondition (rankingTypeOf ty) uc)
                               (UserChallenge_find_challenge (params_id req) db)))%nat) by lia.
    apply Hle. intros x _ Hx. unfold r in Hx.
    destruct (String.eqb (uc_id x) (uc_id uc')).
    + rewrite matchCondition_irrefl in Hx. discriminate.
    + now apply (matchCondition_after_completion _ _ _ _ _ Hty) in Hx.
  - eexists _, _, _. vm_compute. repeat split.
Qed.
